(** * Zone cache of external-dns-management: model and verified properties

    Shallow embedding of [pkg/dns/provider/zonecache.go]: the zones-list
    cache with TTL and backoff ([defaultZoneCache]), the shared zone-state
    manager ([zoneStates]) with its per-zone refresh proxies, the
    forwarded-domains cache, and the garbage collection of unused zones;
    beside them the pass-through cache ([onlyZonesCache]), the factory of
    the two strategies, and the timeout computation of the generated
    client of DNSEntries.

    The Go code is imperative: it mutates the manager, calls the provider
    through callbacks, reads the clock and emits metrics.  It is embedded
    in a state monad [M] over a system state [Sys] that holds the shared
    manager, the heap of snapshot objects, the outside world (provider and
    clock) and the trace of observable events.  Mutexes are not modelled:
    every operation below is one sequential run of the Go method, and the
    properties are about such runs and their sequences. *)

From Stdlib Require Import ZArith List String Bool Lia.
From stdpp Require Import base option numbers list strings gmap fin_maps sorting.

#[local] Set Warnings "-clear-no-such-hyp".

Local Open Scope Z_scope.

(** ** Time

    [time.Duration] is a signed 64-bit count of nanoseconds; its arithmetic
    wraps around and its division truncates toward zero.  [time.Time] is
    modelled as the (unbounded) number of nanoseconds since the zero
    instant of Go, which is the instant [IsZero] recognises; the monotonic
    clock reading carried by Go's [Time] is not modelled. *)

Module Time.

Abbreviation Duration := Z.
Abbreviation Time := Z.

Definition minInt64 : Z := - 2 ^ 63.
Definition maxInt64 : Z := 2 ^ 63 - 1.

Definition is_int64 (z : Z) : Prop := minInt64 <= z <= maxInt64.

(** Two's-complement wrap-around of a 64-bit signed result. *)
Definition wrap64 (z : Z) : Z := (z + 2 ^ 63) mod 2 ^ 64 - 2 ^ 63.

Definition dmul (a b : Duration) : Duration := wrap64 (a * b).
Definition dadd (a b : Duration) : Duration := wrap64 (a + b).
(** Go's [/] on integers truncates toward zero. *)
Definition ddiv (a b : Duration) : Duration := wrap64 (Z.quot a b).

Definition Second : Duration := 1000000000.

Definition zero : Time := 0.
Definition IsZero (t : Time) : bool := t =? 0.
Definition Add (t : Time) (d : Duration) : Time := t + d.
(** [t.After(u)] reports whether [t] is strictly later than [u]. *)
Definition After (t u : Time) : bool := u <? t.

End Time.

Import Time.

(** ** The generated client of DNSEntries

    The methods [List], [Watch] and [DeleteCollection] of [dNSEntries]
    compute the timeout of the request from the optional field
    [TimeoutSeconds] of the list options before they hand the request to
    the REST client: the number of seconds, converted to a duration and
    multiplied by [time.Second], when the field is set, the zero duration
    otherwise. *)
Module dNSEntries.

Definition timeout (TimeoutSeconds : option Z) : Duration :=
  match TimeoutSeconds with
  | Some seconds => dmul seconds Second
  | None => 0
  end.

End dNSEntries.

(** ** Zone identifiers and hosted zones *)

Record ZoneID := mkZoneID { ProviderType : string; ID : string }.

#[global] Instance ZoneID_eq_dec : EqDecision ZoneID.
Proof. solve_decision. Defined.

#[global] Instance ZoneID_countable : Countable ZoneID.
Proof.
  refine (inj_countable' (fun z => (ProviderType z, ID z))
                         (fun p => mkZoneID p.1 p.2) _).
  by intros [].
Defined.

(** Modelled from the spec: the interface [DNSHostedZone], declared
    outside the sources at hand.  A hosted zone exposes its id and the zone
    metadata (domain name, provider handle); the cache only calls
    [Id()]. *)
Record DNSHostedZone := mkZone { Id : ZoneID; Domain : string; Key : string }.

Abbreviation DNSHostedZones := (list DNSHostedZone).

(** [strings.Compare] is the lexicographic comparison of the bytes. *)
Definition zoneid_less (a b : ZoneID) : bool :=
  match String.compare (ProviderType a) (ProviderType b),
        String.compare (ID a) (ID b) with
  | Lt, _ => true
  | Eq, Lt => true
  | _, _ => false
  end.

Fixpoint insert_sorted (x : ZoneID) (l : list ZoneID) : list ZoneID :=
  match l with
  | [] => [x]
  | y :: l' => if zoneid_less y x then y :: insert_sorted x l' else x :: y :: l'
  end.

(** [sort.Slice] with the comparison of [toSortedZoneIDs].  The comparison
    is a strict total order on zone ids, so every sorting algorithm yields
    the same slice; insertion sort stands for Go's. *)
Definition sort_zoneids (l : list ZoneID) : list ZoneID :=
  foldr insert_sorted [] l.

Definition toSortedZoneIDs (zones : DNSHostedZones) : list ZoneID :=
  match zones with
  | [] => []
  | _ => sort_zoneids (Id <$> zones)
  end.

(** The order of the zone ids behind the comparison: [a] is not after
    [b]. *)
Definition zoneid_le (a b : ZoneID) : Prop := zoneid_less b a = false.

(** ** Errors

    The package [errors] of the repository is not part of the sources at
    hand.  The cache uses two things of it: the classification
    [IsThrottlingError] and the type assertion to [*AlreadyBusyForOwner].
    Both are parameters of the development (see [Env] below). *)

(** Modelled from the spec: the ownership-conflict error, which exposes the
    creation time of the claiming entry; the cache reads the field
    [EntryCreatedAt] only. *)
Record AlreadyBusyForOwner := mkAlreadyBusyForOwner {
  EntryCreatedAt : Time
}.

(** ** The forwarded-domains cache *)

Abbreviation forwardedDomainsCacheImpl := (gmap ZoneID (list string)).

Module FDC.

Definition new : forwardedDomainsCacheImpl := ∅.

Definition Get (zoneid : ZoneID) (hd : forwardedDomainsCacheImpl)
  : option (list string) := hd !! zoneid.

(** [value = None] is Go's nil slice. *)
Definition Set_ (zoneid : ZoneID) (value : option (list string))
    (hd : forwardedDomainsCacheImpl) : forwardedDomainsCacheImpl :=
  match value with
  | Some v => <[zoneid := v]> hd
  | None => delete zoneid hd
  end.

Definition DeleteZone (zoneID : ZoneID) (hd : forwardedDomainsCacheImpl)
  : forwardedDomainsCacheImpl := delete zoneID hd.

End FDC.

(** ** Per-zone refresh proxies *)

Record zoneStateProxy := mkProxy {
  lastUpdateStart : Time;
  lastUpdateEnd : Time
}.

(** The value of [&zoneStateProxy{}]. *)
Definition newProxy : zoneStateProxy :=
  {| lastUpdateStart := Time.zero; lastUpdateEnd := Time.zero |}.

(** Snapshot objects live on a heap; a [DNSZoneState] is a reference. *)
Abbreviation loc := positive.
(** Identity of a zone cache (the pointer used as key of [usedZones]). *)
Abbreviation CacheRef := positive.

(** ** The record store

    The record store [InMemory] is used by the manager but its source file
    is not at hand; it is modelled from the specification: a keyed storage
    holding one DNS-record snapshot per zone, supporting store/replace
    ([SetZone]), clone-read ([CloneZoneState]), incremental apply of a
    change ([Apply]), delete by zone ([DeleteZone]) and the list of the
    stored zones ([GetZones]). *)

(** Modelled from the spec: the entry of a zone in the record store, its
    metadata and the reference to its snapshot object.  The zone is stored
    under its id. *)
Record zonedata := mkZonedata {
  zd_domain : string;
  zd_key : string;
  dnssets : loc
}.

Abbreviation InMemory := (gmap ZoneID zonedata).

Module Store.

(** Modelled from the spec: the empty record store. *)
Definition NewInMemory : InMemory := ∅.

(** Modelled from the spec: the hosted zone of an entry. *)
Definition zone_of (k : ZoneID) (d : zonedata) : DNSHostedZone :=
  {| Id := k; Domain := zd_domain d; Key := zd_key d |}.

(** Modelled from the spec: the list of the stored zones. *)
Definition GetZones (m : InMemory) : DNSHostedZones :=
  (fun kv => zone_of kv.1 kv.2) <$> map_to_list m.

(** Modelled from the spec: store or replace the snapshot of a zone; the
    store keeps the given object. *)
Definition SetZone (zone : DNSHostedZone) (st : loc) (m : InMemory) : InMemory :=
  <[Id zone := {| zd_domain := Domain zone; zd_key := Key zone; dnssets := st |}]> m.

(** Modelled from the spec: delete by zone. *)
Definition DeleteZone (zoneID : ZoneID) (m : InMemory) : InMemory :=
  delete zoneID m.

End Store.

(** ** Observable events: callback invocations, metrics, log lines *)
Inductive Event :=
| EvZonesUpdater (c : CacheRef)
| EvStateUpdater (c : CacheRef) (zone : DNSHostedZone)
| EvAddGenericRequests (c : CacheRef) (requestType : string) (n : Z)
| EvAddZoneRequests (c : CacheRef) (zoneID : string) (requestType : string) (n : Z)
| EvAddZoneCacheDiscarding (zoneID : ZoneID)
| EvInfof (msg : string).

#[global] Instance DNSHostedZone_eq_dec : EqDecision DNSHostedZone.
Proof. solve_decision. Defined.

#[global] Instance Event_eq_dec : EqDecision Event.
Proof. solve_decision. Defined.

(** ** Parameters of the development

    What the cache takes from outside this file: the content of a zone
    snapshot with the effect of a change request on it (package-level code
    of the record store), the error classification of package [errors], the
    outside world (provider accounts and the wall clock) and the names of
    the two cache-hit metrics (constants declared elsewhere). *)
Class Env := {
  DNSSets : Type;
  ChangeRequest : Type;
  error : Type;
  World : Type;
  (** effect of one request on a snapshot, mutated in place: the content
      afterwards and the error, if any *)
  applyChange : DNSSets -> ChangeRequest -> DNSSets * option error;
  (** the error of the record store for a zone without snapshot *)
  errNotHosted : ZoneID -> error;
  IsThrottlingError : error -> bool;
  (** the type assertion of [err] to a pointer to [AlreadyBusyForOwner] *)
  asAlreadyBusyForOwner : error -> option AlreadyBusyForOwner;
  (** [time.Now()] *)
  clockNow : World -> Time * World;
  M_CACHED_GETZONES : string;
  M_CACHED_GETZONESTATE : string
}.

(** Outcome of a state-updater callback, [(DNSZoneState, error)]: with a
    nil error it carries the state, with an error it may carry one. *)
Inductive updateResult (S E : Type) :=
| UpdateOk (state : S)
| UpdateErr (state : option S) (err : E).
Arguments UpdateOk {S E} state.
Arguments UpdateErr {S E} state err.

(** A proxy pointer obtained from [getProxy zoneID] designates the entry of
    [zoneID] in the registry: in a sequential run nothing removes the entry
    between [getProxy] and the writes through the pointer. *)
Abbreviation ProxyRef := ZoneID.

Section Model.
Context `{env : Env}.

(** *** The shared zone-state manager *)
Record zoneStates := mkZoneStates {
  stateTTLGetter : ZoneID -> Duration;
  inMemory : InMemory;
  proxies : gmap ZoneID zoneStateProxy;
  usedZones : gmap CacheRef (list ZoneID);
  (** a pointer in Go, nil is [None] *)
  forwardedDomainsCache : option forwardedDomainsCacheImpl
}.

Definition newZoneStates (stateTTLGetter : ZoneID -> Duration) : zoneStates :=
  {| stateTTLGetter := stateTTLGetter;
     inMemory := Store.NewInMemory;
     proxies := ∅;
     usedZones := ∅;
     forwardedDomainsCache := Some FDC.new |}.

(** *** The full-caching zone cache (one consumer of the manager)

    [abstractZonesCache] is embedded in [defaultZoneCache]; the record is
    flattened.  [self] is the address of the cache.  The callbacks act on
    the outside world and are observed through their results. *)
Record defaultZoneCache := mkDefaultZoneCache {
  self : CacheRef;
  zonesTTL : Duration;
  zones : DNSHostedZones;
  zonesErr : option error;
  zonesNext : Time;
  zonesUpdater : World -> (DNSHostedZones * option error) * World;
  stateUpdater : DNSHostedZone -> World -> updateResult DNSSets error * World;
  backoffOnError : Duration
}.

Definition newDefaultZoneCache (self : CacheRef) (zonesTTL : Duration)
    (zonesUpdater : World -> (DNSHostedZones * option error) * World)
    (stateUpdater : DNSHostedZone -> World -> updateResult DNSSets error * World)
  : defaultZoneCache :=
  {| self := self; zonesTTL := zonesTTL; zones := []; zonesErr := None;
     zonesNext := Time.zero; zonesUpdater := zonesUpdater;
     stateUpdater := stateUpdater; backoffOnError := 0 |}.

(** *** System state and the monad of the operations *)
Record Sys := mkSys {
  shared : zoneStates;
  heap : gmap loc DNSSets;
  world : World;
  trace : list Event
}.

Definition M (A : Type) : Type := Sys -> A * Sys.

Definition ret {A} (a : A) : M A := fun σ => (a, σ).

Definition bind {A B} (m : M A) (k : A -> M B) : M B :=
  fun σ => let (a, σ') := m σ in k a σ'.

Definition gets {A} (f : Sys -> A) : M A := fun σ => (f σ, σ).

Definition modify (f : Sys -> Sys) : M unit := fun σ => (tt, f σ).

Definition upd_shared (f : zoneStates -> zoneStates) (σ : Sys) : Sys :=
  {| shared := f (shared σ); heap := heap σ; world := world σ; trace := trace σ |}.

Definition upd_heap (f : gmap loc DNSSets -> gmap loc DNSSets) (σ : Sys) : Sys :=
  {| shared := shared σ; heap := f (heap σ); world := world σ; trace := trace σ |}.

Definition set_world (w : World) (σ : Sys) : Sys :=
  {| shared := shared σ; heap := heap σ; world := w; trace := trace σ |}.

Definition upd_trace (f : list Event -> list Event) (σ : Sys) : Sys :=
  {| shared := shared σ; heap := heap σ; world := world σ; trace := f (trace σ) |}.

Definition upd_inMemory (f : InMemory -> InMemory) (s : zoneStates) : zoneStates :=
  {| stateTTLGetter := stateTTLGetter s; inMemory := f (inMemory s);
     proxies := proxies s; usedZones := usedZones s;
     forwardedDomainsCache := forwardedDomainsCache s |}.

Definition upd_proxies (f : gmap ZoneID zoneStateProxy -> gmap ZoneID zoneStateProxy)
    (s : zoneStates) : zoneStates :=
  {| stateTTLGetter := stateTTLGetter s; inMemory := inMemory s;
     proxies := f (proxies s); usedZones := usedZones s;
     forwardedDomainsCache := forwardedDomainsCache s |}.

Definition upd_usedZones (f : gmap CacheRef (list ZoneID) -> gmap CacheRef (list ZoneID))
    (s : zoneStates) : zoneStates :=
  {| stateTTLGetter := stateTTLGetter s; inMemory := inMemory s;
     proxies := proxies s; usedZones := f (usedZones s);
     forwardedDomainsCache := forwardedDomainsCache s |}.

Definition upd_forwardedDomains (f : forwardedDomainsCacheImpl -> forwardedDomainsCacheImpl)
    (s : zoneStates) : zoneStates :=
  {| stateTTLGetter := stateTTLGetter s; inMemory := inMemory s;
     proxies := proxies s; usedZones := usedZones s;
     forwardedDomainsCache := f <$> forwardedDomainsCache s |}.

End Model.

Notation "'let*' x ':=' m 'in' k" := (bind m (fun x => k))
  (at level 10, x pattern, m at level 100, k at level 200).
Notation "m ';;;' k" := (bind m (fun _ => k))
  (at level 100, k at level 200, right associativity).

Section Operations.
Context `{env : Env}.

(** Runs an operation and keeps the final state. *)
Definition exec {A} (m : M A) (σ : Sys) : Sys := (m σ).2.

(** *** Effects *)

(** [time.Now()] *)
Definition Now : M Time :=
  fun σ => let (t, w) := clockNow (world σ) in (t, set_world w σ).

Definition emit (e : Event) : M unit :=
  modify (upd_trace (fun tr => tr ++ [e])).

(** Allocation of a snapshot object. *)
Definition alloc (d : DNSSets) : M loc :=
  fun σ => let l := fresh (dom (heap σ)) in (l, upd_heap <[l := d]> σ).

(** [c.zonesUpdater(c)] *)
Definition call_zonesUpdater (c : defaultZoneCache) : M (DNSHostedZones * option error) :=
  emit (EvZonesUpdater (self c));;;
  fun σ => let (r, w) := zonesUpdater c (world σ) in (r, set_world w σ).

(** [cache.stateUpdater(zone, cache)]; the state it returns is a new
    object. *)
Definition call_stateUpdater (cache : defaultZoneCache) (zone : DNSHostedZone)
  : M (updateResult loc error) :=
  emit (EvStateUpdater (self cache) zone);;;
  let* r := (fun σ => let (r, w) := stateUpdater cache zone (world σ) in (r, set_world w σ)) in
  match r with
  | UpdateOk d => let* l := alloc d in ret (UpdateOk l)
  | UpdateErr None err => ret (UpdateErr None err)
  | UpdateErr (Some d) err => let* l := alloc d in ret (UpdateErr (Some l) err)
  end.

(** *** Record store operations on the system state *)

(** [s.inMemory.SetZone(zone, state)] and [s.inMemory.DeleteZone(zoneID)] *)
Definition SetZone (zone : DNSHostedZone) (st : loc) : M unit :=
  modify (upd_shared (upd_inMemory (Store.SetZone zone st))).

Definition DeleteZone (zoneID : ZoneID) : M unit :=
  modify (upd_shared (upd_inMemory (Store.DeleteZone zoneID))).

(** Modelled from the spec: clone-read of [InMemory], a new object with the
    content of the stored one; it fails for a zone without snapshot. *)
Definition CloneZoneState (zone : DNSHostedZone) : M (error + loc) :=
  let* data := gets (fun σ => inMemory (shared σ) !! Id zone) in
  match data with
  | None => ret (inl (errNotHosted (Id zone)))
  | Some data =>
    let* content := gets (fun σ => heap σ !! dnssets data) in
    match content with
    | None => ret (inl (errNotHosted (Id zone)))
    | Some d => let* l := alloc d in ret (inr l)
    end
  end.

(** Modelled from the spec: incremental apply of [InMemory], one change
    applied in place to the stored snapshot; it fails for a zone without
    snapshot. *)
Definition Apply (zoneID : ZoneID) (request : ChangeRequest) : M (option error) :=
  let* data := gets (fun σ => inMemory (shared σ) !! zoneID) in
  match data with
  | None => ret (Some (errNotHosted zoneID))
  | Some data =>
    let* content := gets (fun σ => heap σ !! dnssets data) in
    match content with
    | None => ret (Some (errNotHosted zoneID))
    | Some d =>
      let (d', err) := applyChange d request in
      modify (upd_heap <[dnssets data := d']>);;;
      ret err
    end
  end.

(** *** [zoneStates] *)

(** [zoneStates.getProxy]: the proxy of the zone, created on first use. *)
Definition getProxy (zoneID : ZoneID) : M ProxyRef :=
  let* proxy := gets (fun σ => proxies (shared σ) !! zoneID) in
  match proxy with
  | None =>
    modify (upd_shared (upd_proxies <[zoneID := newProxy]>));;;
    ret zoneID
  | Some _ => ret zoneID
  end.

(** Reads and writes of the fields of a proxy through its pointer. *)
Definition readProxy (proxy : ProxyRef) : M zoneStateProxy :=
  gets (fun σ => default newProxy (proxies (shared σ) !! proxy)).

Definition writeProxy (proxy : ProxyRef) (f : zoneStateProxy -> zoneStateProxy) : M unit :=
  modify (upd_shared (upd_proxies (alter f proxy))).

Definition set_lastUpdateStart (t : Time) (p : zoneStateProxy) : zoneStateProxy :=
  {| lastUpdateStart := t; lastUpdateEnd := lastUpdateEnd p |}.

Definition set_lastUpdateEnd (t : Time) (p : zoneStateProxy) : zoneStateProxy :=
  {| lastUpdateStart := lastUpdateStart p; lastUpdateEnd := t |}.

(** [zoneStates.cleanZoneState]; [proxy = None] is the nil pointer. *)
Definition cleanZoneState (zoneID : ZoneID) (proxy : option ProxyRef) : M unit :=
  DeleteZone zoneID;;;
  modify (upd_shared (upd_forwardedDomains (FDC.DeleteZone zoneID)));;;
  match proxy with
  | Some proxy =>
    writeProxy proxy (set_lastUpdateStart Time.zero);;;
    writeProxy proxy (set_lastUpdateEnd Time.zero)
  | None => ret tt
  end.

(** [zoneStates.GetZoneState]: state, wasCached, error. *)
Definition GetZoneState (zone : DNSHostedZone) (cache : defaultZoneCache)
  : M (option loc * bool * option error) :=
  let* proxy := getProxy (Id zone) in
  let* start := Now in
  let* ttl := gets (fun σ => stateTTLGetter (shared σ) (Id zone)) in
  let* p := readProxy proxy in
  if After start (Add (lastUpdateEnd p) ttl) then
    let* r := call_stateUpdater cache zone in
    match r with
    | UpdateOk state =>
      writeProxy proxy (set_lastUpdateStart start);;;
      let* t := Now in
      writeProxy proxy (set_lastUpdateEnd t);;;
      SetZone zone state;;;
      ret (Some state, false, None)
    | UpdateErr state err =>
      cleanZoneState (Id zone) (Some proxy);;;
      ret (state, false, Some err)
    end
  else
    let* r := CloneZoneState zone in
    match r with
    | inl err => ret (None, true, Some err)
    | inr state => ret (Some state, true, None)
    end.

(** [zoneStates.ReportZoneStateConflict]; [err = None] is the nil error. *)
Definition ReportZoneStateConflict (zoneID : ZoneID) (err : option error) : M bool :=
  let* proxy := getProxy zoneID in
  let* p := readProxy proxy in
  if negb (IsZero (lastUpdateStart p)) then
    match err ≫= asAlreadyBusyForOwner with
    | Some ownerConflict =>
      if After (EntryCreatedAt ownerConflict) (lastUpdateStart p) then
        cleanZoneState zoneID (Some proxy);;;
        ret true
      else ret false
    | None => ret false
    end
  else ret false.

(** The loop of [ExecuteRequests]: apply in order, break at the first
    error; the result is the value of [err] after the loop. *)
Fixpoint applyRequests (zoneID : ZoneID) (reqs : list ChangeRequest) : M (option error) :=
  match reqs with
  | [] => ret None
  | req :: reqs' =>
    let* err := Apply zoneID req in
    match err with
    | Some e => ret (Some e)
    | None => applyRequests zoneID reqs'
    end
  end.

(** [zoneStates.ExecuteRequests] *)
Definition ExecuteRequests (zoneID : ZoneID) (reqs : list ChangeRequest) : M unit :=
  let* proxy := getProxy zoneID in
  let* err := applyRequests zoneID reqs in
  match err with
  | Some _ => cleanZoneState zoneID (Some proxy)
  | None => ret tt
  end.

(** [zoneStates.CleanZoneState] *)
Definition CleanZoneState (zoneID : ZoneID) : M unit :=
  let* control := getProxy zoneID in
  cleanZoneState zoneID (Some control).

(** Iteration of a statement over a slice. *)
Fixpoint forEach {A} (l : list A) (body : A -> M unit) : M unit :=
  match l with
  | [] => ret tt
  | x :: l' => body x;;; forEach l' body
  end.

(** The set built by the two nested loops over [usedZones]. *)
Definition allUsedOf (used : gmap CacheRef (list ZoneID)) : gset ZoneID :=
  foldl (fun acc kv => foldl (fun acc id => {[id]} ∪ acc) acc kv.2) ∅ (map_to_list used).

(** The part of [UpdateUsedZones] after the update of the usage record:
    union of all usage sets, cleanup of the record store and of the proxy
    registry. *)
Definition collectUnused : M unit :=
  let* allUsed := gets (fun σ => allUsedOf (usedZones (shared σ))) in
  let* stored := gets (fun σ => Store.GetZones (inMemory (shared σ))) in
  forEach stored (fun zone =>
    if decide (Id zone ∈ allUsed) then ret tt
    else cleanZoneState (Id zone) None);;;
  let* ids := gets (fun σ => (map_to_list (proxies (shared σ))).*1) in
  forEach ids (fun id =>
    if decide (id ∈ allUsed) then ret tt
    else modify (upd_shared (upd_proxies (delete id)))).

(** [zoneStates.UpdateUsedZones].  The recorded list of an unknown
    consumer is nil; [reflect.DeepEqual] on a non-empty [zoneids] is the
    equality of the lists. *)
Definition UpdateUsedZones (cache : CacheRef) (zoneids : list ZoneID) : M unit :=
  let* oldids := gets (fun σ => default [] (usedZones (shared σ) !! cache)) in
  if (length zoneids =? 0)%nat then
    if (length oldids =? 0)%nat then ret tt
    else
      modify (upd_shared (upd_usedZones (delete cache)));;;
      collectUnused
  else
    if bool_decide (oldids = zoneids) then ret tt
    else
      modify (upd_shared (upd_usedZones <[cache := zoneids]>));;;
      collectUnused.

(** *** [defaultZoneCache]

    The methods with a pointer receiver return the updated cache. *)

(** [defaultZoneCache.nextBackoff] *)
Definition nextBackoff (c : defaultZoneCache) : Duration * defaultZoneCache :=
  let next := dadd (ddiv (dmul (backoffOnError c) 5) 4) (dmul 2 Second) in
  let maxBackoff := ddiv (zonesTTL c) 4 in
  let next := if maxBackoff <? next then maxBackoff else next in
  (next,
   {| self := self c; zonesTTL := zonesTTL c; zones := zones c;
      zonesErr := zonesErr c; zonesNext := zonesNext c;
      zonesUpdater := zonesUpdater c; stateUpdater := stateUpdater c;
      backoffOnError := next |}).

(** [defaultZoneCache.clearBackoff] *)
Definition clearBackoff (c : defaultZoneCache) : defaultZoneCache :=
  {| self := self c; zonesTTL := zonesTTL c; zones := zones c;
     zonesErr := zonesErr c; zonesNext := zonesNext c;
     zonesUpdater := zonesUpdater c; stateUpdater := stateUpdater c;
     backoffOnError := 0 |}.

(** Assignments to the fields [zones], [zonesErr] and [zonesNext]. *)
Definition set_zones (zs : DNSHostedZones) (e : option error) (c : defaultZoneCache)
  : defaultZoneCache :=
  {| self := self c; zonesTTL := zonesTTL c; zones := zs;
     zonesErr := e; zonesNext := zonesNext c;
     zonesUpdater := zonesUpdater c; stateUpdater := stateUpdater c;
     backoffOnError := backoffOnError c |}.

Definition set_zonesNext (t : Time) (c : defaultZoneCache) : defaultZoneCache :=
  {| self := self c; zonesTTL := zonesTTL c; zones := zones c;
     zonesErr := zonesErr c; zonesNext := t;
     zonesUpdater := zonesUpdater c; stateUpdater := stateUpdater c;
     backoffOnError := backoffOnError c |}.

(** [defaultZoneCache.GetZones] *)
Definition GetZones (c : defaultZoneCache)
  : M (defaultZoneCache * (DNSHostedZones * option error)) :=
  let* t := Now in
  if After t (zonesNext c) then
    let* r := call_zonesUpdater c in
    let c := set_zones r.1 r.2 c in
    let* updateTime := Now in
    let c :=
      match zonesErr c with
      | Some _ =>
        let (backoff, c) := nextBackoff c in
        set_zonesNext (Add updateTime backoff) c
      | None =>
        let c := clearBackoff c in
        set_zonesNext (Add updateTime (zonesTTL c)) c
      end in
    UpdateUsedZones (self c) (toSortedZoneIDs (zones c));;;
    ret (c, (zones c, zonesErr c))
  else
    emit (EvAddGenericRequests (self c) M_CACHED_GETZONES 1);;;
    ret (c, (zones c, zonesErr c)).

(** [defaultZoneCache.GetZoneState] *)
Definition CacheGetZoneState (c : defaultZoneCache) (zone : DNSHostedZone)
  : M (option loc * option error) :=
  let* r := GetZoneState zone c in
  let '(state, cached, err) := r in
  (if cached : bool
   then emit (EvAddZoneRequests (self c) (ID (Id zone)) M_CACHED_GETZONESTATE 1)
   else ret tt);;;
  ret (state, err).

(** [defaultZoneCache.ReportZoneStateConflict] *)
Definition CacheReportZoneStateConflict (c : defaultZoneCache) (zone : DNSHostedZone)
    (err : option error) : M bool :=
  ReportZoneStateConflict (Id zone) err.

(** [defaultZoneCache.ApplyRequests]; [logctx.Infof] and the metric are
    events of the trace. *)
Definition ApplyRequests (c : defaultZoneCache) (err : option error)
    (zone : DNSHostedZone) (reqs : list ChangeRequest) : M unit :=
  match err with
  | None => ExecuteRequests (Id zone) reqs
  | Some err =>
    if negb (IsThrottlingError err) then
      emit (EvInfof "zone cache discarded because of error during ExecuteRequests");;;
      CleanZoneState (Id zone);;;
      emit (EvAddZoneCacheDiscarding (Id zone))
    else
      emit (EvInfof "zone cache untouched (only throttling during ExecuteRequests)")
  end.

(** [defaultZoneCache.Release] *)
Definition Release (c : defaultZoneCache) : M unit :=
  UpdateUsedZones (self c) [].

(** [cache.ForwardedDomainsCache().Set(zoneid, value)] on the shared
    forwarded-domains cache. *)
Definition ForwardedDomainsSet (zoneid : ZoneID) (value : option (list string)) : M unit :=
  modify (upd_shared (upd_forwardedDomains (FDC.Set_ zoneid value))).

End Operations.

(** ** The pass-through strategy and the factory *)
Section Strategies.
Context `{env : Env}.

(** *** The pass-through zone cache

    [abstractZonesCache] is embedded in [onlyZonesCache]; the record is
    flattened, as for [defaultZoneCache].  The forwarded-domains cache is a
    field of the cache itself, nil ([None]) until it is asked for. *)
Record onlyZonesCache := mkOnlyZonesCache {
  oz_self : CacheRef;
  oz_zonesTTL : Duration;
  oz_zones : DNSHostedZones;
  oz_zonesErr : option error;
  oz_zonesNext : Time;
  oz_zonesUpdater : World -> (DNSHostedZones * option error) * World;
  oz_stateUpdater : DNSHostedZone -> World -> updateResult DNSSets error * World;
  oz_forwardedDomainsCache : option forwardedDomainsCacheImpl
}.

(** [onlyZonesCache.GetZones] *)
Definition oz_GetZones (c : onlyZonesCache) : M (DNSHostedZones * option error) :=
  emit (EvZonesUpdater (oz_self c));;;
  fun σ => let (r, w) := oz_zonesUpdater c (world σ) in (r, set_world w σ).

(** [onlyZonesCache.GetZoneState]: the state and the error of the callback,
    as they are. *)
Definition oz_GetZoneState (c : onlyZonesCache) (zone : DNSHostedZone)
  : M (option loc * option error) :=
  emit (EvStateUpdater (oz_self c) zone);;;
  let* r := (fun σ => let (r, w) := oz_stateUpdater c zone (world σ) in (r, set_world w σ)) in
  match r with
  | UpdateOk d => let* l := alloc d in ret (Some l, None)
  | UpdateErr None err => ret (None, Some err)
  | UpdateErr (Some d) err => let* l := alloc d in ret (Some l, Some err)
  end.

(** [onlyZonesCache.ApplyRequests]: the empty body. *)
Definition oz_ApplyRequests (c : onlyZonesCache) (err : option error)
    (zone : DNSHostedZone) (reqs : list ChangeRequest) : M unit :=
  ret tt.

(** [onlyZonesCache.ForwardedDomainsCache]: the cache of the field, created
    on first use; the updated cache and the forwarded-domains cache. *)
Definition oz_ForwardedDomainsCache (c : onlyZonesCache)
  : onlyZonesCache * forwardedDomainsCacheImpl :=
  match oz_forwardedDomainsCache c with
  | None =>
    ({| oz_self := oz_self c; oz_zonesTTL := oz_zonesTTL c; oz_zones := oz_zones c;
        oz_zonesErr := oz_zonesErr c; oz_zonesNext := oz_zonesNext c;
        oz_zonesUpdater := oz_zonesUpdater c; oz_stateUpdater := oz_stateUpdater c;
        oz_forwardedDomainsCache := Some FDC.new |}, FDC.new)
  | Some hd => (c, hd)
  end.

(** [onlyZonesCache.ReportZoneStateConflict] *)
Definition oz_ReportZoneStateConflict (c : onlyZonesCache) (zone : DNSHostedZone)
    (err : option error) : M bool :=
  ret false.

(** [onlyZonesCache.Release]: the empty body. *)
Definition oz_Release (c : onlyZonesCache) : M unit :=
  ret tt.

(** *** The interface [ZoneCache] and its two implementations *)
Inductive ZoneCache :=
| OnlyZones (c : onlyZonesCache)
| DefaultCache (c : defaultZoneCache).

(** *** [ZoneCacheFactory]

    The fields [context] and [logger] carry no behaviour of this file; the
    field [zoneStates] points to the shared manager of the system state. *)
Record ZoneCacheFactory := mkZoneCacheFactory {
  f_zonesTTL : Duration;
  disableZoneStateCache : bool
}.

Abbreviation ZoneCacheType := Z.
Definition CacheZonesOnly : ZoneCacheType := 0.
Definition CacheZoneState : ZoneCacheType := 1.

(** The error of the factory, [fmt.Errorf] with the cache type. *)
Inductive createError :=
| UnknownZoneCacheType (cacheType : ZoneCacheType).

(** [ZoneCacheFactory.CreateZoneCache]; [self] is the address of the cache
    it allocates. *)
Definition CreateZoneCache (f : ZoneCacheFactory) (self : CacheRef)
    (cacheType : ZoneCacheType)
    (zonesUpdater : World -> (DNSHostedZones * option error) * World)
    (stateUpdater : DNSHostedZone -> World -> updateResult DNSSets error * World)
  : ZoneCache + createError :=
  let only :=
    {| oz_self := self; oz_zonesTTL := f_zonesTTL f; oz_zones := [];
       oz_zonesErr := None; oz_zonesNext := Time.zero;
       oz_zonesUpdater := zonesUpdater; oz_stateUpdater := stateUpdater;
       oz_forwardedDomainsCache := None |} in
  if cacheType =? CacheZonesOnly then inl (OnlyZones only)
  else if cacheType =? CacheZoneState then
    if disableZoneStateCache f then inl (OnlyZones only)
    else inl (DefaultCache (newDefaultZoneCache self (f_zonesTTL f) zonesUpdater stateUpdater))
  else inr (UnknownZoneCacheType cacheType).

(** [NewTestZoneCacheFactory]: the factory and the manager it allocates. *)
Definition NewTestZoneCacheFactory (zonesTTL stateTTL : Duration)
  : ZoneCacheFactory * zoneStates :=
  ({| f_zonesTTL := zonesTTL; disableZoneStateCache := false |},
   newZoneStates (fun _ => stateTTL)).

End Strategies.

(** ** Observations on the state, used to state the properties *)
Section Observations.
Context `{env : Env}.

(** The forwarded-domains entry of a zone. *)
Definition forwardedOf (s : zoneStates) (zoneID : ZoneID) : option (list string) :=
  forwardedDomainsCache s ≫= FDC.Get zoneID.

(** The refresh window of a zone; a zone without proxy has the window of
    a new proxy, which is what [getProxy] would create. *)
Definition windowOf (s : zoneStates) (zoneID : ZoneID) : zoneStateProxy :=
  default newProxy (proxies s !! zoneID).

(** The usage set recorded for a consumer ([s.usedZones[cache]]). *)
Definition usedBy (s : zoneStates) (cache : CacheRef) : list ZoneID :=
  default [] (usedZones s !! cache).

(** The cached state of a zone is invalidated: no snapshot, no
    forwarded-domains entry, refresh window reset to zero. *)
Definition Invalidated (s : zoneStates) (zoneID : ZoneID) : Prop :=
  inMemory s !! zoneID = None ∧
  forwardedOf s zoneID = None ∧
  proxies s !! zoneID = Some newProxy.

(** The cached state is the same in two system states: same record store
    and snapshot objects, same forwarded domains, same refresh windows,
    same usage sets. *)
Definition SameCache (σ σ' : Sys) : Prop :=
  inMemory (shared σ') = inMemory (shared σ) ∧
  heap σ' = heap σ ∧
  forwardedDomainsCache (shared σ') = forwardedDomainsCache (shared σ) ∧
  (∀ z, windowOf (shared σ') z = windowOf (shared σ) z) ∧
  usedZones (shared σ') = usedZones (shared σ).

(** The entries of the zones other than [zoneID] (snapshot, forwarded
    domains, proxy), the usage sets and the TTL getter are the same in two
    system states. *)
Definition OtherZonesKept (zoneID : ZoneID) (σ σ' : Sys) : Prop :=
  (∀ z, z ≠ zoneID →
     inMemory (shared σ') !! z = inMemory (shared σ) !! z ∧
     forwardedOf (shared σ') z = forwardedOf (shared σ) z ∧
     proxies (shared σ') !! z = proxies (shared σ) !! z) ∧
  usedZones (shared σ') = usedZones (shared σ) ∧
  stateTTLGetter (shared σ') = stateTTLGetter (shared σ).

(** The state after [getProxy zoneID]. *)
Definition ensureProxy (zoneID : ZoneID) (σ : Sys) : Sys :=
  match proxies (shared σ) !! zoneID with
  | None => upd_shared (upd_proxies <[zoneID := newProxy]>) σ
  | Some _ => σ
  end.

(** Consistency of the cached state: every stored snapshot is an allocated
    object, and a zone whose refresh window has a non-zero end has a stored
    snapshot. *)
Definition Consistent (σ : Sys) : Prop :=
  (∀ z data, inMemory (shared σ) !! z = Some data →
             is_Some (heap σ !! dnssets data)) ∧
  (∀ z p, proxies (shared σ) !! z = Some p →
          lastUpdateEnd p ≠ Time.zero →
          is_Some (inMemory (shared σ) !! z)).

(** The states the system can be in: a new manager, followed by calls of
    the methods of the zone caches and of the manager, by any consumers and
    with any arguments. *)
Inductive Reachable : Sys → Prop :=
| reach_new ttl w :
    Reachable {| shared := newZoneStates ttl; heap := ∅; world := w; trace := [] |}
| reach_GetZones c σ :
    Reachable σ → Reachable (exec (GetZones c) σ)
| reach_CacheGetZoneState c zone σ :
    Reachable σ → Reachable (exec (CacheGetZoneState c zone) σ)
| reach_ApplyRequests c err zone reqs σ :
    Reachable σ → Reachable (exec (ApplyRequests c err zone reqs) σ)
| reach_Release c σ :
    Reachable σ → Reachable (exec (Release c) σ)
| reach_ForwardedDomainsSet zoneid value σ :
    Reachable σ → Reachable (exec (ForwardedDomainsSet zoneid value) σ)
| reach_GetZoneState zone c σ :
    Reachable σ → Reachable (exec (GetZoneState zone c) σ)
| reach_ReportZoneStateConflict zoneID err σ :
    Reachable σ → Reachable (exec (ReportZoneStateConflict zoneID err) σ)
| reach_ExecuteRequests zoneID reqs σ :
    Reachable σ → Reachable (exec (ExecuteRequests zoneID reqs) σ)
| reach_CleanZoneState zoneID σ :
    Reachable σ → Reachable (exec (CleanZoneState zoneID) σ)
| reach_UpdateUsedZones cache zoneids σ :
    Reachable σ → Reachable (exec (UpdateUsedZones cache zoneids) σ).

(** The zone has no refresh on record: the start of its refresh window is
    the zero time. *)
Definition StartIsZero (zoneID : ZoneID) (σ : Sys) : Prop :=
  lastUpdateStart (windowOf (shared σ) zoneID) = Time.zero.

(** The states the system can get to from [σ0] without a refresh of the
    zone [zoneID]: by calls of the methods of the zone caches and of the
    manager, by any consumers and with any arguments, except a
    [GetZoneState] for that zone that fetches its state and returns
    without error. *)
Inductive RunWithoutRefresh (zoneID : ZoneID) (σ0 : Sys) : Sys → Prop :=
| run_start : RunWithoutRefresh zoneID σ0 σ0
| run_GetZones c σ :
    RunWithoutRefresh zoneID σ0 σ →
    RunWithoutRefresh zoneID σ0 (exec (GetZones c) σ)
| run_CacheGetZoneState c zone σ :
    RunWithoutRefresh zoneID σ0 σ →
    (Id zone = zoneID →
       (GetZoneState zone c σ).1.1.2 = true ∨ (GetZoneState zone c σ).1.2 ≠ None) →
    RunWithoutRefresh zoneID σ0 (exec (CacheGetZoneState c zone) σ)
| run_ApplyRequests c err zone reqs σ :
    RunWithoutRefresh zoneID σ0 σ →
    RunWithoutRefresh zoneID σ0 (exec (ApplyRequests c err zone reqs) σ)
| run_Release c σ :
    RunWithoutRefresh zoneID σ0 σ →
    RunWithoutRefresh zoneID σ0 (exec (Release c) σ)
| run_ForwardedDomainsSet zoneid value σ :
    RunWithoutRefresh zoneID σ0 σ →
    RunWithoutRefresh zoneID σ0 (exec (ForwardedDomainsSet zoneid value) σ)
| run_CacheReportZoneStateConflict c zone err σ :
    RunWithoutRefresh zoneID σ0 σ →
    RunWithoutRefresh zoneID σ0 (exec (CacheReportZoneStateConflict c zone err) σ)
| run_GetZoneState zone c σ :
    RunWithoutRefresh zoneID σ0 σ →
    (Id zone = zoneID →
       (GetZoneState zone c σ).1.1.2 = true ∨ (GetZoneState zone c σ).1.2 ≠ None) →
    RunWithoutRefresh zoneID σ0 (exec (GetZoneState zone c) σ)
| run_ReportZoneStateConflict zoneID' err σ :
    RunWithoutRefresh zoneID σ0 σ →
    RunWithoutRefresh zoneID σ0 (exec (ReportZoneStateConflict zoneID' err) σ)
| run_ExecuteRequests zoneID' reqs σ :
    RunWithoutRefresh zoneID σ0 σ →
    RunWithoutRefresh zoneID σ0 (exec (ExecuteRequests zoneID' reqs) σ)
| run_CleanZoneState zoneID' σ :
    RunWithoutRefresh zoneID σ0 σ →
    RunWithoutRefresh zoneID σ0 (exec (CleanZoneState zoneID') σ)
| run_UpdateUsedZones cache zoneids σ :
    RunWithoutRefresh zoneID σ0 σ →
    RunWithoutRefresh zoneID σ0 (exec (UpdateUsedZones cache zoneids) σ).


(** [n] calls of [GetZones] by one consumer, one after the other: the
    cache afterwards and the results. *)
Fixpoint getZonesTimes (n : nat) (c : defaultZoneCache)
  : M (defaultZoneCache * list (DNSHostedZones * option error)) :=
  match n with
  | O => ret (c, [])
  | S n' =>
    let* r := GetZones c in
    let* rs := getZonesTimes n' r.1 in
    ret (rs.1, r.2 :: rs.2)
  end.

(** Calls of the methods of a pass-through cache that act on the system
    state, and a series of such calls, one after the other. *)
Inductive ozCall :=
| ozCallGetZones
| ozCallGetZoneState (zone : DNSHostedZone)
| ozCallApplyRequests (err : option error) (zone : DNSHostedZone)
    (reqs : list ChangeRequest)
| ozCallReportZoneStateConflict (zone : DNSHostedZone) (err : option error)
| ozCallRelease.

Definition ozRun (c : onlyZonesCache) (call : ozCall) : M unit :=
  match call with
  | ozCallGetZones => oz_GetZones c;;; ret tt
  | ozCallGetZoneState zone => oz_GetZoneState c zone;;; ret tt
  | ozCallApplyRequests err zone reqs => oz_ApplyRequests c err zone reqs
  | ozCallReportZoneStateConflict zone err =>
    oz_ReportZoneStateConflict c zone err;;; ret tt
  | ozCallRelease => oz_Release c
  end.

(** The callback invocations a series of calls is expected to make. *)
Definition ozCallbacks (c : onlyZonesCache) (calls : list ozCall) : list Event :=
  omap (fun call =>
    match call with
    | ozCallGetZones => Some (EvZonesUpdater (oz_self c))
    | ozCallGetZoneState zone => Some (EvStateUpdater (oz_self c) zone)
    | _ => None
    end) calls.

(** The next [n] readings of the clock are not after [deadline]. *)
Fixpoint readingsWithin (n : nat) (deadline : Time) (w : World) : Prop :=
  match n with
  | O => True
  | S n' =>
    let (t, w') := clockNow w in
    After t deadline = false ∧ readingsWithin n' deadline w'
  end.

(** Sequential application of requests to a snapshot, in the given order,
    stopping at the first failure (the words of the specification). *)
Fixpoint applyInOrder (d : DNSSets) (reqs : list ChangeRequest) : DNSSets * option error :=
  match reqs with
  | [] => (d, None)
  | req :: reqs' =>
    match applyChange d req with
    | (d', Some e) => (d', Some e)
    | (d', None) => applyInOrder d' reqs'
    end
  end.

(** The union of all recorded usage sets. *)
Definition InUnion (s : zoneStates) (z : ZoneID) : Prop :=
  ∃ cache ids, usedZones s !! cache = Some ids ∧ z ∈ ids.

(** The cleanup as claim C4 words it: every zone present in the record
    store or in the proxy registry of [σ] and absent from the union of
    [σ'] has no record-store entry, no forwarded-domains entry and no
    proxy in [σ']. *)
Definition CollectsAllUnused (σ σ' : Sys) : Prop :=
  ∀ z, is_Some (inMemory (shared σ) !! z) ∨ is_Some (proxies (shared σ) !! z) →
       ¬ InUnion (shared σ') z →
       inMemory (shared σ') !! z = None ∧
       forwardedOf (shared σ') z = None ∧
       proxies (shared σ') !! z = None.

(** The cache after [n] consecutive failed refreshes, as far as the
    backoff is concerned. *)
Fixpoint afterFailures (n : nat) (c : defaultZoneCache) : defaultZoneCache :=
  match n with
  | O => c
  | S n' => (nextBackoff (afterFailures n' c)).2
  end.

(** The backoff produced by the [n]-th consecutive failure ([n ≥ 1]),
    starting from a cleared backoff. *)
Definition backoffSeq (c : defaultZoneCache) (n : nat) : Duration :=
  backoffOnError (afterFailures n (clearBackoff c)).

(** The sequence of backoffs of consecutive failures is strictly
    increasing until it reaches the cap [zonesTTL/4], and stays there. *)
Definition IncreasingThenCapped (c : defaultZoneCache) : Prop :=
  ∃ N : nat, (1 ≤ N)%nat ∧
    (∀ n, (1 ≤ n)%nat → (n < N)%nat → backoffSeq c n < backoffSeq c (S n)) ∧
    (∀ n, (N ≤ n)%nat → backoffSeq c n = ddiv (zonesTTL c) 4).

End Observations.

(** ** A concrete environment, for examples *)
Module Example.

Inductive request := Create (name : string) | Remove (name : string) | Broken.

Inductive err :=
| Throttled
| Busy (createdAt : Time)
| NotHosted (z : ZoneID)
| Failed (msg : string).

(** A snapshot is the list of its record names. *)
Definition applyReq (d : list string) (r : request) : list string * option err :=
  match r with
  | Create n => (n :: d, None)
  | Remove n => (filter (fun x => x ≠ n) d, None)
  | Broken => (d, Some (Failed "broken request"))
  end.

(** The world is the list of the coming clock readings. *)
Definition tick (w : list Time) : Time * list Time :=
  match w with
  | [] => (0, [])
  | t :: w' => (t, w')
  end.

#[export] Instance env : Env := {|
  DNSSets := list string;
  ChangeRequest := request;
  error := err;
  World := list Time;
  applyChange := applyReq;
  errNotHosted := NotHosted;
  IsThrottlingError := fun e => match e with Throttled => true | _ => false end;
  asAlreadyBusyForOwner := fun e =>
    match e with
    | Busy t => Some {| EntryCreatedAt := t |}
    | _ => None
    end;
  clockNow := tick;
  M_CACHED_GETZONES := "cached_getzones";
  M_CACHED_GETZONESTATE := "cached_getzonestate"
|}.

Definition z1 : ZoneID := mkZoneID "aws-route53" "z1".
Definition z2 : ZoneID := mkZoneID "aws-route53" "z2".
Definition z3 : ZoneID := mkZoneID "aws-route53" "z3".

Definition zoneA : DNSHostedZone := mkZone z1 "a.example.com" "k1".
Definition zoneB : DNSHostedZone := mkZone z2 "b.example.com" "k2".
Definition zoneC : DNSHostedZone := mkZone z3 "c.example.com" "k3".

Definition ttl60 (_ : ZoneID) : Duration := 60 * Second.

(** A fresh manager at clock readings [w]. *)
Definition init (w : list Time) : Sys :=
  {| shared := newZoneStates ttl60; heap := ∅; world := w; trace := [] |}.

Definition listOk (zs : DNSHostedZones) (w : list Time)
  : (DNSHostedZones * option err) * list Time := ((zs, None), w).

Definition listFails (w : list Time)
  : (DNSHostedZones * option err) * list Time := (([], Some (Failed "list")), w).

Definition stateOk (_ : DNSHostedZone) (w : list Time)
  : updateResult (list string) err * list Time := (UpdateOk ["www"; "api"], w).

Definition stateFails (_ : DNSHostedZone) (w : list Time)
  : updateResult (list string) err * list Time := (UpdateErr None (Failed "fetch"), w).

(** Consumers: cache 1 succeeds, cache 2 fails on every callback. *)
Definition cache1 : defaultZoneCache :=
  newDefaultZoneCache 1%positive (120 * Second) (listOk [zoneA; zoneB]) stateOk.

Definition cache2 : defaultZoneCache :=
  newDefaultZoneCache 2%positive (120 * Second) listFails stateFails.

(** A cache with the given zones TTL. *)
Definition cacheTTL (ttl : Duration) : defaultZoneCache :=
  newDefaultZoneCache 3%positive ttl listFails stateFails.

(** Clock readings of the example runs, in seconds after the zero time. *)
Definition clock0 : list Time :=
  [1000 * Second; 1001 * Second; 1030 * Second; 1062 * Second; 1063 * Second].

(** A fresh manager, and the manager after cache 1 has fetched the state
    of zone A between the readings 1000s and 1001s. *)
Definition sys0 : Sys := init clock0.
Definition sys1 : Sys := exec (GetZoneState zoneA cache1) sys0.

(** Zone A primed: its state fetched by cache 1 from 1000s to 1001s and
    read from the cache at 1030s, and a forwarded domain set for it; and
    the system after the failed refresh of zone A by cache 2 at 1062s. *)
Definition sysPrimed : Sys :=
  exec (ForwardedDomainsSet z1 (Some ["sub.a.example.com"]))
    (exec (GetZoneState zoneA cache1) sys1).
Definition sysFailed : Sys := exec (GetZoneState zoneA cache2) sysPrimed.

(** Cache 1 and the system after its first [GetZones], which reports the
    usage set [z1; z2]. *)
Definition cache1' : defaultZoneCache := (GetZones cache1 sys0).1.1.
Definition sysZ : Sys := exec (GetZones cache1) sys0.

(** Consumer 1 uses [z1; z2], consumer 2 uses [z2; z3], and the states of
    the three zones are cached, with a forwarded domain for each. *)
Definition sysGC : Sys :=
  exec (ForwardedDomainsSet z3 (Some ["sub.c.example.com"]))
  (exec (ForwardedDomainsSet z2 (Some ["sub.b.example.com"]))
  (exec (ForwardedDomainsSet z1 (Some ["sub.a.example.com"]))
  (exec (GetZoneState zoneC cache1)
  (exec (GetZoneState zoneB cache1)
  (exec (GetZoneState zoneA cache1)
  (exec (UpdateUsedZones 2%positive [z2; z3])
  (exec (UpdateUsedZones 1%positive [z1; z2])
     (init [1000 * Second; 1001 * Second; 1002 * Second; 1003 * Second;
            1004 * Second; 1005 * Second])))))))).

(** A conflict report on zone [z2] has created its proxy, and a
    forwarded-domains entry has been set for it; the zone has no
    snapshot. *)
Definition sysLeak : Sys :=
  exec (ForwardedDomainsSet z2 (Some ["sub.b.example.com"]))
  (exec (ReportZoneStateConflict z2 None) sys0).

(** A consumer whose zones updater lists zone B before zone A. *)
Definition cacheBA : defaultZoneCache :=
  newDefaultZoneCache 1%positive (120 * Second) (listOk [zoneB; zoneA]) stateOk.

(** The state [sysGC] at a later time. *)
Definition sysGC' : Sys := set_world [2000 * Second; 2001 * Second] sysGC.

(** The system after cache 1 has listed its zones and fetched the state of
    zone A. *)
Definition sysZA : Sys := exec (GetZoneState zoneA cache1') sysZ.

(** Zone A after the conflict with an entry created after its refresh, and
    the system after further calls that do not refresh the zone: the same
    report again, a throttled write and a listing of cache 1. *)
Definition sysConflict : Sys :=
  exec (ReportZoneStateConflict z1 (Some (Busy (1000 * Second + 1)))) sys1.
Definition sysLater : Sys :=
  exec (GetZones cache1)
    (exec (ApplyRequests cache1 (Some Throttled) zoneA [Create "mail"])
       (exec (CacheReportZoneStateConflict cache1 zoneA (Some (Busy (1000 * Second + 1))))
          sysConflict)).

(** Consumer 2 gives up zone [z3]. *)
Definition sysEvict : Sys := exec (UpdateUsedZones 2%positive [z2]) sysGC'.

End Example.


(** * Properties *)
Section Properties.
Context `{env : Env}.
Implicit Types (σ : Sys) (s : zoneStates) (zoneID z : ZoneID) (zone : DNSHostedZone).

(** Projections of updated states. *)
Ltac sys_simpl :=
  cbn [shared heap world trace set_world upd_heap upd_shared upd_trace
       inMemory proxies usedZones forwardedDomainsCache stateTTLGetter
       upd_inMemory upd_proxies upd_usedZones upd_forwardedDomains
       ret gets modify default from_option id fst snd] in *.

(** ** The proxy registry *)

Lemma getProxy_run zoneID σ : getProxy zoneID σ = (zoneID, ensureProxy zoneID σ).
Proof.
  unfold getProxy, ensureProxy, bind, gets.
  destruct (proxies (shared σ) !! zoneID); reflexivity.
Qed.

Lemma ensureProxy_lookup zoneID σ :
  proxies (shared (ensureProxy zoneID σ)) !! zoneID = Some (windowOf (shared σ) zoneID).
Proof.
  unfold ensureProxy, windowOf.
  destruct (proxies (shared σ) !! zoneID) eqn:E; simpl.
  - by rewrite E.
  - by rewrite lookup_insert_eq.
Qed.

Lemma ensureProxy_window zoneID σ z :
  windowOf (shared (ensureProxy zoneID σ)) z = windowOf (shared σ) z.
Proof.
  unfold ensureProxy, windowOf.
  destruct (proxies (shared σ) !! zoneID) eqn:E; simpl; [done|].
  destruct (decide (zoneID = z)) as [->|Hne].
  - by rewrite lookup_insert_eq, E.
  - by rewrite lookup_insert_ne.
Qed.

Lemma ensureProxy_inMemory zoneID σ :
  inMemory (shared (ensureProxy zoneID σ)) = inMemory (shared σ).
Proof. unfold ensureProxy. by destruct (proxies (shared σ) !! zoneID). Qed.

Lemma ensureProxy_forwarded zoneID σ :
  forwardedDomainsCache (shared (ensureProxy zoneID σ)) = forwardedDomainsCache (shared σ).
Proof. unfold ensureProxy. by destruct (proxies (shared σ) !! zoneID). Qed.

Lemma ensureProxy_usedZones zoneID σ :
  usedZones (shared (ensureProxy zoneID σ)) = usedZones (shared σ).
Proof. unfold ensureProxy. by destruct (proxies (shared σ) !! zoneID). Qed.

Lemma ensureProxy_ttl zoneID σ :
  stateTTLGetter (shared (ensureProxy zoneID σ)) = stateTTLGetter (shared σ).
Proof. unfold ensureProxy. by destruct (proxies (shared σ) !! zoneID). Qed.

Lemma ensureProxy_heap zoneID σ : heap (ensureProxy zoneID σ) = heap σ.
Proof. unfold ensureProxy. by destruct (proxies (shared σ) !! zoneID). Qed.

Lemma ensureProxy_world zoneID σ : world (ensureProxy zoneID σ) = world σ.
Proof. unfold ensureProxy. by destruct (proxies (shared σ) !! zoneID). Qed.

Lemma ensureProxy_trace zoneID σ : trace (ensureProxy zoneID σ) = trace σ.
Proof. unfold ensureProxy. by destruct (proxies (shared σ) !! zoneID). Qed.

Lemma ensureProxy_same zoneID σ : SameCache σ (ensureProxy zoneID σ).
Proof.
  unfold SameCache.
  rewrite ensureProxy_inMemory, ensureProxy_heap, ensureProxy_forwarded, ensureProxy_usedZones.
  repeat split; auto using ensureProxy_window.
Qed.

Lemma fresh_loc_unused (h : gmap loc DNSSets) : h !! fresh (dom h) = None.
Proof. apply not_elem_of_dom, is_fresh. Qed.

(** ** [GetZoneState]: the three outcomes *)

Lemma GetZoneState_hit zone cache σ start w1 data d :
  clockNow (world σ) = (start, w1) →
  After start (Add (lastUpdateEnd (windowOf (shared σ) (Id zone)))
                   (stateTTLGetter (shared σ) (Id zone))) = false →
  inMemory (shared σ) !! Id zone = Some data →
  heap σ !! dnssets data = Some d →
  GetZoneState zone cache σ =
    ((Some (fresh (dom (heap σ))), true, None),
     upd_heap <[fresh (dom (heap σ)) := d]> (set_world w1 (ensureProxy (Id zone) σ))).
Proof.
  intros Hclock Hfresh Hdata Hd.
  unfold GetZoneState, bind. rewrite getProxy_run.
  unfold Now. rewrite ensureProxy_world, Hclock. unfold readProxy. sys_simpl.
  rewrite ensureProxy_lookup, ensureProxy_ttl. sys_simpl. rewrite Hfresh.
  unfold CloneZoneState, bind. sys_simpl.
  rewrite ensureProxy_inMemory, Hdata. sys_simpl. rewrite ensureProxy_heap, Hd.
  unfold alloc. sys_simpl. rewrite ensureProxy_heap. reflexivity.
Qed.


Lemma GetZoneState_refresh_ok zone cache σ start w1 d w2 tend w3 :
  clockNow (world σ) = (start, w1) →
  After start (Add (lastUpdateEnd (windowOf (shared σ) (Id zone)))
                   (stateTTLGetter (shared σ) (Id zone))) = true →
  stateUpdater cache zone w1 = (UpdateOk d, w2) →
  clockNow w2 = (tend, w3) →
  ∃ σ', GetZoneState zone cache σ = ((Some (fresh (dom (heap σ))), false, None), σ') ∧
    inMemory (shared σ') =
      Store.SetZone zone (fresh (dom (heap σ))) (inMemory (shared σ)) ∧
    heap σ' = <[fresh (dom (heap σ)) := d]> (heap σ) ∧
    proxies (shared σ') =
      <[Id zone := {| lastUpdateStart := start; lastUpdateEnd := tend |}]> (proxies (shared σ)) ∧
    forwardedDomainsCache (shared σ') = forwardedDomainsCache (shared σ) ∧
    usedZones (shared σ') = usedZones (shared σ) ∧
    world σ' = w3 ∧
    trace σ' = trace σ ++ [EvStateUpdater (self cache) zone] ∧
    stateTTLGetter (shared σ') = stateTTLGetter (shared σ).
Proof.
  intros Hclock Hexp Hcb Hclock2.
  unfold GetZoneState, bind. rewrite getProxy_run.
  unfold Now. rewrite ensureProxy_world, Hclock. unfold readProxy. sys_simpl.
  rewrite ensureProxy_lookup, ensureProxy_ttl. sys_simpl. rewrite Hexp.
  unfold call_stateUpdater, bind, emit. sys_simpl. rewrite Hcb.
  unfold alloc, writeProxy, SetZone. sys_simpl. rewrite Hclock2. sys_simpl.
  rewrite ensureProxy_heap.
  eexists. split; [reflexivity|]. sys_simpl.
  rewrite ensureProxy_inMemory, ensureProxy_heap, ensureProxy_forwarded,
    ensureProxy_usedZones, ensureProxy_trace, ensureProxy_ttl.
  repeat split; try reflexivity.
  apply map_eq. intros z. destruct (decide (Id zone = z)) as [<-|Hne].
  - rewrite !lookup_alter_eq, ensureProxy_lookup, lookup_insert_eq. reflexivity.
  - rewrite !lookup_alter_ne, lookup_insert_ne by done.
    unfold ensureProxy. destruct (proxies (shared σ) !! Id zone) eqn:E; [done|].
    sys_simpl. by rewrite lookup_insert_ne.
Qed.

Lemma GetZoneState_refresh_err zone cache σ start w1 st err w2 :
  clockNow (world σ) = (start, w1) →
  After start (Add (lastUpdateEnd (windowOf (shared σ) (Id zone)))
                   (stateTTLGetter (shared σ) (Id zone))) = true →
  stateUpdater cache zone w1 = (UpdateErr st err, w2) →
  ∃ state σ', GetZoneState zone cache σ = ((state, false, Some err), σ') ∧
    inMemory (shared σ') = delete (Id zone) (inMemory (shared σ)) ∧
    forwardedDomainsCache (shared σ') =
      delete (Id zone) <$> forwardedDomainsCache (shared σ) ∧
    proxies (shared σ') = <[Id zone := newProxy]> (proxies (shared σ)) ∧
    usedZones (shared σ') = usedZones (shared σ) ∧
    stateTTLGetter (shared σ') = stateTTLGetter (shared σ) ∧
    world σ' = w2 ∧
    trace σ' = trace σ ++ [EvStateUpdater (self cache) zone] ∧
    (∀ l, is_Some (heap σ !! l) → is_Some (heap σ' !! l)).
Proof.
  intros Hclock Hexp Hcb.
  unfold GetZoneState, bind. rewrite getProxy_run.
  unfold Now. rewrite ensureProxy_world, Hclock. unfold readProxy. sys_simpl.
  rewrite ensureProxy_lookup, ensureProxy_ttl. sys_simpl. rewrite Hexp.
  unfold call_stateUpdater, bind, emit. sys_simpl. rewrite Hcb.
  assert (Hprox : alter (set_lastUpdateEnd Time.zero) (Id zone)
            (alter (set_lastUpdateStart Time.zero) (Id zone)
               (proxies (shared (ensureProxy (Id zone) σ))))
          = <[Id zone := newProxy]> (proxies (shared σ))).
  { apply map_eq. intros z. destruct (decide (Id zone = z)) as [<-|Hne].
    - rewrite !lookup_alter_eq, ensureProxy_lookup, lookup_insert_eq. reflexivity.
    - rewrite !lookup_alter_ne, lookup_insert_ne by done.
      unfold ensureProxy. destruct (proxies (shared σ) !! Id zone) eqn:E; [done|].
      sys_simpl. by rewrite lookup_insert_ne. }
  destruct st as [d|]; unfold alloc, cleanZoneState, bind, writeProxy, DeleteZone;
    sys_simpl; rewrite ?ensureProxy_heap; do 2 eexists; (split; [reflexivity|]); sys_simpl;
    rewrite Hprox, ensureProxy_inMemory, ensureProxy_forwarded,
      ensureProxy_usedZones, ensureProxy_trace, ensureProxy_ttl, ?ensureProxy_heap;
    repeat split; try reflexivity; intros l Hl; [|done];
    rewrite lookup_insert_is_Some;
    destruct (decide (fresh (dom (heap σ)) = l)); [by left|by right].
Qed.


Lemma Invalidated_intro s zoneID (m : InMemory) (p : gmap ZoneID zoneStateProxy) :
  inMemory s = delete zoneID m →
  forwardedDomainsCache s = None ∨
    (∃ hd, forwardedDomainsCache s = Some (delete zoneID hd)) →
  proxies s = <[zoneID := newProxy]> p →
  Invalidated s zoneID.
Proof.
  intros Hm Hfd Hp. unfold Invalidated, forwardedOf, FDC.Get.
  rewrite Hm, Hp, lookup_delete_eq, lookup_insert_eq.
  repeat split.
  destruct Hfd as [->|(hd & ->)]; simpl; [done|apply lookup_delete_eq].
Qed.

Lemma forwarded_deleted (o : option forwardedDomainsCacheImpl) zoneID :
  delete zoneID <$> o = None ∨ (∃ hd, delete zoneID <$> o = Some (delete zoneID hd)).
Proof. destruct o; simpl; eauto. Qed.

(** C7. A refresh whose callback fails cleans the cached state of the zone
    (no record-store entry, no forwarded-domains entry, both timestamps of
    the proxy zero) and returns the error of the callback as it is.  The
    next call for the zone, at any clock reading after the zero instant
    plus the TTL, invokes the callback again instead of reading the
    cache. *)
Theorem GetZoneState_failed_refresh_cleans zone cache σ start w1 st err w2 :
  clockNow (world σ) = (start, w1) →
  After start (Add (lastUpdateEnd (windowOf (shared σ) (Id zone)))
                   (stateTTLGetter (shared σ) (Id zone))) = true →
  stateUpdater cache zone w1 = (UpdateErr st err, w2) →
  ∃ state σ', GetZoneState zone cache σ = ((state, false, Some err), σ') ∧
    Invalidated (shared σ') (Id zone) ∧
    ∀ cache' t w',
      clockNow (world σ') = (t, w') →
      After t (Add Time.zero (stateTTLGetter (shared σ') (Id zone))) = true →
      ∃ r σ'', GetZoneState zone cache' σ' = (r, σ'') ∧
        r.1.2 = false ∧
        trace σ'' = trace σ' ++ [EvStateUpdater (self cache') zone].
Proof.
  intros Hclock Hexp Hcb.
  destruct (GetZoneState_refresh_err zone cache σ start w1 st err w2)
    as (state & σ' & Hrun & Hmem & Hfd & Hprox & _ & _ & _ & _); auto.
  exists state, σ'. split; [exact Hrun|].
  assert (Hinv : Invalidated (shared σ') (Id zone)).
  { eapply Invalidated_intro; eauto. rewrite Hfd. apply forwarded_deleted. }
  split; [exact Hinv|].
  intros cache' t w' Hclock' Hexp'.
  assert (Hwin : windowOf (shared σ') (Id zone) = newProxy).
  { unfold windowOf. destruct Hinv as (_ & _ & ->). reflexivity. }
  destruct (stateUpdater cache' zone w') as [[d|st' err'] w''] eqn:Hcb'.
  - destruct (clockNow w'') as [tend w3] eqn:Hclock''.
    destruct (GetZoneState_refresh_ok zone cache' σ' t w' d w'' tend w3)
      as (σ'' & Hrun' & _ & _ & _ & _ & _ & _ & Htrace & _); auto.
    { by rewrite Hwin. }
    eexists _, σ''. split; [exact Hrun'|]. split; [reflexivity|exact Htrace].
  - destruct (GetZoneState_refresh_err zone cache' σ' t w' st' err' w'')
      as (state' & σ'' & Hrun' & _ & _ & _ & _ & _ & _ & Htrace & _); auto.
    { by rewrite Hwin. }
    eexists _, σ''. split; [exact Hrun'|]. split; [reflexivity|exact Htrace].
Qed.


(** ** [cleanZoneState] through a proxy *)

Lemma cleanZoneState_proxy_run zoneID σ :
  ∃ σ', cleanZoneState zoneID (Some zoneID) (ensureProxy zoneID σ) = (tt, σ') ∧
    inMemory (shared σ') = delete zoneID (inMemory (shared σ)) ∧
    forwardedDomainsCache (shared σ') =
      delete zoneID <$> forwardedDomainsCache (shared σ) ∧
    proxies (shared σ') = <[zoneID := newProxy]> (proxies (shared σ)) ∧
    usedZones (shared σ') = usedZones (shared σ) ∧
    stateTTLGetter (shared σ') = stateTTLGetter (shared σ) ∧
    heap σ' = heap σ ∧ world σ' = world σ ∧ trace σ' = trace σ.
Proof.
  unfold cleanZoneState, bind, writeProxy, DeleteZone. sys_simpl.
  eexists. split; [reflexivity|]. sys_simpl.
  rewrite ensureProxy_inMemory, ensureProxy_forwarded, ensureProxy_usedZones,
    ensureProxy_ttl, ensureProxy_heap, ensureProxy_world, ensureProxy_trace.
  repeat split; try reflexivity.
  apply map_eq. intros z. destruct (decide (zoneID = z)) as [<-|Hne].
  - rewrite !lookup_alter_eq, ensureProxy_lookup, lookup_insert_eq. reflexivity.
  - rewrite !lookup_alter_ne, lookup_insert_ne by done.
    unfold ensureProxy. destruct (proxies (shared σ) !! zoneID) eqn:E; [done|].
    sys_simpl. by rewrite lookup_insert_ne.
Qed.

Lemma cleanZoneState_proxy_invalidates zoneID σ σ' :
  cleanZoneState zoneID (Some zoneID) (ensureProxy zoneID σ) = (tt, σ') →
  Invalidated (shared σ') zoneID.
Proof.
  intros Hrun.
  destruct (cleanZoneState_proxy_run zoneID σ) as (σ1 & Hrun1 & Hm & Hfd & Hp & _).
  rewrite Hrun in Hrun1. injection Hrun1 as <-.
  eapply Invalidated_intro; eauto. rewrite Hfd. apply forwarded_deleted.
Qed.

(** The outcome of the report at the manager. *)
Lemma ReportZoneStateConflict_outcome zoneID (err : option error) σ :
  let T0 := lastUpdateStart (windowOf (shared σ) zoneID) in
  let stale :=
    T0 ≠ Time.zero ∧
    ∃ conflict, err ≫= asAlreadyBusyForOwner = Some conflict ∧
                T0 < EntryCreatedAt conflict in
  ∃ b σ', ReportZoneStateConflict zoneID err σ = (b, σ') ∧
    (b = true ↔ stale) ∧
    (stale → Invalidated (shared σ') zoneID) ∧
    (¬ stale → SameCache σ σ' ∧ world σ' = world σ ∧ trace σ' = trace σ).
Proof.
  intros T0 stale.
  unfold ReportZoneStateConflict, bind. rewrite getProxy_run.
  unfold readProxy. sys_simpl. rewrite ensureProxy_lookup. sys_simpl.
  fold T0. unfold IsZero, After.
  assert (Hsame : SameCache σ (ensureProxy zoneID σ) ∧
            world (ensureProxy zoneID σ) = world σ ∧
            trace (ensureProxy zoneID σ) = trace σ).
  { auto using ensureProxy_same, ensureProxy_world, ensureProxy_trace. }
  assert (Hno : ¬ stale →
            (false = true ↔ stale) ∧
            (stale → Invalidated (shared (ensureProxy zoneID σ)) zoneID) ∧
            (¬ stale → SameCache σ (ensureProxy zoneID σ) ∧
               world (ensureProxy zoneID σ) = world σ ∧
               trace (ensureProxy zoneID σ) = trace σ)).
  { intros Hns. split; [split; [done|intros Hs; by destruct Hns]|].
    split; [intros Hs; by destruct Hns|intros _; exact Hsame]. }
  destruct (Z.eqb_spec T0 0) as [Hz|Hnz]; cbn [negb].
  { eexists _, _. split; [reflexivity|].
    apply Hno. intros [? _]; done. }
  destruct (err ≫= asAlreadyBusyForOwner) as [conflict|] eqn:Hc.
  2:{ eexists _, _. split; [reflexivity|].
      apply Hno. intros (_ & c & ? & _); done. }
  destruct (Z.ltb_spec T0 (EntryCreatedAt conflict)) as [Hlt|Hge].
  - destruct (cleanZoneState_proxy_run zoneID σ) as (σ1 & Hrun1 & _).
    rewrite Hrun1. eexists _, _. split; [reflexivity|].
    assert (Hs : stale) by (split; [done|eauto]).
    split; [done|]. split; [|intros Hns; by destruct Hns].
    intros _. eapply cleanZoneState_proxy_invalidates; eauto.
  - eexists _, _. split; [reflexivity|].
    apply Hno. intros (_ & c & Hc' & Hlt). injection Hc' as <-. lia.
Qed.

(** C3. [ReportZoneStateConflict] of a full-caching cache, which hands the
    report to the manager, returns true exactly when the recorded
    [lastUpdateStart] of the zone is not the zero time, the error is an
    ownership conflict, and the creation time of the claiming entry is
    strictly after [lastUpdateStart]; in that case the cached state of the
    zone is invalidated.  In every other case it returns false and the
    cached state is the same as before. *)
Theorem ReportZoneStateConflict_iff_newer_claim c zone (err : option error) σ :
  let T0 := lastUpdateStart (windowOf (shared σ) (Id zone)) in
  let stale :=
    T0 ≠ Time.zero ∧
    ∃ conflict, err ≫= asAlreadyBusyForOwner = Some conflict ∧
                T0 < EntryCreatedAt conflict in
  ∃ b σ', CacheReportZoneStateConflict c zone err σ = (b, σ') ∧
    ReportZoneStateConflict (Id zone) err σ = (b, σ') ∧
    (b = true ↔ stale) ∧
    (stale → Invalidated (shared σ') (Id zone)) ∧
    (¬ stale → SameCache σ σ' ∧ world σ' = world σ ∧ trace σ' = trace σ).
Proof.
  intros T0 stale. unfold CacheReportZoneStateConflict.
  destruct (ReportZoneStateConflict_outcome (Id zone) err σ)
    as (b & σ' & Hrun & Hrest).
  exists b, σ'. split; [exact Hrun|]. split; [exact Hrun|exact Hrest].
Qed.

(** ** [ApplyRequests] *)

(** C8. After a failed provider write, [ApplyRequests] leaves the cached
    snapshot of the zone, its forwarded-domains entry and the timestamps of
    its proxy (indeed the whole shared state) unchanged when the error is
    classified as throttling; for any other error the cached state of the
    zone is invalidated and the cache-discard signal of the zone is
    emitted. *)
Theorem ApplyRequests_after_failed_write c (err : error) zone reqs σ :
  ∃ σ', ApplyRequests c (Some err) zone reqs σ = (tt, σ') ∧
    (IsThrottlingError err = true →
       shared σ' = shared σ ∧ heap σ' = heap σ ∧
       EvAddZoneCacheDiscarding (Id zone) ∉ drop (length (trace σ)) (trace σ')) ∧
    (IsThrottlingError err = false →
       Invalidated (shared σ') (Id zone) ∧
       drop (length (trace σ)) (trace σ') =
         [EvInfof "zone cache discarded because of error during ExecuteRequests";
          EvAddZoneCacheDiscarding (Id zone)]).
Proof.
  unfold ApplyRequests. destruct (IsThrottlingError err) eqn:Hthr; cbn [negb].
  - eexists. split; [reflexivity|]. split; [|done]. intros _.
    unfold emit. sys_simpl. repeat split.
    rewrite drop_app_length. intros Hin. apply list_elem_of_singleton in Hin. done.
  - unfold bind, emit, CleanZoneState, bind. sys_simpl. rewrite getProxy_run.
    match goal with |- context [ensureProxy ?z ?s] =>
      destruct (cleanZoneState_proxy_run z s) as (σ1 & Hrun1 & Hm & Hfd & Hp & _ & _ & _ & _ & Htr)
    end.
    rewrite Hrun1. eexists. split; [reflexivity|]. split; [done|]. intros _.
    sys_simpl. split.
    + eapply Invalidated_intro; eauto. rewrite Hfd. apply forwarded_deleted.
    + rewrite Htr. sys_simpl. rewrite <- app_assoc, drop_app_length. reflexivity.
Qed.

(** ** Write-through: the loop of [ExecuteRequests] *)

Lemma applyInOrder_all_ok (d d' : DNSSets) (reqs : list ChangeRequest) :
  applyInOrder d reqs = (d', None) →
  d' = foldl (fun d req => (applyChange d req).1) d reqs.
Proof.
  revert d. induction reqs as [|req reqs IH]; intros d; simpl.
  - by intros [= ->].
  - destruct (applyChange d req) as [d1 [e|]] eqn:E; [done|].
    intros H. simpl. by apply IH.
Qed.

Lemma applyInOrder_first_failure (d dk d' : DNSSets) e pre req post :
  applyInOrder d pre = (dk, None) →
  applyChange dk req = (d', Some e) →
  applyInOrder d (pre ++ req :: post) = (d', Some e).
Proof.
  revert d. induction pre as [|r pre IH]; intros d; simpl.
  - intros [= ->] ->. reflexivity.
  - destruct (applyChange d r) as [d1 [e1|]]; [done|]. apply IH.
Qed.

Lemma applyRequests_stored zoneID reqs σ data d :
  inMemory (shared σ) !! zoneID = Some data →
  heap σ !! dnssets data = Some d →
  ∃ σ', applyRequests zoneID reqs σ = ((applyInOrder d reqs).2, σ') ∧
    shared σ' = shared σ ∧
    heap σ' = <[dnssets data := (applyInOrder d reqs).1]> (heap σ) ∧
    world σ' = world σ ∧ trace σ' = trace σ.
Proof.
  revert σ d. induction reqs as [|req reqs IH]; intros σ d Hdata Hd.
  - simpl. eexists. split; [reflexivity|]. by rewrite insert_id.
  - cbn [applyRequests applyInOrder]. unfold bind at 1. unfold Apply, bind.
    sys_simpl. rewrite Hdata. sys_simpl. rewrite Hd.
    destruct (applyChange d req) as [d1 [e|]] eqn:E; sys_simpl.
    + eexists. split; [reflexivity|]. done.
    + destruct (IH (upd_heap <[dnssets data := d1]> σ) d1) as (σ' & Hrun & Hs & Hh & Hw & Ht).
      { done. }
      { sys_simpl. apply lookup_insert_eq. }
      exists σ'. split; [exact Hrun|]. sys_simpl.
      rewrite Hs, Hh, Hw, Ht, insert_insert_eq. done.
Qed.

Lemma applyRequests_frame zoneID reqs σ :
  ∃ e σ', applyRequests zoneID reqs σ = (e, σ') ∧
    shared σ' = shared σ ∧ world σ' = world σ ∧ trace σ' = trace σ ∧
    (∀ l, is_Some (heap σ !! l) → is_Some (heap σ' !! l)).
Proof.
  revert σ. induction reqs as [|req reqs IH]; intros σ.
  - simpl. eexists _, _. split; [reflexivity|]. done.
  - cbn [applyRequests]. unfold bind at 1. unfold Apply, bind. sys_simpl.
    destruct (inMemory (shared σ) !! zoneID) as [data|]; sys_simpl.
    2:{ eexists _, _. split; [reflexivity|]. done. }
    destruct (heap σ !! dnssets data) as [d|] eqn:Hd; sys_simpl.
    2:{ eexists _, _. split; [reflexivity|]. done. }
    assert (Hmono : ∀ d1 l, is_Some (heap σ !! l) →
                            is_Some (<[dnssets data := d1]> (heap σ) !! l)).
    { intros d1 l Hl. rewrite lookup_insert_is_Some.
      destruct (decide (dnssets data = l)); [by left|by right]. }
    destruct (applyChange d req) as [d1 [e|]]; sys_simpl.
    + eexists _, _. split; [reflexivity|]. sys_simpl. auto.
    + destruct (IH (upd_heap <[dnssets data := d1]> σ))
        as (e & σ' & Hrun & Hs & Hw & Ht & Hh).
      exists e, σ'. split; [exact Hrun|]. sys_simpl. auto 6.
Qed.

Lemma ExecuteRequests_failure zoneID reqs σ e σ1 :
  applyRequests zoneID reqs (ensureProxy zoneID σ) = (Some e, σ1) →
  ∃ σ', ExecuteRequests zoneID reqs σ = (tt, σ') ∧ Invalidated (shared σ') zoneID ∧
    heap σ' = heap σ1.
Proof.
  intros Hloop. unfold ExecuteRequests, bind. rewrite getProxy_run, Hloop.
  destruct (applyRequests_frame zoneID reqs (ensureProxy zoneID σ))
    as (e' & σ1' & Hrun & Hs & _). rewrite Hloop in Hrun. injection Hrun as <- <-.
  unfold cleanZoneState, bind, writeProxy, DeleteZone. sys_simpl.
  eexists. split; [reflexivity|]. sys_simpl. rewrite Hs.
  unfold Invalidated, forwardedOf. sys_simpl.
  rewrite ensureProxy_inMemory, ensureProxy_forwarded.
  split; [|done]. split; [apply lookup_delete_eq|]. split.
  - destruct (forwardedDomainsCache (shared σ)); [|done]. apply lookup_delete_eq.
  - rewrite !lookup_alter_eq, ensureProxy_lookup. reflexivity.
Qed.

(** C2. [ApplyRequests] after a successful provider write.  The requests
    are applied to the stored snapshot one after the other in the given
    order, stopping at the first failing one ([applyInOrder]).  When all
    succeed, the stored snapshot holds the result of all the changes in
    order and the rest of the cached state is as before.  When an apply
    fails, the requests after it are not applied (the snapshot object is
    left as the failing request left it) and the cached state of the zone
    is invalidated: no record-store entry, no forwarded-domains entry,
    proxy timestamps zero. *)
Theorem ApplyRequests_write_through c zone reqs σ :
  ∃ σ', ApplyRequests c None zone reqs σ = (tt, σ') ∧
    (∀ data d,
       inMemory (shared σ) !! Id zone = Some data →
       heap σ !! dnssets data = Some d →
       match applyInOrder d reqs with
       | (d', None) =>
           d' = foldl (fun d req => (applyChange d req).1) d reqs ∧
           heap σ' = <[dnssets data := d']> (heap σ) ∧
           inMemory (shared σ') = inMemory (shared σ) ∧
           forwardedDomainsCache (shared σ') = forwardedDomainsCache (shared σ) ∧
           (∀ z, windowOf (shared σ') z = windowOf (shared σ) z)
       | (d', Some _) =>
           (∀ pre req post dk,
              reqs = pre ++ req :: post →
              applyInOrder d pre = (dk, None) →
              is_Some (applyChange dk req).2 →
              d' = (applyChange dk req).1) ∧
           heap σ' = <[dnssets data := d']> (heap σ) ∧
           Invalidated (shared σ') (Id zone)
       end) ∧
    (∀ e σ1,
       applyRequests (Id zone) reqs (ensureProxy (Id zone) σ) = (Some e, σ1) →
       Invalidated (shared σ') (Id zone)).
Proof.
  cbn [ApplyRequests].
  destruct (applyRequests_frame (Id zone) reqs (ensureProxy (Id zone) σ))
    as ([e|] & σ1 & Hloop & Hs & Hw & Ht & _).
  - destruct (ExecuteRequests_failure _ _ _ _ _ Hloop) as (σ' & Hrun & Hinv & Hheap).
    exists σ'. split; [exact Hrun|]. split; [|done].
    intros data d Hdata Hd.
    destruct (applyRequests_stored (Id zone) reqs (ensureProxy (Id zone) σ) data d)
      as (σ2 & Hloop2 & _ & Hh2 & _).
    { by rewrite ensureProxy_inMemory. }
    { by rewrite ensureProxy_heap. }
    rewrite Hloop in Hloop2. injection Hloop2 as He <-.
    destruct (applyInOrder d reqs) as [d' [e'|]] eqn:Hord; [|done].
    cbn [fst] in Hh2. rewrite ensureProxy_heap in Hh2.
    split; [|split; [congruence|done]].
    intros pre req post dk -> Hpre [e2 He2].
    destruct (applyChange dk req) as [d2 o2] eqn:Hreq. cbn [fst snd] in *. subst o2.
    rewrite (applyInOrder_first_failure d dk d2 e2 pre req post Hpre Hreq) in Hord.
    congruence.
  - exists σ1. split.
    { unfold ExecuteRequests, bind. by rewrite getProxy_run, Hloop. }
    split; [|intros e σ2 Hloop2; congruence].
    intros data d Hdata Hd.
    destruct (applyRequests_stored (Id zone) reqs (ensureProxy (Id zone) σ) data d)
      as (σ2 & Hloop2 & _ & Hh & _).
    { by rewrite ensureProxy_inMemory. }
    { by rewrite ensureProxy_heap. }
    rewrite Hloop in Hloop2. injection Hloop2 as He <-.
    destruct (applyInOrder d reqs) as [d' [e'|]] eqn:Hord; [done|]. simpl in Hh.
    rewrite Hs, Hh, ensureProxy_inMemory, ensureProxy_forwarded, ensureProxy_heap.
    repeat split; auto using ensureProxy_window, applyInOrder_all_ok.
Qed.

(** ** Garbage collection of unused zones *)

Lemma elem_of_add_ids (ids : list ZoneID) (acc : gset ZoneID) z :
  z ∈ foldl (fun acc id => {[id]} ∪ acc) acc ids ↔ z ∈ acc ∨ z ∈ ids.
Proof.
  revert acc. induction ids as [|id ids IH]; intros acc; simpl.
  - set_solver.
  - rewrite IH. set_solver.
Qed.

Lemma elem_of_add_all (l : list (CacheRef * list ZoneID)) (acc : gset ZoneID) z :
  z ∈ foldl (fun acc kv => foldl (fun acc id => {[id]} ∪ acc) acc kv.2) acc l
  ↔ z ∈ acc ∨ ∃ kv, kv ∈ l ∧ z ∈ kv.2.
Proof.
  revert acc. induction l as [|kv l IH]; intros acc; simpl.
  - split; [auto|]. intros [?|(kv & Hin & _)]; [done|]. by apply elem_of_nil in Hin.
  - rewrite IH, elem_of_add_ids. split.
    + intros [[?|?]|(kv' & Hin & Hz)]; [by left|right|right].
      * exists kv. split; [apply list_elem_of_here|done].
      * exists kv'. split; [by apply list_elem_of_further|done].
    + intros [?|(kv' & Hin & Hz)]; [by left; left|].
      apply elem_of_cons in Hin as [->|Hin]; [by left; right|].
      right. eauto.
Qed.

Lemma elem_of_allUsedOf (used : gmap CacheRef (list ZoneID)) z :
  z ∈ allUsedOf used ↔ ∃ cache ids, used !! cache = Some ids ∧ z ∈ ids.
Proof.
  unfold allUsedOf. rewrite elem_of_add_all. split.
  - intros [Hin|([cache ids] & Hin & Hz)]; [set_solver|].
    apply elem_of_map_to_list in Hin. eauto.
  - intros (cache & ids & Hlk & Hz). right. exists (cache, ids).
    split; [by apply elem_of_map_to_list|done].
Qed.

Lemma InUnion_allUsedOf s z : InUnion s z ↔ z ∈ allUsedOf (usedZones s).
Proof. unfold InUnion. by rewrite elem_of_allUsedOf. Qed.

Lemma forwardedOf_delete s (f : InMemory → InMemory) zoneID z :
  forwardedOf (upd_forwardedDomains (FDC.DeleteZone zoneID) (upd_inMemory f s)) z =
  if decide (zoneID = z) then None else forwardedOf s z.
Proof.
  unfold forwardedOf, FDC.Get, FDC.DeleteZone. sys_simpl.
  destruct (forwardedDomainsCache s) as [hd|]; simpl.
  - case_decide as H; [subst; apply lookup_delete_eq|by apply lookup_delete_ne].
  - by case_decide.
Qed.

Lemma forEach_clean (U : gset ZoneID) (l : DNSHostedZones) σ :
  ∃ σ',
    forEach l (fun zone =>
      if decide (Id zone ∈ U) then ret tt
      else cleanZoneState (Id zone) None) σ = (tt, σ') ∧
    (∀ z, inMemory (shared σ') !! z =
          if decide (z ∈ Id <$> l ∧ z ∉ U) then None else inMemory (shared σ) !! z) ∧
    (∀ z, forwardedOf (shared σ') z =
          if decide (z ∈ Id <$> l ∧ z ∉ U) then None else forwardedOf (shared σ) z) ∧
    proxies (shared σ') = proxies (shared σ) ∧
    usedZones (shared σ') = usedZones (shared σ) ∧
    stateTTLGetter (shared σ') = stateTTLGetter (shared σ) ∧
    heap σ' = heap σ ∧ world σ' = world σ ∧ trace σ' = trace σ.
Proof.
  revert σ. induction l as [|zone l IH]; intros σ.
  - simpl. eexists. split; [reflexivity|].
    repeat split; intros z; case_decide as H; try done;
      destruct H as [H _]; by apply elem_of_nil in H.
  - cbn [forEach]. unfold bind at 1.
    destruct (decide (Id zone ∈ U)) as [HU|HU].
    + sys_simpl. destruct (IH σ) as (σ' & Hrun & Hm & Hf & Hrest).
      exists σ'. split; [exact Hrun|]. split; [|split; [|exact Hrest]].
      * intros z. rewrite Hm. rewrite fmap_cons.
        repeat case_decide; try done; set_solver.
      * intros z. rewrite Hf. rewrite fmap_cons.
        repeat case_decide; try done; set_solver.
    + unfold cleanZoneState, bind, DeleteZone. cbn [modify ret].
      match goal with |- context [forEach l _ ?s] =>
        destruct (IH s) as (σ' & Hrun & Hm & Hf & Hp & Hu & Ht & Hh & Hw & Htr)
      end.
      exists σ'. split; [exact Hrun|]. cbn [shared upd_shared] in Hf.
      sys_simpl.
      split; [|split; [|done]].
      * intros z. rewrite Hm, fmap_cons. unfold Store.DeleteZone.
        destruct (decide (Id zone = z)) as [<-|Hne].
        -- rewrite lookup_delete_eq. repeat case_decide; try done; set_solver.
        -- rewrite lookup_delete_ne by done. repeat case_decide; try done; set_solver.
      * intros z. rewrite Hf, fmap_cons, forwardedOf_delete.
        repeat case_decide; try done; set_solver.
Qed.

Lemma forEach_drop_proxies (U : gset ZoneID) (ids : list ZoneID) σ :
  ∃ σ',
    forEach ids (fun id =>
      if decide (id ∈ U) then ret tt
      else modify (upd_shared (upd_proxies (delete id)))) σ = (tt, σ') ∧
    (∀ z, proxies (shared σ') !! z =
          if decide (z ∈ ids ∧ z ∉ U) then None else proxies (shared σ) !! z) ∧
    inMemory (shared σ') = inMemory (shared σ) ∧
    forwardedDomainsCache (shared σ') = forwardedDomainsCache (shared σ) ∧
    usedZones (shared σ') = usedZones (shared σ) ∧
    stateTTLGetter (shared σ') = stateTTLGetter (shared σ) ∧
    heap σ' = heap σ ∧ world σ' = world σ ∧ trace σ' = trace σ.
Proof.
  revert σ. induction ids as [|id ids IH]; intros σ.
  - simpl. eexists. split; [reflexivity|].
    repeat split; intros z; case_decide as H; try done;
      destruct H as [H _]; by apply elem_of_nil in H.
  - cbn [forEach]. unfold bind at 1.
    destruct (decide (id ∈ U)) as [HU|HU]; sys_simpl.
    + destruct (IH σ) as (σ' & Hrun & Hp & Hrest).
      exists σ'. split; [exact Hrun|]. split; [|exact Hrest].
      intros z. rewrite Hp. repeat case_decide; try done; set_solver.
    + match goal with |- context [forEach ids _ ?s] =>
        destruct (IH s) as (σ' & Hrun & Hp & Hrest)
      end.
      exists σ'. split; [exact Hrun|]. sys_simpl. split; [|exact Hrest].
      intros z. rewrite Hp.
      destruct (decide (id = z)) as [<-|Hne].
      * rewrite lookup_delete_eq. repeat case_decide; try done; set_solver.
      * rewrite lookup_delete_ne by done. repeat case_decide; try done; set_solver.
Qed.

Lemma elem_of_stored_ids (m : InMemory) z :
  z ∈ Id <$> Store.GetZones m ↔ is_Some (m !! z).
Proof.
  unfold Store.GetZones. rewrite <- list_fmap_compose.
  rewrite list_elem_of_fmap. split.
  - intros ([k d] & -> & Hin). apply elem_of_map_to_list in Hin. simpl. eauto.
  - intros [d Hd]. exists (z, d). split; [done|]. by apply elem_of_map_to_list.
Qed.

Lemma elem_of_proxy_ids (m : gmap ZoneID zoneStateProxy) z :
  z ∈ (map_to_list m).*1 ↔ is_Some (m !! z).
Proof.
  rewrite list_elem_of_fmap. split.
  - intros ([k d] & -> & Hin). apply elem_of_map_to_list in Hin. simpl. eauto.
  - intros [d Hd]. exists (z, d). split; [done|]. by apply elem_of_map_to_list.
Qed.

(** What the cleanup of [UpdateUsedZones] does, zone by zone. *)
Lemma collectUnused_run σ :
  ∃ σ', collectUnused σ = (tt, σ') ∧
    (∀ z, inMemory (shared σ') !! z =
          if decide (InUnion (shared σ) z) then inMemory (shared σ) !! z else None) ∧
    (∀ z, forwardedOf (shared σ') z =
          if decide (InUnion (shared σ) z ∨ inMemory (shared σ) !! z = None)
          then forwardedOf (shared σ) z else None) ∧
    (∀ z, proxies (shared σ') !! z =
          if decide (InUnion (shared σ) z) then proxies (shared σ) !! z else None) ∧
    usedZones (shared σ') = usedZones (shared σ) ∧
    stateTTLGetter (shared σ') = stateTTLGetter (shared σ) ∧
    heap σ' = heap σ ∧ world σ' = world σ ∧ trace σ' = trace σ.
Proof.
  unfold collectUnused, bind. sys_simpl.
  destruct (forEach_clean (allUsedOf (usedZones (shared σ)))
              (Store.GetZones (inMemory (shared σ))) σ)
    as (σ1 & Hrun1 & Hm1 & Hf1 & Hp1 & Hu1 & Ht1 & Hh1 & Hw1 & Htr1).
  rewrite Hrun1.
  destruct (forEach_drop_proxies (allUsedOf (usedZones (shared σ)))
              (map_to_list (proxies (shared σ1))).*1 σ1)
    as (σ2 & Hrun2 & Hp2 & Hm2 & Hf2 & Hu2 & Ht2 & Hh2 & Hw2 & Htr2).
  rewrite Hrun2. exists σ2. split; [reflexivity|].
  split; [|split; [|split]].
  - intros z. rewrite Hm2, Hm1.
    pose proof (elem_of_stored_ids (inMemory (shared σ)) z) as Hst.
    pose proof (InUnion_allUsedOf (shared σ) z) as Hun.
    destruct (inMemory (shared σ) !! z) eqn:E;
      repeat case_decide; try done; exfalso; naive_solver.
  - intros z. unfold forwardedOf at 1. rewrite Hf2. fold (forwardedOf (shared σ1) z).
    rewrite Hf1.
    pose proof (elem_of_stored_ids (inMemory (shared σ)) z) as Hst.
    pose proof (InUnion_allUsedOf (shared σ) z) as Hun.
    destruct (inMemory (shared σ) !! z) eqn:E;
      repeat case_decide; try done; exfalso;
      try (apply is_Some_None in Hst); naive_solver eauto using is_Some_None.
  - intros z. rewrite Hp2, Hp1.
    pose proof (elem_of_proxy_ids (proxies (shared σ)) z) as Hst.
    pose proof (InUnion_allUsedOf (shared σ) z) as Hun.
    destruct (proxies (shared σ) !! z) eqn:E;
      repeat case_decide; try done; exfalso; naive_solver.
  - rewrite Hu2, Hu1, Ht2, Ht1, Hh2, Hh1, Hw2, Hw1, Htr2, Htr1. done.
Qed.

Lemma UpdateUsedZones_run cache zoneids σ :
  ∃ σ', UpdateUsedZones cache zoneids σ = (tt, σ') ∧
    heap σ' = heap σ ∧ world σ' = world σ ∧ trace σ' = trace σ ∧
    stateTTLGetter (shared σ') = stateTTLGetter (shared σ) ∧
    (usedBy (shared σ) cache = zoneids → σ' = σ) ∧
    (usedBy (shared σ) cache ≠ zoneids →
       usedZones (shared σ') =
         match zoneids with
         | [] => delete cache (usedZones (shared σ))
         | _ => <[cache := zoneids]> (usedZones (shared σ))
         end ∧
       ∀ z,
         (InUnion (shared σ') z →
            inMemory (shared σ') !! z = inMemory (shared σ) !! z ∧
            forwardedOf (shared σ') z = forwardedOf (shared σ) z ∧
            proxies (shared σ') !! z = proxies (shared σ) !! z) ∧
         (¬ InUnion (shared σ') z →
            inMemory (shared σ') !! z = None ∧
            proxies (shared σ') !! z = None ∧
            (is_Some (inMemory (shared σ) !! z) → forwardedOf (shared σ') z = None) ∧
            (inMemory (shared σ) !! z = None →
               forwardedOf (shared σ') z = forwardedOf (shared σ) z))).
Proof.
  assert (Hgc : ∀ f : gmap CacheRef (list ZoneID) → gmap CacheRef (list ZoneID),
    ∃ σ', collectUnused (upd_shared (upd_usedZones f) σ) = (tt, σ') ∧
      heap σ' = heap σ ∧ world σ' = world σ ∧ trace σ' = trace σ ∧
      stateTTLGetter (shared σ') = stateTTLGetter (shared σ) ∧
      usedZones (shared σ') = f (usedZones (shared σ)) ∧
      ∀ z,
        (InUnion (shared σ') z →
           inMemory (shared σ') !! z = inMemory (shared σ) !! z ∧
           forwardedOf (shared σ') z = forwardedOf (shared σ) z ∧
           proxies (shared σ') !! z = proxies (shared σ) !! z) ∧
        (¬ InUnion (shared σ') z →
           inMemory (shared σ') !! z = None ∧
           proxies (shared σ') !! z = None ∧
           (is_Some (inMemory (shared σ) !! z) → forwardedOf (shared σ') z = None) ∧
           (inMemory (shared σ) !! z = None →
              forwardedOf (shared σ') z = forwardedOf (shared σ) z))).
  { intros f.
    destruct (collectUnused_run (upd_shared (upd_usedZones f) σ))
      as (σ' & Hrun & Hm & Hf & Hp & Hu & Ht & Hh & Hw & Htr).
    exists σ'. split; [exact Hrun|]. sys_simpl.
    repeat (split; [done|]).
    intros z. specialize (Hm z). specialize (Hf z). specialize (Hp z).
    assert (Hiff : InUnion (shared σ') z ↔
                   InUnion (shared (upd_shared (upd_usedZones f) σ)) z).
    { unfold InUnion. by rewrite Hu. }
    change (forwardedOf (upd_usedZones f (shared σ)) z)
      with (forwardedOf (shared σ) z) in Hf.
    split; intros Hin.
    - apply Hiff in Hin. rewrite decide_True in Hm by done.
      rewrite decide_True in Hp by done.
      rewrite decide_True in Hf by (by left). done.
    - rewrite Hiff in Hin. rewrite decide_False in Hm by done.
      rewrite decide_False in Hp by done.
      repeat split; try done.
      + intros [d Hd]. rewrite decide_False in Hf; [done|].
        intros [?|?]; [done|congruence].
      + intros Hnone. rewrite decide_True in Hf by (by right). done. }
  unfold UpdateUsedZones, bind. sys_simpl. fold (usedBy (shared σ) cache).
  destruct zoneids as [|id ids]; cbn [length Nat.eqb].
  - destruct (usedBy (shared σ) cache) as [|id' ids'] eqn:Hold; cbn [length Nat.eqb].
    + exists σ. repeat (split; [done|]). intros Hne. by destruct Hne.
    + destruct (Hgc (delete cache)) as (σ' & Hrun & Hh & Hw & Htr & Ht & Hu & Hz).
      exists σ'. split; [exact Hrun|]. do 4 (split; [done|]).
      split; [done|]. intros _. done.
  - case_bool_decide as Heq.
    + exists σ. repeat (split; [done|]). intros Hne. by destruct Hne.
    + destruct (Hgc <[cache := id :: ids]>) as (σ' & Hrun & Hh & Hw & Htr & Ht & Hu & Hz).
      exists σ'. split; [exact Hrun|]. do 4 (split; [done|]).
      split; [intros Heq'; by destruct Heq|]. intros _. done.
Qed.

(** C4 (amended).  [UpdateUsedZones] is a no-op when the reported list
    equals the recorded one (both may be empty).  Otherwise the usage record
    of the consumer is replaced (deleted for an empty report) and, with
    respect to the union of the recorded usage sets after that update:
    every zone of the union keeps its record-store entry, forwarded-domains
    entry and proxy; every zone outside the union has no record-store entry
    and no proxy afterwards, and its forwarded-domains entry is removed if
    the zone had a record-store entry (otherwise it is left as it is). *)
Theorem UpdateUsedZones_collects_unused cache zoneids σ :
  ∃ σ', UpdateUsedZones cache zoneids σ = (tt, σ') ∧
    heap σ' = heap σ ∧
    (usedBy (shared σ) cache = zoneids → σ' = σ) ∧
    (usedBy (shared σ) cache ≠ zoneids →
       usedZones (shared σ') =
         match zoneids with
         | [] => delete cache (usedZones (shared σ))
         | _ => <[cache := zoneids]> (usedZones (shared σ))
         end ∧
       ∀ z,
         (InUnion (shared σ') z →
            inMemory (shared σ') !! z = inMemory (shared σ) !! z ∧
            forwardedOf (shared σ') z = forwardedOf (shared σ) z ∧
            proxies (shared σ') !! z = proxies (shared σ) !! z) ∧
         (¬ InUnion (shared σ') z →
            inMemory (shared σ') !! z = None ∧
            proxies (shared σ') !! z = None ∧
            (is_Some (inMemory (shared σ) !! z) → forwardedOf (shared σ') z = None) ∧
            (inMemory (shared σ) !! z = None →
               forwardedOf (shared σ') z = forwardedOf (shared σ) z))).
Proof.
  destruct (UpdateUsedZones_run cache zoneids σ)
    as (σ' & Hrun & Hh & _ & _ & _ & Hnoop & Hgc).
  exists σ'. auto.
Qed.

(** C10. [UpdateUsedZones] with an empty report for a consumer without
    recorded usage returns at once and changes nothing: the record store,
    the proxy registry, the forwarded-domains cache and the usage sets of
    all consumers are as before (the whole system state is).  Hence a
    second [Release] has no effect: two calls in a row end in the same
    state as one. *)
Theorem Release_idempotent c σ :
  (usedBy (shared σ) (self c) = [] → UpdateUsedZones (self c) [] σ = (tt, σ)) ∧
  (Release c;;; Release c) σ = Release c σ.
Proof.
  unfold Release.
  destruct (UpdateUsedZones_run (self c) [] σ)
    as (σ' & Hrun & _ & _ & _ & _ & Hnoop & Hgc).
  split.
  - intros Hempty. rewrite Hrun. f_equal. auto.
  - unfold bind. rewrite Hrun.
    destruct (UpdateUsedZones_run (self c) [] σ')
      as (σ'' & Hrun' & _ & _ & _ & _ & Hnoop' & _).
    rewrite Hrun'. f_equal. apply Hnoop'.
    destruct (decide (usedBy (shared σ) (self c) = [])) as [Hempty|Hused].
    + rewrite (Hnoop Hempty). exact Hempty.
    + destruct (Hgc Hused) as [Hu _]. unfold usedBy.
      by rewrite Hu, lookup_delete_eq.
Qed.

(** ** [GetZones]: TTL and backoff *)

Lemma GetZones_hit c σ t w1 :
  clockNow (world σ) = (t, w1) →
  After t (zonesNext c) = false →
  GetZones c σ =
    ((c, (zones c, zonesErr c)),
     upd_trace (fun tr => tr ++ [EvAddGenericRequests (self c) M_CACHED_GETZONES 1])
       (set_world w1 σ)).
Proof.
  intros Hclock Hfresh. unfold GetZones, bind, Now. rewrite Hclock, Hfresh.
  reflexivity.
Qed.

Lemma GetZones_refresh c σ t w1 zs e w2 tu w3 :
  clockNow (world σ) = (t, w1) →
  After t (zonesNext c) = true →
  zonesUpdater c w1 = ((zs, e), w2) →
  clockNow w2 = (tu, w3) →
  ∃ c' σ', GetZones c σ = ((c', (zs, e)), σ') ∧
    zones c' = zs ∧ zonesErr c' = e ∧
    self c' = self c ∧ zonesTTL c' = zonesTTL c ∧
    backoffOnError c' = match e with Some _ => (nextBackoff c).1 | None => 0 end ∧
    zonesNext c' =
      Add tu match e with Some _ => (nextBackoff c).1 | None => zonesTTL c end ∧
    UpdateUsedZones (self c) (toSortedZoneIDs zs)
      (set_world w3 (upd_trace (fun tr => tr ++ [EvZonesUpdater (self c)])
                       (set_world w1 σ))) = (tt, σ') ∧
    heap σ' = heap σ ∧ world σ' = w3 ∧
    trace σ' = trace σ ++ [EvZonesUpdater (self c)].
Proof.
  intros Hclock Hexp Hcb Hclock2.
  unfold GetZones, bind, Now. rewrite Hclock, Hexp.
  unfold call_zonesUpdater, bind, emit. sys_simpl. rewrite Hcb. sys_simpl.
  rewrite Hclock2.
  destruct e as [err|]; cbn [set_zones zonesErr nextBackoff clearBackoff set_zonesNext
                            self zones zonesTTL backoffOnError fst snd].
  - match goal with |- context [UpdateUsedZones ?a ?b ?s] =>
      destruct (UpdateUsedZones_run a b s) as (σ' & Hrun & Hh & Hw & Htr & _)
    end.
    rewrite Hrun. eexists _, σ'. split; [reflexivity|]. sys_simpl.
    cbn [zones zonesErr self zonesTTL backoffOnError zonesNext].
    repeat split; done.
  - match goal with |- context [UpdateUsedZones ?a ?b ?s] =>
      destruct (UpdateUsedZones_run a b s) as (σ' & Hrun & Hh & Hw & Htr & _)
    end.
    rewrite Hrun. eexists _, σ'. split; [reflexivity|]. sys_simpl.
    cbn [zones zonesErr self zonesTTL backoffOnError zonesNext].
    repeat split; done.
Qed.

(** C5. [GetZones] at a clock reading [t] not after the stored deadline
    [zonesNext] does not invoke the zones updater: it returns the cached
    list and error, changes neither the cache nor the shared state, and
    records the cache-hit metric.  At a reading after the deadline the
    zones updater is invoked exactly once and its result becomes the cached
    list and error (and is returned). *)
Theorem GetZones_respects_deadline c σ t w1 :
  clockNow (world σ) = (t, w1) →
  (After t (zonesNext c) = false →
   ∃ σ', GetZones c σ = ((c, (zones c, zonesErr c)), σ') ∧
     shared σ' = shared σ ∧ heap σ' = heap σ ∧
     trace σ' = trace σ ++ [EvAddGenericRequests (self c) M_CACHED_GETZONES 1])
  ∧
  (After t (zonesNext c) = true →
   ∀ zs e w2,
     zonesUpdater c w1 = ((zs, e), w2) →
     ∃ c' σ', GetZones c σ = ((c', (zs, e)), σ') ∧
       zones c' = zs ∧ zonesErr c' = e ∧
       trace σ' = trace σ ++ [EvZonesUpdater (self c)]).
Proof.
  intros Hclock. split.
  - intros Hfresh. eexists. split; [by eapply GetZones_hit|]. done.
  - intros Hexp zs e w2 Hcb.
    destruct (clockNow w2) as [tu w3] eqn:Hclock2.
    destruct (GetZones_refresh c σ t w1 zs e w2 tu w3)
      as (c' & σ' & Hrun & Hz & He & _ & _ & _ & _ & _ & _ & _ & Htr); auto.
    exists c', σ'. done.
Qed.


(** ** Consistency of the cached state in every reachable state *)

Lemma Consistent_frame σ σ' :
  inMemory (shared σ') = inMemory (shared σ) →
  proxies (shared σ') = proxies (shared σ) →
  (∀ l, is_Some (heap σ !! l) → is_Some (heap σ' !! l)) →
  Consistent σ → Consistent σ'.
Proof.
  intros Hm Hp Hh [I1 I2]. split.
  - intros z data. rewrite Hm. eauto.
  - intros z p. rewrite Hm, Hp. eauto.
Qed.

Lemma Consistent_ensureProxy zoneID σ : Consistent σ → Consistent (ensureProxy zoneID σ).
Proof.
  intros [I1 I2]. split.
  - intros z data. rewrite ensureProxy_inMemory, ensureProxy_heap. eauto.
  - intros z p Hp Hend. rewrite ensureProxy_inMemory. apply (I2 z p); [|done].
    unfold ensureProxy in Hp.
    destruct (proxies (shared σ) !! zoneID) eqn:E; [done|]. sys_simpl.
    destruct (decide (zoneID = z)) as [->|Hne].
    + rewrite lookup_insert_eq in Hp. injection Hp as <-. by destruct Hend.
    + by rewrite lookup_insert_ne in Hp.
Qed.

(** The state of a zone is cleaned through its proxy. *)
Lemma Consistent_invalidate zoneID σ σ' :
  inMemory (shared σ') = delete zoneID (inMemory (shared σ)) →
  proxies (shared σ') = <[zoneID := newProxy]> (proxies (shared σ)) →
  (∀ l, is_Some (heap σ !! l) → is_Some (heap σ' !! l)) →
  Consistent σ → Consistent σ'.
Proof.
  intros Hm Hp Hh [I1 I2]. split.
  - intros z data. rewrite Hm. intros Hz.
    apply lookup_delete_Some in Hz as [_ Hz]. eauto.
  - intros z p. rewrite Hm, Hp. intros Hz Hend.
    destruct (decide (zoneID = z)) as [->|Hne].
    + rewrite lookup_insert_eq in Hz. injection Hz as <-. by destruct Hend.
    + rewrite lookup_insert_ne in Hz by done. rewrite lookup_delete_ne by done. eauto.
Qed.

(** A snapshot is stored together with its refresh window. *)
Lemma Consistent_store zone st p σ σ' :
  inMemory (shared σ') = Store.SetZone zone st (inMemory (shared σ)) →
  proxies (shared σ') = <[Id zone := p]> (proxies (shared σ)) →
  is_Some (heap σ' !! st) →
  (∀ l, is_Some (heap σ !! l) → is_Some (heap σ' !! l)) →
  Consistent σ → Consistent σ'.
Proof.
  intros Hm Hp Hst Hh [I1 I2]. unfold Store.SetZone in Hm. split.
  - intros z data. rewrite Hm. intros Hz.
    apply lookup_insert_Some in Hz as [[_ <-]|[_ Hz]]; [done|eauto].
  - intros z q. rewrite Hm, Hp. intros Hz Hend.
    destruct (decide (Id zone = z)) as [<-|Hne].
    + rewrite lookup_insert_eq. eauto.
    + rewrite lookup_insert_ne in Hz by done. rewrite lookup_insert_ne by done. eauto.
Qed.

Lemma heap_alloc_mono (h : gmap loc DNSSets) (d : DNSSets) l :
  is_Some (h !! l) → is_Some (<[fresh (dom h) := d]> h !! l).
Proof.
  intros Hl. rewrite lookup_insert_is_Some.
  destruct (decide (fresh (dom h) = l)); [by left|by right].
Qed.

Lemma GetZoneState_consistent zone cache σ :
  Consistent σ → Consistent (exec (GetZoneState zone cache) σ).
Proof.
  intros Hc. unfold exec.
  destruct (clockNow (world σ)) as [start w1] eqn:Hclock.
  destruct (After start (Add (lastUpdateEnd (windowOf (shared σ) (Id zone)))
                             (stateTTLGetter (shared σ) (Id zone)))) eqn:Hexp.
  - destruct (stateUpdater cache zone w1) as [[d|st err] w2] eqn:Hcb.
    + destruct (clockNow w2) as [tend w3] eqn:Hclock2.
      destruct (GetZoneState_refresh_ok zone cache σ start w1 d w2 tend w3)
        as (σ' & Hrun & Hm & Hh & Hp & _); auto.
      rewrite Hrun. cbn [snd].
      eapply Consistent_store; eauto; rewrite Hh.
      * rewrite lookup_insert_eq. eauto.
      * intros l. apply heap_alloc_mono.
    + destruct (GetZoneState_refresh_err zone cache σ start w1 st err w2)
        as (state & σ' & Hrun & Hm & _ & Hp & _ & _ & _ & _ & Hh); auto.
      rewrite Hrun. cbn [snd]. eapply Consistent_invalidate; eauto.
  - unfold GetZoneState, bind. rewrite getProxy_run.
    unfold Now. rewrite ensureProxy_world, Hclock. unfold readProxy. sys_simpl.
    rewrite ensureProxy_lookup, ensureProxy_ttl. sys_simpl. rewrite Hexp.
    unfold CloneZoneState, bind. sys_simpl.
    apply (Consistent_ensureProxy (Id zone)) in Hc.
    destruct (inMemory (shared (ensureProxy (Id zone) σ)) !! Id zone) as [data|];
      sys_simpl; [|by eapply Consistent_frame; [| | |exact Hc]].
    destruct (heap (ensureProxy (Id zone) σ) !! dnssets data) as [d|];
      sys_simpl; [|by eapply Consistent_frame; [| | |exact Hc]].
    unfold alloc. sys_simpl.
    eapply Consistent_frame; [| | |exact Hc]; try done.
    sys_simpl. intros l. apply heap_alloc_mono.
Qed.

Lemma cleanZoneState_proxy_consistent zoneID σ :
  Consistent σ →
  Consistent (cleanZoneState zoneID (Some zoneID) (ensureProxy zoneID σ)).2.
Proof.
  intros Hc.
  destruct (cleanZoneState_proxy_run zoneID σ)
    as (σ' & Hrun & Hm & _ & Hp & _ & _ & Hh & _).
  rewrite Hrun. cbn [snd]. eapply Consistent_invalidate; eauto.
  intros l. by rewrite Hh.
Qed.

Lemma ReportZoneStateConflict_consistent zoneID (err : option error) σ :
  Consistent σ → Consistent (exec (ReportZoneStateConflict zoneID err) σ).
Proof.
  intros Hc. unfold exec, ReportZoneStateConflict, bind. rewrite getProxy_run.
  unfold readProxy. sys_simpl.
  pose proof (Consistent_ensureProxy zoneID σ Hc) as Hc1.
  pose proof (cleanZoneState_proxy_consistent zoneID σ Hc) as Hc2.
  destruct (negb _); [|done].
  destruct (err ≫= asAlreadyBusyForOwner) as [conflict|]; [|done].
  destruct (After _ _); [|done].
  destruct (cleanZoneState zoneID (Some zoneID) (ensureProxy zoneID σ)). done.
Qed.

Lemma CleanZoneState_consistent zoneID σ :
  Consistent σ → Consistent (exec (CleanZoneState zoneID) σ).
Proof.
  intros Hc. unfold exec, CleanZoneState, bind. rewrite getProxy_run.
  by apply cleanZoneState_proxy_consistent.
Qed.

Lemma ExecuteRequests_consistent zoneID reqs σ :
  Consistent σ → Consistent (exec (ExecuteRequests zoneID reqs) σ).
Proof.
  intros Hc. unfold exec, ExecuteRequests, bind. rewrite getProxy_run.
  destruct (applyRequests_frame zoneID reqs (ensureProxy zoneID σ))
    as (e & σ1 & Hrun & Hs & _ & _ & Hh).
  rewrite Hrun.
  assert (Hc1 : Consistent σ1).
  { eapply Consistent_frame; [| | |exact (Consistent_ensureProxy zoneID σ Hc)];
      by rewrite ?Hs. }
  destruct e as [e|]; [|done].
  unfold cleanZoneState, bind, writeProxy, DeleteZone. sys_simpl.
  eapply (Consistent_invalidate zoneID σ1); [| | |done]; sys_simpl; try done.
  rewrite Hs. apply map_eq. intros z. destruct (decide (zoneID = z)) as [<-|Hne].
  - rewrite !lookup_alter_eq, ensureProxy_lookup, lookup_insert_eq. reflexivity.
  - by rewrite !lookup_alter_ne, lookup_insert_ne.
Qed.

Lemma UpdateUsedZones_consistent cache zoneids σ :
  Consistent σ → Consistent (exec (UpdateUsedZones cache zoneids) σ).
Proof.
  intros [I1 I2]. unfold exec.
  destruct (UpdateUsedZones_run cache zoneids σ)
    as (σ' & Hrun & Hh & _ & _ & _ & Hnoop & Hgc).
  rewrite Hrun. cbn [snd].
  destruct (decide (usedBy (shared σ) cache = zoneids)) as [Heq|Hne].
  { by rewrite (Hnoop Heq). }
  destruct (Hgc Hne) as [_ Hz]. split.
  - intros z data Hdata. rewrite Hh.
    destruct (decide (InUnion (shared σ') z)) as [Hin|Hout].
    + destruct (proj1 (Hz z) Hin) as (Hm & _). rewrite Hm in Hdata. eauto.
    + destruct (proj2 (Hz z) Hout) as (Hm & _). congruence.
  - intros z p Hp Hend.
    destruct (decide (InUnion (shared σ') z)) as [Hin|Hout].
    + destruct (proj1 (Hz z) Hin) as (Hm & _ & Hp'). rewrite Hm.
      rewrite Hp' in Hp. eauto.
    + destruct (proj2 (Hz z) Hout) as (_ & Hp' & _). congruence.
Qed.

Lemma GetZones_consistent c σ : Consistent σ → Consistent (exec (GetZones c) σ).
Proof.
  intros Hc. unfold exec.
  destruct (clockNow (world σ)) as [t w1] eqn:Hclock.
  destruct (After t (zonesNext c)) eqn:Hexp.
  - destruct (zonesUpdater c w1) as [[zs e] w2] eqn:Hcb.
    destruct (clockNow w2) as [tu w3] eqn:Hclock2.
    destruct (GetZones_refresh c σ t w1 zs e w2 tu w3)
      as (c' & σ' & Hrun & _ & _ & _ & _ & _ & _ & Hupd & _); auto.
    rewrite Hrun. cbn [snd].
    match type of Hupd with UpdateUsedZones ?a ?b ?s = _ =>
      pose proof (UpdateUsedZones_consistent a b s) as Hc'
    end.
    unfold exec in Hc'. rewrite Hupd in Hc'. apply Hc'.
    by eapply Consistent_frame; [| | |exact Hc].
  - rewrite (GetZones_hit c σ t w1) by done. cbn [snd].
    by eapply Consistent_frame; [| | |exact Hc].
Qed.

Lemma CacheGetZoneState_consistent c zone σ :
  Consistent σ → Consistent (exec (CacheGetZoneState c zone) σ).
Proof.
  intros Hc. apply (GetZoneState_consistent zone c) in Hc.
  unfold exec in *. unfold CacheGetZoneState, bind.
  destruct (GetZoneState zone c σ) as [[[state cached] err] σ1]. cbn [snd] in *.
  destruct cached; [|done].
  unfold emit. sys_simpl. by eapply Consistent_frame; [| | |exact Hc].
Qed.

Lemma ApplyRequests_consistent c (err : option error) zone reqs σ :
  Consistent σ → Consistent (exec (ApplyRequests c err zone reqs) σ).
Proof.
  intros Hc. destruct err as [err|]; cbn [ApplyRequests].
  2:{ by apply ExecuteRequests_consistent. }
  unfold exec. destruct (negb (IsThrottlingError err)).
  - unfold bind, emit. sys_simpl.
    match goal with |- context [CleanZoneState ?z ?s] =>
      pose proof (CleanZoneState_consistent z s) as Hc'
    end.
    unfold exec in Hc'.
    destruct (CleanZoneState _ _) as [[] σ1]. cbn [snd] in *.
    eapply Consistent_frame; [| | |apply Hc'; exact Hc]; done.
  - unfold emit. sys_simpl. by eapply Consistent_frame; [| | |exact Hc].
Qed.

Lemma Consistent_new ttl (w : World) :
  Consistent {| shared := newZoneStates ttl; heap := ∅; world := w; trace := [] |}.
Proof.
  split; intros z x H; exfalso; eapply (lookup_empty_Some (M := gmap ZoneID)), H.
Qed.

(** Every reachable state is consistent. *)
Lemma Reachable_Consistent σ : Reachable σ → Consistent σ.
Proof.
  induction 1 as [ttl w| | | | | | | | | | ].
  - apply Consistent_new.
  - by apply GetZones_consistent.
  - by apply CacheGetZoneState_consistent.
  - by apply ApplyRequests_consistent.
  - by apply UpdateUsedZones_consistent.
  - unfold exec, ForwardedDomainsSet. sys_simpl.
    by eapply Consistent_frame; [| | |eassumption].
  - by apply GetZoneState_consistent.
  - by apply ReportZoneStateConflict_consistent.
  - by apply ExecuteRequests_consistent.
  - by apply CleanZoneState_consistent.
  - by apply UpdateUsedZones_consistent.
Qed.

(** In a reachable state, a call answered from the cache finds the
    snapshot, whenever the clock reading is later than the zero time plus
    the TTL (as the reading of a real clock is: the zero time of Go is in
    year 1 and a duration is shorter than 293 years). *)
Lemma cached_zone_is_stored zoneID σ (start : Time) :
  Reachable σ →
  After start (Add Time.zero (stateTTLGetter (shared σ) zoneID)) = true →
  After start (Add (lastUpdateEnd (windowOf (shared σ) zoneID))
                   (stateTTLGetter (shared σ) zoneID)) = false →
  ∃ data d, inMemory (shared σ) !! zoneID = Some data ∧
            heap σ !! dnssets data = Some d.
Proof.
  intros Hr Hsane Hfresh. destruct (Reachable_Consistent σ Hr) as [I1 I2].
  unfold windowOf in Hfresh.
  destruct (proxies (shared σ) !! zoneID) as [p|] eqn:Hp;
    cbn [default from_option id] in Hfresh.
  2:{ cbn [newProxy lastUpdateEnd] in Hfresh. congruence. }
  destruct (decide (lastUpdateEnd p = Time.zero)) as [Hz|Hnz].
  { rewrite Hz in Hfresh. congruence. }
  destruct (I2 zoneID p Hp Hnz) as [data Hdata].
  destruct (I1 zoneID data Hdata) as [d Hd]. eauto.
Qed.

(** C1. [GetZoneState] of the manager.  [start] is the clock reading taken
    by the call.  If [start] is not after [lastUpdateEnd + TTL(zoneID)],
    the call returns a clone of the stored snapshot (a new object with the
    content of the stored one), [wasCached = true], and changes neither the
    record store nor any refresh window, and the callback is not invoked;
    this is for a call in a reachable state and at a clock reading past the
    zero time plus the TTL, as every real clock reading is.  If [start] is
    after [lastUpdateEnd + TTL(zoneID)] and the callback succeeds, the
    snapshot returned by the callback is stored in the record store,
    [lastUpdateStart] is [start] (taken before the callback),
    [lastUpdateEnd] is the clock reading taken after the callback, and the
    call returns that same object (not a clone) with [wasCached =
    false]. *)
Theorem GetZoneState_cached_or_refreshed zone cache σ start w1 :
  clockNow (world σ) = (start, w1) →
  let deadline := Add (lastUpdateEnd (windowOf (shared σ) (Id zone)))
                      (stateTTLGetter (shared σ) (Id zone)) in
  (Reachable σ →
   After start (Add Time.zero (stateTTLGetter (shared σ) (Id zone))) = true →
   After start deadline = false →
   ∃ data d l σ',
     inMemory (shared σ) !! Id zone = Some data ∧
     heap σ !! dnssets data = Some d ∧
     GetZoneState zone cache σ = ((Some l, true, None), σ') ∧
     heap σ !! l = None ∧ l ≠ dnssets data ∧
     heap σ' !! l = Some d ∧
     heap σ' !! dnssets data = Some d ∧
     inMemory (shared σ') = inMemory (shared σ) ∧
     (∀ z, windowOf (shared σ') z = windowOf (shared σ) z) ∧
     trace σ' = trace σ)
  ∧
  (After start deadline = true →
   ∀ d w2 tend w3,
     stateUpdater cache zone w1 = (UpdateOk d, w2) →
     clockNow w2 = (tend, w3) →
     ∃ l σ', GetZoneState zone cache σ = ((Some l, false, None), σ') ∧
       heap σ !! l = None ∧
       heap σ' !! l = Some d ∧
       inMemory (shared σ') !! Id zone =
         Some {| zd_domain := Domain zone; zd_key := Key zone; dnssets := l |} ∧
       proxies (shared σ') !! Id zone =
         Some {| lastUpdateStart := start; lastUpdateEnd := tend |} ∧
       trace σ' = trace σ ++ [EvStateUpdater (self cache) zone]).
Proof.
  intros Hclock deadline. split.
  - intros Hreach Hsane Hfresh.
    destruct (cached_zone_is_stored (Id zone) σ start Hreach Hsane Hfresh)
      as (data & d & Hdata & Hd).
    exists data, d. eexists _, _.
    split; [exact Hdata|]. split; [exact Hd|].
    split; [by eapply GetZoneState_hit|].
    pose proof (fresh_loc_unused (heap σ)) as Hnew. sys_simpl.
    rewrite ensureProxy_heap, ensureProxy_inMemory, ensureProxy_trace.
    repeat split; auto using ensureProxy_window.
    + intros Heq. rewrite Heq in Hnew. congruence.
    + apply lookup_insert_eq.
    + rewrite lookup_insert_ne; [done|]. intros Heq. rewrite Heq in Hnew. congruence.
  - intros Hexp d w2 tend w3 Hcb Hclock2.
    destruct (GetZoneState_refresh_ok zone cache σ start w1 d w2 tend w3)
      as (σ' & Hrun & Hmem & Hheap & Hprox & _ & _ & _ & Htrace & _); auto.
    eexists _, σ'. split; [exact Hrun|].
    rewrite Hmem, Hheap, Hprox, Htrace. unfold Store.SetZone.
    rewrite !lookup_insert_eq. auto using fresh_loc_unused.
Qed.

(** ** Calls for one zone, one after the other *)



(** *** Backoff arithmetic *)

Lemma wrap64_small (n : Z) : is_int64 n → wrap64 n = n.
Proof.
  unfold is_int64, minInt64, maxInt64, wrap64. intros H.
  rewrite Z.mod_small; lia.
Qed.

Lemma nextBackoff_min c :
  (nextBackoff c).1 =
    Z.min (dadd (ddiv (dmul (backoffOnError c) 5) 4) (2 * Second))
          (ddiv (zonesTTL c) 4).
Proof.
  unfold nextBackoff. cbn [fst].
  change (dmul 2 Second) with (2 * Second).
  destruct (Z.ltb_spec (ddiv (zonesTTL c) 4)
              (dadd (ddiv (dmul (backoffOnError c) 5) 4) (2 * Second))); lia.
Qed.

Lemma nextBackoff_backoff c : backoffOnError (nextBackoff c).2 = (nextBackoff c).1.
Proof. reflexivity. Qed.

Lemma nextBackoff_zonesTTL c : zonesTTL (nextBackoff c).2 = zonesTTL c.
Proof. reflexivity. Qed.

Lemma afterFailures_zonesTTL n c : zonesTTL (afterFailures n c) = zonesTTL c.
Proof. induction n; simpl; [done|]. by rewrite IHn. Qed.

(** Without overflow the step is the one of unbounded integers. *)
Lemma nextBackoff_exact c :
  0 ≤ zonesTTL c →
  Z.quot (zonesTTL c) 4 ≤ Z.quot maxInt64 5 →
  0 ≤ backoffOnError c ≤ Z.quot (zonesTTL c) 4 →
  (nextBackoff c).1 =
    Z.min (Z.quot (backoffOnError c * 5) 4 + 2 * Second) (Z.quot (zonesTTL c) 4).
Proof.
  intros Hpos Hcap Hb. rewrite nextBackoff_min.
  assert (Hq : Z.quot maxInt64 5 = 1844674407370955161) by reflexivity.
  rewrite Hq in Hcap. unfold Second.
  assert (Hq1 : 0 ≤ Z.quot (backoffOnError c * 5) 4 ∧
                4 * Z.quot (backoffOnError c * 5) 4 ≤ backoffOnError c * 5)
    by (Z.to_euclidean_division_equations; lia).
  unfold dmul, ddiv, dadd.
  rewrite (wrap64_small (backoffOnError c * 5))
    by (unfold is_int64, minInt64, maxInt64; lia).
  rewrite (wrap64_small (Z.quot (backoffOnError c * 5) 4))
    by (unfold is_int64, minInt64, maxInt64; lia).
  rewrite (wrap64_small (Z.quot (backoffOnError c * 5) 4 + _))
    by (unfold is_int64, minInt64, maxInt64; lia).
  rewrite (wrap64_small (Z.quot (zonesTTL c) 4))
    by (unfold is_int64, minInt64, maxInt64; lia).
  reflexivity.
Qed.

Section Backoff.
Variable c : defaultZoneCache.
Hypothesis Hpos : 0 ≤ zonesTTL c.
Hypothesis Hcap : Z.quot (zonesTTL c) 4 ≤ Z.quot maxInt64 5.

Let cap : Z := Z.quot (zonesTTL c) 4.

Lemma ddiv_cap : ddiv (zonesTTL c) 4 = cap.
Proof.
  assert (Hq : Z.quot maxInt64 5 = 1844674407370955161) by reflexivity.
  rewrite Hq in Hcap. unfold ddiv. apply wrap64_small.
  unfold is_int64, minInt64, maxInt64, cap.
  assert (0 ≤ Z.quot (zonesTTL c) 4) by (Z.to_euclidean_division_equations; lia).
  lia.
Qed.

Lemma backoff_step c' :
  zonesTTL c' = zonesTTL c →
  0 ≤ backoffOnError c' ≤ cap →
  0 ≤ (nextBackoff c').1 ≤ cap ∧
  (backoffOnError c' < cap → backoffOnError c' < (nextBackoff c').1) ∧
  (backoffOnError c' = cap → (nextBackoff c').1 = cap) ∧
  cap - (nextBackoff c').1 ≤ Z.max 0 (cap - backoffOnError c' - 2 * Second).
Proof.
  intros Httl Hb. unfold cap in *.
  rewrite nextBackoff_exact by (rewrite ?Httl; done).
  rewrite Httl. unfold Second.
  assert (Hq1 : backoffOnError c' ≤ Z.quot (backoffOnError c' * 5) 4)
    by (Z.to_euclidean_division_equations; lia).
  lia.
Qed.

Lemma backoffSeq_S n :
  backoffSeq c (S n) = (nextBackoff (afterFailures n (clearBackoff c))).1.
Proof. reflexivity. Qed.

Lemma backoffSeq_bounds n : 0 ≤ backoffSeq c n ≤ cap.
Proof.
  induction n as [|n IH].
  - unfold backoffSeq. simpl. unfold cap.
    split; [done|]. Z.to_euclidean_division_equations; lia.
  - rewrite backoffSeq_S. apply backoff_step; [|exact IH].
    by rewrite afterFailures_zonesTTL.
Qed.

Lemma backoffSeq_step n :
  (backoffSeq c n < cap → backoffSeq c n < backoffSeq c (S n)) ∧
  (backoffSeq c n = cap → backoffSeq c (S n) = cap) ∧
  cap - backoffSeq c (S n) ≤ Z.max 0 (cap - backoffSeq c n - 2 * Second).
Proof.
  rewrite backoffSeq_S.
  apply (backoff_step (afterFailures n (clearBackoff c))).
  - by rewrite afterFailures_zonesTTL.
  - apply backoffSeq_bounds.
Qed.

Lemma backoffSeq_stays n m :
  backoffSeq c n = cap → (n ≤ m)%nat → backoffSeq c m = cap.
Proof.
  intros Hn Hle. induction Hle as [|m Hle IH]; [done|].
  by apply backoffSeq_step.
Qed.

Lemma backoffSeq_reaches (k n : nat) :
  (1 ≤ n)%nat →
  cap - backoffSeq c n ≤ 2 * Second * Z.of_nat k →
  (∀ m, (1 ≤ m)%nat → (m < n)%nat → backoffSeq c m < backoffSeq c (S m)) →
  IncreasingThenCapped c.
Proof.
  revert n. induction k as [|k IH]; intros n Hn Hdist Hinc.
  - exists n. split; [done|]. split; [done|].
    intros m Hm. rewrite ddiv_cap. apply (backoffSeq_stays n); [|done].
    pose proof (backoffSeq_bounds n). lia.
  - destruct (decide (backoffSeq c n = cap)) as [Heq|Hne].
    + exists n. split; [done|]. split; [done|].
      intros m Hm. rewrite ddiv_cap. by apply (backoffSeq_stays n).
    + pose proof (backoffSeq_bounds n) as Hb.
      destruct (backoffSeq_step n) as (Hlt & _ & Hd).
      apply (IH (S n)); [lia| unfold Second in *; lia |].
      intros m Hm1 Hm2. destruct (decide (m = n)) as [->|Hmn].
      * apply Hlt. lia.
      * apply Hinc; lia.
Qed.

Lemma backoff_increasing_then_capped : IncreasingThenCapped c.
Proof.
  apply (backoffSeq_reaches (Z.to_nat (cap / (2 * Second)) + 1) 1); [done| |intros; lia].
  pose proof (backoffSeq_bounds 1) as Hb.
  assert (0 ≤ cap) by (pose proof (backoffSeq_bounds 0); lia).
  change (2 * Second) with 2000000000 in *.
  rewrite Nat2Z.inj_add, Z2Nat.id by (apply Z.div_pos; lia).
  clear Hcap. clearbody cap. Z.to_euclidean_division_equations. lia.
Qed.

End Backoff.

(** C6 (amended).  A refresh of [GetZones] that fails sets the backoff to
    [min(previousBackoff * 5/4 + 2s, zonesTTL/4)], computed in 64-bit
    arithmetic, and the deadline to the clock reading taken after the call
    plus that backoff; a refresh that succeeds resets the backoff to zero
    and sets the deadline to that reading plus [zonesTTL].  When
    [zonesTTL] is not negative and [zonesTTL/4] is at most [maxInt64/5]
    (no overflow), the formula is the one of unbounded integers, and the
    backoffs of consecutive failures, starting from a zero backoff, are
    strictly increasing until they reach the cap [zonesTTL/4], where they
    stay. *)
Theorem GetZones_backoff_policy c σ t w1 zs e w2 tu w3 :
  clockNow (world σ) = (t, w1) →
  After t (zonesNext c) = true →
  zonesUpdater c w1 = ((zs, e), w2) →
  clockNow w2 = (tu, w3) →
  ∃ c' σ', GetZones c σ = ((c', (zs, e)), σ') ∧
    (is_Some e →
       backoffOnError c' =
         Z.min (dadd (ddiv (dmul (backoffOnError c) 5) 4) (2 * Second))
               (ddiv (zonesTTL c) 4) ∧
       backoffOnError c' = backoffOnError (nextBackoff c).2 ∧
       zonesNext c' = Add tu (backoffOnError c')) ∧
    (e = None →
       backoffOnError c' = 0 ∧ zonesNext c' = Add tu (zonesTTL c)) ∧
    (0 ≤ zonesTTL c →
     Z.quot (zonesTTL c) 4 ≤ Z.quot maxInt64 5 →
       (is_Some e → 0 ≤ backoffOnError c ≤ Z.quot (zonesTTL c) 4 →
          backoffOnError c' =
            Z.min (Z.quot (backoffOnError c * 5) 4 + 2 * Second)
                  (Z.quot (zonesTTL c) 4)) ∧
       IncreasingThenCapped c).
Proof.
  intros Hclock Hexp Hcb Hclock2.
  destruct (GetZones_refresh c σ t w1 zs e w2 tu w3)
    as (c' & σ' & Hrun & _ & _ & _ & _ & Hb & Hn & _); auto.
  exists c', σ'. split; [exact Hrun|].
  split; [|split].
  - intros [err ->]. rewrite Hn, Hb, nextBackoff_backoff, nextBackoff_min. done.
  - intros ->. done.
  - intros Hpos Hcap. split; [|by apply backoff_increasing_then_capped].
    intros [err ->] Hrange. rewrite Hb. by apply nextBackoff_exact.
Qed.

(** * More properties of the code *)

(** ** The sorted usage fingerprint: [toSortedZoneIDs] *)

Lemma ascii_compare_lt_trans (a b c : Ascii.ascii) :
  Ascii.compare a b = Lt → Ascii.compare b c = Lt → Ascii.compare a c = Lt.
Proof.
  unfold Ascii.compare. rewrite !N.compare_lt_iff. apply N.lt_trans.
Qed.

Lemma string_compare_lt_trans (a b c : string) :
  String.compare a b = Lt → String.compare b c = Lt → String.compare a c = Lt.
Proof.
  revert b c. induction a as [|x a IH]; intros [|y b] [|z' c]; simpl; try done.
  destruct (Ascii.compare x y) eqn:Hxy; [|intros _|done].
  - apply Ascii.compare_eq_iff in Hxy as ->.
    destruct (Ascii.compare y z'); [apply IH|done|done].
  - destruct (Ascii.compare y z') eqn:Hyz; [|intros _|done].
    + apply Ascii.compare_eq_iff in Hyz as <-. by rewrite Hxy.
    + by rewrite (ascii_compare_lt_trans x y z').
Qed.

Lemma string_compare_refl (a : string) : String.compare a a = Eq.
Proof.
  pose proof (String.compare_antisym a a) as H.
  destruct (String.compare a a); simpl in H; congruence.
Qed.

Lemma string_compare_gt_lt (a b : string) :
  String.compare a b = Gt ↔ String.compare b a = Lt.
Proof.
  rewrite (String.compare_antisym a b).
  destruct (String.compare b a); simpl; split; congruence.
Qed.

Lemma zoneid_less_trans a b c :
  zoneid_less a b = true → zoneid_less b c = true → zoneid_less a c = true.
Proof.
  destruct a as [pa ia], b as [pb ib], c as [pc ic]. unfold zoneid_less. simpl.
  destruct (String.compare pa pb) eqn:Hab; try done.
  - apply String.compare_eq_iff in Hab as ->.
    destruct (String.compare ia ib) eqn:Hiab; try done. intros _.
    destruct (String.compare pb pc) eqn:Hbc; try done.
    destruct (String.compare ib ic) eqn:Hibc; try done. intros _.
    by rewrite (string_compare_lt_trans ia ib ic).
  - intros _. destruct (String.compare pb pc) eqn:Hbc; try done.
    + apply String.compare_eq_iff in Hbc as <-. by rewrite Hab.
    + by rewrite (string_compare_lt_trans pa pb pc).
Qed.

Lemma zoneid_less_asym a b : zoneid_less a b = true → zoneid_less b a = false.
Proof.
  destruct a as [pa ia], b as [pb ib]. unfold zoneid_less. simpl.
  rewrite (String.compare_antisym pb pa), (String.compare_antisym ib ia).
  destruct (String.compare pa pb), (String.compare ia ib); simpl; done.
Qed.

Lemma zoneid_less_total a b :
  zoneid_less a b = false → zoneid_less b a = false → a = b.
Proof.
  destruct a as [pa ia], b as [pb ib]. unfold zoneid_less. simpl.
  rewrite (String.compare_antisym pb pa), (String.compare_antisym ib ia).
  destruct (String.compare pa pb) eqn:Hp, (String.compare ia ib) eqn:Hi;
    simpl; try done.
  apply String.compare_eq_iff in Hp, Hi. by subst.
Qed.

#[local] Instance zoneid_le_trans : Transitive zoneid_le.
Proof.
  intros a b c Hab Hbc. unfold zoneid_le in *.
  destruct (zoneid_less c a) eqn:Hca; [|done].
  destruct (zoneid_less b a) eqn:Hba; [done|].
  destruct (zoneid_less a b) eqn:Hab'.
  - by rewrite (zoneid_less_trans c a b) in Hbc.
  - rewrite (zoneid_less_total a b) in Hca by done. congruence.
Qed.

#[local] Instance zoneid_le_antisym : AntiSymm (=) zoneid_le.
Proof. intros a b Hab Hba. by apply zoneid_less_total. Qed.

Lemma insert_sorted_Permutation x l : insert_sorted x l ≡ₚ x :: l.
Proof.
  induction l as [|y l IH]; simpl; [done|].
  destruct (zoneid_less y x); [|done].
  rewrite IH. apply Permutation_swap.
Qed.

Lemma insert_sorted_Sorted x l :
  Sorted zoneid_le l → Sorted zoneid_le (insert_sorted x l).
Proof.
  induction l as [|y l IH]; intros Hs; simpl.
  - by repeat constructor.
  - destruct (zoneid_less y x) eqn:Hyx.
    + apply Sorted_inv in Hs as [Hs Hhd]. constructor; [by apply IH|].
      destruct l as [|y' l]; simpl.
      * constructor. by apply zoneid_less_asym.
      * apply HdRel_inv in Hhd. destruct (zoneid_less y' x); constructor; [done|].
        by apply zoneid_less_asym.
    + constructor; [done|]. by constructor.
Qed.

Lemma sort_zoneids_Permutation l : sort_zoneids l ≡ₚ l.
Proof.
  induction l as [|x l IH]; simpl; [done|].
  unfold sort_zoneids in *. simpl. by rewrite insert_sorted_Permutation, IH.
Qed.

Lemma sort_zoneids_Sorted l : Sorted zoneid_le (sort_zoneids l).
Proof.
  induction l as [|x l IH]; simpl; [constructor|].
  unfold sort_zoneids in *. simpl. by apply insert_sorted_Sorted.
Qed.

Lemma toSortedZoneIDs_sort zs : toSortedZoneIDs zs = sort_zoneids (Id <$> zs).
Proof. by destruct zs. Qed.

(** X1. [toSortedZoneIDs] returns the ids of the given zones, each as often
    as it occurs among the zones, in the order of the comparison
    (provider type first, then id); for no zones it returns the empty
    list. *)
Theorem toSortedZoneIDs_sorted_permutation zs :
  toSortedZoneIDs zs ≡ₚ Id <$> zs ∧
  Sorted zoneid_le (toSortedZoneIDs zs) ∧
  (toSortedZoneIDs zs = [] ↔ zs = []).
Proof.
  rewrite toSortedZoneIDs_sort. split; [apply sort_zoneids_Permutation|].
  split; [apply sort_zoneids_Sorted|]. split.
  - intros Hnil. pose proof (sort_zoneids_Permutation (Id <$> zs)) as Hp.
    rewrite Hnil in Hp. apply Permutation_nil_l in Hp.
    by destruct zs.
  - by intros ->.
Qed.

Lemma toSortedZoneIDs_perm_eq zs1 zs2 :
  Id <$> zs1 ≡ₚ Id <$> zs2 → toSortedZoneIDs zs1 = toSortedZoneIDs zs2.
Proof.
  intros Hp. rewrite !toSortedZoneIDs_sort.
  apply (Sorted_unique zoneid_le); [apply sort_zoneids_Sorted..|].
  by rewrite !sort_zoneids_Permutation.
Qed.

(** X2. The fingerprint is canonical: two zone lists with the same ids, in
    any order, have the same sorted id list; and the sorted id list of a
    zone list is the only sorted arrangement of its ids. *)
Theorem toSortedZoneIDs_canonical zs1 zs2 :
  (Id <$> zs1 ≡ₚ Id <$> zs2 → toSortedZoneIDs zs1 = toSortedZoneIDs zs2) ∧
  (∀ ids, ids ≡ₚ Id <$> zs1 → Sorted zoneid_le ids → ids = toSortedZoneIDs zs1).
Proof.
  split; [apply toSortedZoneIDs_perm_eq|].
  intros ids Hp Hs. rewrite toSortedZoneIDs_sort.
  apply (Sorted_unique zoneid_le); [done|apply sort_zoneids_Sorted|].
  by rewrite sort_zoneids_Permutation.
Qed.

(** ** The usage set reported by [GetZones] *)

Lemma UpdateUsedZones_usedBy cache zoneids σ σ' :
  UpdateUsedZones cache zoneids σ = (tt, σ') →
  usedBy (shared σ') cache = zoneids ∧
  (∀ other, other ≠ cache → usedBy (shared σ') other = usedBy (shared σ) other).
Proof.
  intros Hrun.
  destruct (UpdateUsedZones_run cache zoneids σ)
    as (σ'' & Hrun' & _ & _ & _ & _ & Hsame & Hdiff).
  rewrite Hrun in Hrun'. injection Hrun' as <-.
  destruct (decide (usedBy (shared σ) cache = zoneids)) as [Heq|Hne].
  - rewrite (Hsame Heq). done.
  - destruct (Hdiff Hne) as [Hused _]. unfold usedBy. rewrite Hused.
    destruct zoneids as [|z zoneids].
    + split; [by rewrite lookup_delete_eq|].
      intros other Ho. by rewrite lookup_delete_ne.
    + split; [by rewrite lookup_insert_eq|].
      intros other Ho. by rewrite lookup_insert_ne.
Qed.

Lemma UpdateUsedZones_keeps_listed cache zoneids σ σ' z :
  UpdateUsedZones cache zoneids σ = (tt, σ') →
  z ∈ zoneids →
  inMemory (shared σ') !! z = inMemory (shared σ) !! z ∧
  forwardedOf (shared σ') z = forwardedOf (shared σ) z ∧
  proxies (shared σ') !! z = proxies (shared σ) !! z.
Proof.
  intros Hrun Hz.
  destruct (UpdateUsedZones_run cache zoneids σ)
    as (σ'' & Hrun' & _ & _ & _ & _ & Hsame & Hdiff).
  rewrite Hrun in Hrun'. injection Hrun' as <-.
  destruct (decide (usedBy (shared σ) cache = zoneids)) as [Heq|Hne].
  - rewrite (Hsame Heq). done.
  - destruct (Hdiff Hne) as [Hused Hz']. apply Hz'.
    exists cache, zoneids. split; [|done]. rewrite Hused.
    destruct zoneids; [by apply elem_of_nil in Hz|]. by rewrite lookup_insert_eq.
Qed.

(** X3. A refresh of [GetZones] records the sorted ids of the listed zones
    as the usage set of the consumer and leaves the usage sets of the other
    consumers as they are; the cached state of the listed zones (snapshot,
    forwarded domains, proxy) is kept; and when the recorded usage set is
    already the sorted id list of a listing with the same ids, in any
    order, the shared manager is not changed at all. *)
Theorem GetZones_refresh_records_usage c σ t w1 zs e w2 tu w3 :
  clockNow (world σ) = (t, w1) →
  After t (zonesNext c) = true →
  zonesUpdater c w1 = ((zs, e), w2) →
  clockNow w2 = (tu, w3) →
  ∃ c' σ', GetZones c σ = ((c', (zs, e)), σ') ∧
    usedBy (shared σ') (self c) = toSortedZoneIDs zs ∧
    (∀ other, other ≠ self c →
       usedBy (shared σ') other = usedBy (shared σ) other) ∧
    (∀ z, z ∈ Id <$> zs →
       inMemory (shared σ') !! z = inMemory (shared σ) !! z ∧
       forwardedOf (shared σ') z = forwardedOf (shared σ) z ∧
       proxies (shared σ') !! z = proxies (shared σ) !! z) ∧
    (∀ zs0, usedBy (shared σ) (self c) = toSortedZoneIDs zs0 →
       Id <$> zs0 ≡ₚ Id <$> zs → shared σ' = shared σ).
Proof.
  intros Hclock Hafter Hupd Hclock2.
  destruct (GetZones_refresh c σ t w1 zs e w2 tu w3 Hclock Hafter Hupd Hclock2)
    as (c' & σ' & Hrun & _ & _ & _ & _ & _ & _ & Hused & _).
  exists c', σ'. split; [done|].
  destruct (UpdateUsedZones_usedBy _ _ _ _ Hused) as [Hself Hother].
  split; [done|]. split; [done|]. split.
  - intros z Hz.
    apply (UpdateUsedZones_keeps_listed _ _ _ _ z) in Hused; [done|].
    rewrite toSortedZoneIDs_sort. by rewrite sort_zoneids_Permutation.
  - intros zs0 Hold Hperm.
    destruct (UpdateUsedZones_run (self c) (toSortedZoneIDs zs)
                (set_world w3 (upd_trace (fun tr => tr ++ [EvZonesUpdater (self c)])
                                 (set_world w1 σ))))
      as (σ'' & Hrun' & _ & _ & _ & _ & Hsame & _).
    rewrite Hused in Hrun'. injection Hrun' as <-.
    rewrite Hsame; [done|]. sys_simpl. rewrite Hold.
    by apply toSortedZoneIDs_perm_eq.
Qed.

(** X4. A refresh of [GetZones] whose listing has no zones (a failed
    listing returns none) releases the usage of the consumer: its recorded
    usage set becomes empty, and every zone it used that no other consumer
    uses loses its snapshot and its proxy. *)
Theorem GetZones_empty_listing_releases c σ t w1 e w2 tu w3 :
  clockNow (world σ) = (t, w1) →
  After t (zonesNext c) = true →
  zonesUpdater c w1 = (([], e), w2) →
  clockNow w2 = (tu, w3) →
  ∃ c' σ', GetZones c σ = ((c', ([], e)), σ') ∧
    usedBy (shared σ') (self c) = [] ∧
    ∀ z, z ∈ usedBy (shared σ) (self c) →
      (∀ other ids, other ≠ self c →
         usedZones (shared σ) !! other = Some ids → z ∉ ids) →
      inMemory (shared σ') !! z = None ∧ proxies (shared σ') !! z = None.
Proof.
  intros Hclock Hafter Hupd Hclock2.
  destruct (GetZones_refresh c σ t w1 [] e w2 tu w3 Hclock Hafter Hupd Hclock2)
    as (c' & σ' & Hrun & _ & _ & _ & _ & _ & _ & Hused & _).
  exists c', σ'. split; [done|].
  destruct (UpdateUsedZones_usedBy _ _ _ _ Hused) as [Hself _].
  split; [done|]. intros z Hz Hothers.
  destruct (UpdateUsedZones_run (self c) (toSortedZoneIDs [])
              (set_world w3 (upd_trace (fun tr => tr ++ [EvZonesUpdater (self c)])
                               (set_world w1 σ))))
    as (σ'' & Hrun' & _ & _ & _ & _ & _ & Hdiff).
  rewrite Hused in Hrun'. injection Hrun' as <-.
  sys_simpl. destruct Hdiff as [Hmap Hz'].
  { intros Heq. rewrite Heq in Hz. by apply elem_of_nil in Hz. }
  simpl in Hmap. destruct (Hz' z) as [_ Hnot].
  destruct Hnot as (Hm & Hp & _); [|done].
  intros (other & ids & Hlook & Hin). rewrite Hmap in Hlook.
  apply lookup_delete_Some in Hlook as [Hne Hlook].
  by eapply Hothers.
Qed.

(** ** Calls of [GetZones], one after the other *)

Lemma getZonesTimes_hits n c σ :
  readingsWithin n (zonesNext c) (world σ) →
  ∃ σ', getZonesTimes n c σ = ((c, replicate n (zones c, zonesErr c)), σ') ∧
    shared σ' = shared σ ∧ heap σ' = heap σ ∧
    trace σ' =
      trace σ ++ replicate n (EvAddGenericRequests (self c) M_CACHED_GETZONES 1).
Proof.
  revert σ. induction n as [|n IH]; intros σ Hwithin.
  - simpl. eexists. split; [reflexivity|]. by rewrite app_nil_r.
  - cbn [readingsWithin] in Hwithin.
    destruct (clockNow (world σ)) as [t w1] eqn:Hclock.
    destruct Hwithin as [Hfresh Hwithin].
    cbn [getZonesTimes]. unfold bind at 1.
    rewrite (GetZones_hit c σ t w1) by done. cbv beta iota. unfold bind at 1.
    match goal with |- context [getZonesTimes n _ ?s] =>
      destruct (IH s) as (σ' & Hrun & Hsh & Hh & Htr)
    end; [done|].
    cbn [fst snd]. rewrite Hrun. eexists. split; [reflexivity|].
    rewrite Hsh, Hh, Htr. sys_simpl. by rewrite <- app_assoc.
Qed.

(** X9. After a refresh of [GetZones], the calls whose clock readings are
    not after the new deadline (update time plus [zonesTTL] after a
    success, update time plus the backoff after a failure) return the
    result of the refresh, the error included, without invoking the zones
    updater: over the whole series the updater runs once and each later
    call counts one cache hit. *)
Theorem GetZones_cached_until_deadline c σ t w1 zs e w2 tu w3 n :
  clockNow (world σ) = (t, w1) →
  After t (zonesNext c) = true →
  zonesUpdater c w1 = ((zs, e), w2) →
  clockNow w2 = (tu, w3) →
  readingsWithin n
    (Add tu match e with Some _ => (nextBackoff c).1 | None => zonesTTL c end) w3 →
  ∃ c' σ', getZonesTimes (S n) c σ = ((c', replicate (S n) (zs, e)), σ') ∧
    trace σ' =
      trace σ ++ EvZonesUpdater (self c) ::
        replicate n (EvAddGenericRequests (self c) M_CACHED_GETZONES 1).
Proof.
  intros Hclock Hafter Hupd Hclock2 Hwithin.
  destruct (GetZones_refresh c σ t w1 zs e w2 tu w3 Hclock Hafter Hupd Hclock2)
    as (c' & σ1 & Hrun & Hzs & He & Hself & _ & _ & Hnext & _ & _ & Hw & Htr).
  destruct (getZonesTimes_hits n c' σ1) as (σ' & Hrun' & _ & _ & Htr').
  { by rewrite Hnext, Hw. }
  exists c', σ'. split.
  - cbn [getZonesTimes]. unfold bind at 1. rewrite Hrun. cbv beta iota.
    unfold bind at 1. cbn [fst snd]. rewrite Hrun'. cbn [fst snd ret].
    by rewrite Hzs, He.
  - rewrite Htr', Htr, Hself, <- app_assoc. done.
Qed.

(** ** Operations on one zone leave the other zones alone *)

Lemma OtherZonesKept_ensureProxy zoneID σ : OtherZonesKept zoneID σ (ensureProxy zoneID σ).
Proof.
  unfold OtherZonesKept, forwardedOf.
  rewrite ensureProxy_inMemory, ensureProxy_forwarded, ensureProxy_usedZones,
    ensureProxy_ttl.
  split; [|done]. intros z Hz. split; [done|]. split; [done|].
  unfold ensureProxy. destruct (proxies (shared σ) !! zoneID); [done|].
  sys_simpl. by rewrite lookup_insert_ne.
Qed.

Lemma OtherZonesKept_intro zoneID σ σ' :
  (inMemory (shared σ') = inMemory (shared σ) ∨
   inMemory (shared σ') = delete zoneID (inMemory (shared σ)) ∨
   ∃ data, inMemory (shared σ') = <[zoneID := data]> (inMemory (shared σ))) →
  (forwardedDomainsCache (shared σ') = forwardedDomainsCache (shared σ) ∨
   forwardedDomainsCache (shared σ') =
     delete zoneID <$> forwardedDomainsCache (shared σ)) →
  (proxies (shared σ') = proxies (shared σ) ∨
   ∃ p, proxies (shared σ') = <[zoneID := p]> (proxies (shared σ))) →
  usedZones (shared σ') = usedZones (shared σ) →
  stateTTLGetter (shared σ') = stateTTLGetter (shared σ) →
  OtherZonesKept zoneID σ σ'.
Proof.
  intros Hm Hfd Hp Hu Ht. split; [|done]. intros z Hz. repeat split.
  - destruct Hm as [->|[->|[data ->]]]; [done| |].
    + by rewrite lookup_delete_ne.
    + by rewrite lookup_insert_ne.
  - unfold forwardedOf. destruct Hfd as [->| ->]; [done|].
    destruct (forwardedDomainsCache (shared σ)) as [hd|]; [|done].
    simpl. unfold FDC.Get. by rewrite lookup_delete_ne.
  - destruct Hp as [->|[p ->]]; [done|]. by rewrite lookup_insert_ne.
Qed.

Lemma heap_alloc_kept (h : gmap loc DNSSets) (d : DNSSets) l x :
  h !! l = Some x → <[fresh (dom h) := d]> h !! l = Some x.
Proof.
  intros Hl. rewrite lookup_insert_ne; [done|].
  intros Heq. pose proof (fresh_loc_unused h) as Hnew.
  rewrite Heq in Hnew. congruence.
Qed.

Lemma GetZoneState_cached_branch zone cache σ start w1 :
  clockNow (world σ) = (start, w1) →
  After start (Add (lastUpdateEnd (windowOf (shared σ) (Id zone)))
                   (stateTTLGetter (shared σ) (Id zone))) = false →
  ∃ state err σ', GetZoneState zone cache σ = ((state, true, err), σ') ∧
    shared σ' = shared (ensureProxy (Id zone) σ) ∧
    world σ' = w1 ∧ trace σ' = trace σ ∧
    (∀ l x, heap σ !! l = Some x → heap σ' !! l = Some x).
Proof.
  intros Hclock Hfresh.
  unfold GetZoneState, bind. rewrite getProxy_run.
  unfold Now. rewrite ensureProxy_world, Hclock. unfold readProxy. sys_simpl.
  rewrite ensureProxy_lookup, ensureProxy_ttl. sys_simpl. rewrite Hfresh.
  unfold CloneZoneState, bind. sys_simpl. rewrite ensureProxy_inMemory.
  destruct (inMemory (shared σ) !! Id zone) as [data|]; sys_simpl.
  2:{ eexists _, _, _. split; [reflexivity|]. sys_simpl.
      rewrite ensureProxy_trace, ensureProxy_heap. done. }
  rewrite ensureProxy_heap.
  destruct (heap σ !! dnssets data) as [d|]; sys_simpl.
  2:{ eexists _, _, _. split; [reflexivity|]. sys_simpl.
      rewrite ensureProxy_trace, ensureProxy_heap. done. }
  unfold alloc. sys_simpl. eexists _, _, _. split; [reflexivity|]. sys_simpl.
  rewrite ensureProxy_trace, ensureProxy_heap.
  repeat split. intros l x. apply heap_alloc_kept.
Qed.

Lemma GetZoneState_refresh_err_heap zone cache σ start w1 st err w2 :
  clockNow (world σ) = (start, w1) →
  After start (Add (lastUpdateEnd (windowOf (shared σ) (Id zone)))
                   (stateTTLGetter (shared σ) (Id zone))) = true →
  stateUpdater cache zone w1 = (UpdateErr st err, w2) →
  ∀ l x, heap σ !! l = Some x → heap (exec (GetZoneState zone cache) σ) !! l = Some x.
Proof.
  intros Hclock Hexp Hcb l x Hl.
  unfold exec, GetZoneState, bind. rewrite getProxy_run.
  unfold Now. rewrite ensureProxy_world, Hclock. unfold readProxy. sys_simpl.
  rewrite ensureProxy_lookup, ensureProxy_ttl. sys_simpl. rewrite Hexp.
  unfold call_stateUpdater, bind, emit. sys_simpl. rewrite Hcb.
  destruct st as [d|]; unfold alloc, cleanZoneState, bind, writeProxy, DeleteZone;
    sys_simpl; rewrite ?ensureProxy_heap; [by apply heap_alloc_kept|done].
Qed.

Lemma GetZoneState_frame zone cache σ :
  ∃ r σ', GetZoneState zone cache σ = (r, σ') ∧
    OtherZonesKept (Id zone) σ σ' ∧
    (∀ l x, heap σ !! l = Some x → heap σ' !! l = Some x) ∧
    (r.2 = None →
       forwardedDomainsCache (shared σ') = forwardedDomainsCache (shared σ)).
Proof.
  destruct (clockNow (world σ)) as [start w1] eqn:Hclock.
  destruct (After start (Add (lastUpdateEnd (windowOf (shared σ) (Id zone)))
                             (stateTTLGetter (shared σ) (Id zone)))) eqn:Hexp.
  - destruct (stateUpdater cache zone w1) as [[d|st err] w2] eqn:Hcb.
    + destruct (clockNow w2) as [tend w3] eqn:Hclock2.
      destruct (GetZoneState_refresh_ok zone cache σ start w1 d w2 tend w3)
        as (σ' & Hrun & Hm & Hh & Hp & Hfd & Hu & _ & _ & Ht); try done.
      eexists _, σ'. split; [exact Hrun|]. split; [|split; [|done]].
      * apply OtherZonesKept_intro; eauto.
      * intros l x. rewrite Hh. apply heap_alloc_kept.
    + pose proof (GetZoneState_refresh_err_heap zone cache σ start w1 st err w2
                    Hclock Hexp Hcb) as Hheap.
      destruct (GetZoneState_refresh_err zone cache σ start w1 st err w2)
        as (state & σ' & Hrun & Hm & Hfd & Hp & Hu & Ht & _); try done.
      unfold exec in Hheap. rewrite Hrun in Hheap.
      eexists _, σ'. split; [exact Hrun|]. split; [|split; [done|done]].
      apply OtherZonesKept_intro; eauto.
  - destruct (GetZoneState_cached_branch zone cache σ start w1 Hclock Hexp)
      as (state & err & σ' & Hrun & Hs & _ & _ & Hheap).
    eexists _, σ'. split; [exact Hrun|]. split; [|split; [done|]].
    + destruct (OtherZonesKept_ensureProxy (Id zone) σ) as (Hz & Hu & Ht).
      unfold OtherZonesKept. by rewrite Hs.
    + intros _. by rewrite Hs, ensureProxy_forwarded.
Qed.

(** X12. A call of [GetZoneState] for a zone touches the cached state of
    that zone only: the snapshots, forwarded domains and proxies of all
    other zones, the usage sets and the TTL getter are as before; no
    snapshot object that existed before the call is changed; and when the
    call returns without error the forwarded domains of the zone itself
    are kept as well. *)
Theorem GetZoneState_touches_one_zone zone cache σ :
  ∃ r σ', GetZoneState zone cache σ = (r, σ') ∧
    (∀ z, z ≠ Id zone →
       inMemory (shared σ') !! z = inMemory (shared σ) !! z ∧
       forwardedOf (shared σ') z = forwardedOf (shared σ) z ∧
       proxies (shared σ') !! z = proxies (shared σ) !! z) ∧
    usedZones (shared σ') = usedZones (shared σ) ∧
    stateTTLGetter (shared σ') = stateTTLGetter (shared σ) ∧
    (∀ l x, heap σ !! l = Some x → heap σ' !! l = Some x) ∧
    (r.2 = None → ∀ z, forwardedOf (shared σ') z = forwardedOf (shared σ) z).
Proof.
  destruct (GetZoneState_frame zone cache σ)
    as (r & σ' & Hrun & (Hz & Hu & Ht) & Hh & Hfd).
  exists r, σ'. repeat split; try done; try apply Hz; try done.
  intros Hr z. unfold forwardedOf. by rewrite (Hfd Hr).
Qed.

(** X6. Every call of [defaultZoneCache.GetZoneState] is accounted for by
    exactly one event: a call at a clock reading after the deadline of the
    zone invokes the state updater once and counts no cache hit; any other
    call counts one cache hit for the zone and invokes no updater, also
    when the record store has no snapshot to clone. *)
Theorem CacheGetZoneState_hit_or_fetch c zone σ start w1 :
  clockNow (world σ) = (start, w1) →
  ∃ r σ', CacheGetZoneState c zone σ = (r, σ') ∧
    trace σ' = trace σ ++
      [if After start (Add (lastUpdateEnd (windowOf (shared σ) (Id zone)))
                           (stateTTLGetter (shared σ) (Id zone)))
       then EvStateUpdater (self c) zone
       else EvAddZoneRequests (self c) (ID (Id zone)) M_CACHED_GETZONESTATE 1].
Proof.
  intros Hclock. unfold CacheGetZoneState, bind.
  destruct (After start _) eqn:Hexp.
  - destruct (stateUpdater c zone w1) as [[d|st err] w2] eqn:Hcb.
    + destruct (clockNow w2) as [tend w3] eqn:Hclock2.
      destruct (GetZoneState_refresh_ok zone c σ start w1 d w2 tend w3)
        as (σ' & Hrun & _ & _ & _ & _ & _ & _ & Htr & _); try done.
      rewrite Hrun. sys_simpl. by eexists _, _.
    + destruct (GetZoneState_refresh_err zone c σ start w1 st err w2)
        as (state & σ' & Hrun & _ & _ & _ & _ & _ & _ & Htr & _); try done.
      rewrite Hrun. sys_simpl. by eexists _, _.
  - destruct (GetZoneState_cached_branch zone c σ start w1 Hclock Hexp)
      as (state & err & σ' & Hrun & _ & _ & Htr & _).
    rewrite Hrun. unfold emit. sys_simpl. eexists _, _. split; [reflexivity|].
    sys_simpl. by rewrite Htr.
Qed.

(** ** Invalidations: what they touch and what follows them *)

Lemma GetZoneState_refetch zone cache σ t w' :
  lastUpdateEnd (windowOf (shared σ) (Id zone)) = Time.zero →
  clockNow (world σ) = (t, w') →
  After t (Add Time.zero (stateTTLGetter (shared σ) (Id zone))) = true →
  ∃ r σ', GetZoneState zone cache σ = (r, σ') ∧
    r.1.2 = false ∧
    trace σ' = trace σ ++ [EvStateUpdater (self cache) zone].
Proof.
  intros Hend Hclock Hafter. rewrite <- Hend in Hafter.
  destruct (stateUpdater cache zone w') as [[d|st err] w2] eqn:Hcb.
  - destruct (clockNow w2) as [tend w3] eqn:Hclock2.
    destruct (GetZoneState_refresh_ok zone cache σ t w' d w2 tend w3)
      as (σ' & Hrun & _ & _ & _ & _ & _ & _ & Htr & _); try done.
    by eexists _, _.
  - destruct (GetZoneState_refresh_err zone cache σ t w' st err w2)
      as (state & σ' & Hrun & _ & _ & _ & _ & _ & _ & Htr & _); try done.
    by eexists _, _.
Qed.

Lemma Invalidated_window s zoneID :
  Invalidated s zoneID → lastUpdateEnd (windowOf s zoneID) = Time.zero.
Proof. intros (_ & _ & Hp). unfold windowOf. by rewrite Hp. Qed.

Lemma ReportZoneStateConflict_run zoneID (err : option error) σ :
  ∃ b σ', ReportZoneStateConflict zoneID err σ = (b, σ') ∧
    (b = true → Invalidated (shared σ') zoneID) ∧
    OtherZonesKept zoneID σ σ' ∧
    heap σ' = heap σ ∧ world σ' = world σ ∧ trace σ' = trace σ.
Proof.
  unfold ReportZoneStateConflict, bind. rewrite getProxy_run.
  unfold readProxy. sys_simpl.
  assert (Hno : ∃ b σ', (false, ensureProxy zoneID σ) = (b, σ') ∧
    (b = true → Invalidated (shared σ') zoneID) ∧
    OtherZonesKept zoneID σ σ' ∧
    heap σ' = heap σ ∧ world σ' = world σ ∧ trace σ' = trace σ).
  { eexists _, _. split; [reflexivity|]. split; [done|].
    split; [apply OtherZonesKept_ensureProxy|].
    by rewrite ensureProxy_heap, ensureProxy_world, ensureProxy_trace. }
  destruct (negb _); [|exact Hno].
  destruct (err ≫= asAlreadyBusyForOwner) as [conflict|]; [|exact Hno].
  destruct (After _ _); [|exact Hno].
  destruct (cleanZoneState_proxy_run zoneID σ)
    as (σ1 & Hrun1 & Hm & Hfd & Hp & Hu & Ht & Hh & Hw & Htr).
  rewrite Hrun1. eexists _, _. split; [reflexivity|].
  split; [intros _; eapply cleanZoneState_proxy_invalidates; eauto|].
  split; [|done]. apply OtherZonesKept_intro; eauto.
Qed.

Lemma ApplyRequests_error_run c (err : error) zone reqs σ :
  IsThrottlingError err = false →
  ∃ σ', ApplyRequests c (Some err) zone reqs σ = (tt, σ') ∧
    Invalidated (shared σ') (Id zone) ∧
    OtherZonesKept (Id zone) σ σ' ∧
    heap σ' = heap σ ∧ world σ' = world σ.
Proof.
  intros Hthr. unfold ApplyRequests. rewrite Hthr. cbn [negb].
  unfold bind, emit, CleanZoneState, bind. sys_simpl. rewrite getProxy_run.
  match goal with |- context [cleanZoneState _ _ (ensureProxy _ ?s)] =>
    destruct (cleanZoneState_proxy_run (Id zone) s)
      as (σ1 & Hrun1 & Hm & Hfd & Hp & Hu & Ht & Hh & Hw & Htr)
  end.
  rewrite Hrun1. sys_simpl. eexists. split; [reflexivity|]. sys_simpl.
  split; [eapply cleanZoneState_proxy_invalidates; eauto|].
  split; [|done]. apply OtherZonesKept_intro; eauto.
Qed.

(** X13. Invalidations are local.  [ReportZoneStateConflict] and
    [ApplyRequests] after a failed write change nothing but the entries of
    the given zone: the snapshots, forwarded domains and proxies of all
    other zones and the usage sets are as before, and no snapshot object
    is changed. *)
Theorem invalidation_touches_one_zone c zone (err : option error) (e : error) reqs σ :
  (∃ b σ', CacheReportZoneStateConflict c zone err σ = (b, σ') ∧
     OtherZonesKept (Id zone) σ σ' ∧ heap σ' = heap σ) ∧
  (∃ σ', ApplyRequests c (Some e) zone reqs σ = (tt, σ') ∧
     OtherZonesKept (Id zone) σ σ' ∧ heap σ' = heap σ).
Proof.
  split.
  - unfold CacheReportZoneStateConflict.
    destruct (ReportZoneStateConflict_run (Id zone) err σ)
      as (b & σ' & Hrun & _ & Hk & Hh & _).
    by exists b, σ'.
  - destruct (IsThrottlingError e) eqn:Hthr.
    + unfold ApplyRequests. rewrite Hthr. cbn [negb]. unfold emit. sys_simpl.
      eexists. split; [reflexivity|]. sys_simpl. split; [|done].
      apply OtherZonesKept_intro; auto.
    + destruct (ApplyRequests_error_run c e zone reqs σ Hthr)
        as (σ' & Hrun & _ & Hk & Hh & _).
      by exists σ'.
Qed.

(** X10. After a conflict report that returned true, the next
    [GetZoneState] for the zone, by any consumer and at any clock reading
    later than the state TTL after the zero time, invokes the state
    updater and is not answered from the cache. *)
Theorem conflict_forces_refetch zone (err : option error) σ σ1 cache t w' :
  ReportZoneStateConflict (Id zone) err σ = (true, σ1) →
  clockNow (world σ1) = (t, w') →
  After t (Add Time.zero (stateTTLGetter (shared σ1) (Id zone))) = true →
  ∃ r σ2, GetZoneState zone cache σ1 = (r, σ2) ∧
    r.1.2 = false ∧
    trace σ2 = trace σ1 ++ [EvStateUpdater (self cache) zone].
Proof.
  intros Hrep Hclock Hafter.
  destruct (ReportZoneStateConflict_run (Id zone) err σ)
    as (b & σ' & Hrun & Hinv & _).
  rewrite Hrep in Hrun. injection Hrun as <- <-.
  apply GetZoneState_refetch with t w'; [|done|done].
  by apply Invalidated_window, Hinv.
Qed.

(** X11. After [ApplyRequests] was told of a failed write whose error is
    not a throttling error, the next [GetZoneState] for the zone, by any
    consumer and at any clock reading later than the state TTL after the
    zero time, invokes the state updater and is not answered from the
    cache. *)
Theorem failed_write_forces_refetch c (err : error) zone reqs σ cache t w' :
  IsThrottlingError err = false →
  let σ1 := exec (ApplyRequests c (Some err) zone reqs) σ in
  clockNow (world σ1) = (t, w') →
  After t (Add Time.zero (stateTTLGetter (shared σ1) (Id zone))) = true →
  ∃ r σ2, GetZoneState zone cache σ1 = (r, σ2) ∧
    r.1.2 = false ∧
    trace σ2 = trace σ1 ++ [EvStateUpdater (self cache) zone].
Proof.
  intros Hthr σ1 Hclock Hafter.
  destruct (ApplyRequests_error_run c err zone reqs σ Hthr)
    as (σ' & Hrun & Hinv & _).
  assert (Hσ1 : σ1 = σ') by (unfold σ1, exec; by rewrite Hrun).
  rewrite Hσ1 in *.
  apply GetZoneState_refetch with t w'; [|done|done].
  by apply Invalidated_window.
Qed.

(** ** Release of the last consumer *)

(** X14. When no other consumer has a recorded usage, [Release] of a
    consumer with a non-empty usage set empties the manager: no usage is
    recorded any more, the record store and the proxy registry are empty,
    and the forwarded domains of every zone that had a snapshot are
    gone.  No snapshot object is changed. *)
Theorem Release_last_consumer c σ :
  usedBy (shared σ) (self c) ≠ [] →
  (∀ other, other ≠ self c → usedBy (shared σ) other = []) →
  ∃ σ', Release c σ = (tt, σ') ∧
    (∀ cache, usedBy (shared σ') cache = []) ∧
    inMemory (shared σ') = ∅ ∧
    proxies (shared σ') = ∅ ∧
    (∀ z, is_Some (inMemory (shared σ) !! z) → forwardedOf (shared σ') z = None) ∧
    heap σ' = heap σ.
Proof.
  intros Hne Hothers. unfold Release.
  destruct (UpdateUsedZones_run (self c) [] σ)
    as (σ' & Hrun & Hh & _ & _ & _ & _ & Hdiff).
  destruct (Hdiff Hne) as [Hused Hz].
  exists σ'. split; [done|].
  assert (Hby : ∀ cache, usedBy (shared σ') cache = []).
  { intros cache. unfold usedBy. rewrite Hused.
    destruct (decide (cache = self c)) as [->|Hc].
    - by rewrite lookup_delete_eq.
    - rewrite lookup_delete_ne by done. by apply Hothers. }
  assert (Hnone : ∀ z, ¬ InUnion (shared σ') z).
  { intros z (cache & ids & Hlook & Hin).
    specialize (Hby cache). unfold usedBy in Hby. rewrite Hlook in Hby.
    simpl in Hby. subst ids. by apply elem_of_nil in Hin. }
  split; [done|]. split; [|split; [|split; [|done]]].
  - apply map_empty. intros z. by apply (Hz z).
  - apply map_empty. intros z. by apply (Hz z).
  - intros z Hstored. by apply (Hz z).
Qed.

(** ** The forwarded-domains cache *)

(** X5. Round trip of the forwarded-domains cache: [Get] after [Set]
    returns the value that was set, nil included (setting nil deletes the
    entry, an empty list that is not nil is kept); [Set] and [DeleteZone]
    leave the entries of the other zones as they are; [Get] returns nil
    after [DeleteZone] and on a new cache. *)
Theorem forwarded_domains_round_trip zoneid value (hd : forwardedDomainsCacheImpl) :
  FDC.Get zoneid (FDC.Set_ zoneid value hd) = value ∧
  FDC.Get zoneid (FDC.DeleteZone zoneid hd) = None ∧
  FDC.Get zoneid FDC.new = None ∧
  (∀ z, z ≠ zoneid →
     FDC.Get z (FDC.Set_ zoneid value hd) = FDC.Get z hd ∧
     FDC.Get z (FDC.DeleteZone zoneid hd) = FDC.Get z hd) ∧
  (FDC.Set_ zoneid None hd = FDC.DeleteZone zoneid hd).
Proof.
  unfold FDC.Get, FDC.Set_, FDC.DeleteZone, FDC.new.
  split; [destruct value; [apply lookup_insert_eq|apply lookup_delete_eq]|].
  split; [apply lookup_delete_eq|]. split; [apply lookup_empty|].
  split; [|done]. intros z Hz. split.
  - destruct value; [by rewrite lookup_insert_ne|by rewrite lookup_delete_ne].
  - by rewrite lookup_delete_ne.
Qed.

(** ** The invariant of the reachable states *)

(** X7. In every state reached from a new manager by calls of the methods
    of the zone caches and of the manager, in any order, by any consumers
    and with any arguments and callbacks, every snapshot of the record
    store is an allocated object, and every zone whose refresh window has
    an end other than the zero time has a snapshot in the record store. *)
Theorem reachable_states_consistent σ :
  Reachable σ →
  (∀ z data, inMemory (shared σ) !! z = Some data →
     ∃ d, heap σ !! dnssets data = Some d) ∧
  (∀ z, lastUpdateEnd (windowOf (shared σ) z) ≠ Time.zero →
     ∃ data, inMemory (shared σ) !! z = Some data).
Proof.
  intros Hr. destruct (Reachable_Consistent σ Hr) as [Hheap Hwin]. split.
  - intros z data Hdata. by apply (Hheap z data).
  - intros z Hend. unfold windowOf in Hend.
    destruct (proxies (shared σ) !! z) as [p|] eqn:Hp; [|done].
    by apply (Hwin z p).
Qed.

(** ** The pass-through strategy and the factory *)

(** X15. The factory creates a full-caching cache only for the type
    [CacheZoneState] with the state cache enabled, a pass-through cache for
    [CacheZonesOnly] and for [CacheZoneState] with the state cache
    disabled, and fails for every other type.  A new full-caching cache
    has the zero time as deadline of its zone list; a new pass-through
    cache has no forwarded-domains cache yet. *)
Theorem CreateZoneCache_strategy f self cacheType zonesUpdater stateUpdater :
  match CreateZoneCache f self cacheType zonesUpdater stateUpdater with
  | inl (DefaultCache c) =>
      cacheType = CacheZoneState ∧ disableZoneStateCache f = false ∧
      c = newDefaultZoneCache self (f_zonesTTL f) zonesUpdater stateUpdater ∧
      zonesNext c = Time.zero ∧ backoffOnError c = 0
  | inl (OnlyZones c) =>
      (cacheType = CacheZonesOnly ∨
       cacheType = CacheZoneState ∧ disableZoneStateCache f = true) ∧
      oz_self c = self ∧ oz_zonesTTL c = f_zonesTTL f ∧
      oz_zonesUpdater c = zonesUpdater ∧ oz_stateUpdater c = stateUpdater ∧
      oz_forwardedDomainsCache c = None
  | inr e =>
      cacheType ≠ CacheZonesOnly ∧ cacheType ≠ CacheZoneState ∧
      e = UnknownZoneCacheType cacheType
  end.
Proof.
  unfold CreateZoneCache.
  destruct (Z.eqb_spec cacheType CacheZonesOnly) as [->|Hne1]; [by auto 10|].
  destruct (Z.eqb_spec cacheType CacheZoneState) as [->|Hne2]; [|done].
  destruct (disableZoneStateCache f) eqn:Hd; simpl; auto 10.
Qed.

Lemma oz_GetZones_run (c : onlyZonesCache) σ :
  oz_GetZones c σ =
    ((oz_zonesUpdater c (world σ)).1,
     set_world (oz_zonesUpdater c (world σ)).2
       (upd_trace (fun tr => tr ++ [EvZonesUpdater (oz_self c)]) σ)).
Proof.
  unfold oz_GetZones, bind, emit. sys_simpl.
  by destruct (oz_zonesUpdater c (world σ)).
Qed.

Lemma oz_GetZoneState_run (c : onlyZonesCache) zone σ :
  ∃ state σ', oz_GetZoneState c zone σ =
      ((state, match (oz_stateUpdater c zone (world σ)).1 with
               | UpdateOk _ => None
               | UpdateErr _ err => Some err
               end), σ') ∧
    shared σ' = shared σ ∧
    world σ' = (oz_stateUpdater c zone (world σ)).2 ∧
    trace σ' = trace σ ++ [EvStateUpdater (oz_self c) zone] ∧
    (∀ l x, heap σ !! l = Some x → heap σ' !! l = Some x) ∧
    match (oz_stateUpdater c zone (world σ)).1 with
    | UpdateOk d | UpdateErr (Some d) _ =>
        ∃ l, state = Some l ∧ heap σ !! l = None ∧ heap σ' !! l = Some d
    | UpdateErr None _ => state = None
    end.
Proof.
  unfold oz_GetZoneState, bind, emit. sys_simpl.
  destruct (oz_stateUpdater c zone (world σ)) as [[d|[d|] err] w2]; unfold alloc;
    sys_simpl; eexists _, _; (split; [reflexivity|]); sys_simpl.
  - repeat split; [intros l x; apply heap_alloc_kept|].
    eexists. split; [reflexivity|].
    split; [apply fresh_loc_unused|apply lookup_insert_eq].
  - repeat split; [intros l x; apply heap_alloc_kept|].
    eexists. split; [reflexivity|].
    split; [apply fresh_loc_unused|apply lookup_insert_eq].
  - repeat split; done.
Qed.

(** X16. A pass-through cache never touches the shared manager: after any
    series of calls of its methods the shared manager is the one before,
    no snapshot object that existed is changed, and the callbacks invoked
    are, in order, one zones updater call for every [GetZones] and one
    state updater call for every [GetZoneState], nothing being answered
    from a cache; [ReportZoneStateConflict] returns false. *)
Theorem pass_through_never_caches (c : onlyZonesCache) calls σ :
  let σ' := exec (forEach calls (ozRun c)) σ in
  shared σ' = shared σ ∧
  trace σ' = trace σ ++ ozCallbacks c calls ∧
  (∀ l x, heap σ !! l = Some x → heap σ' !! l = Some x) ∧
  (∀ zone err σ0, (oz_ReportZoneStateConflict c zone err σ0).1 = false).
Proof.
  cbv zeta. split; [|split; [|split; [|done]]]; revert σ;
    (induction calls as [|call calls IH]; intros σ;
      [unfold exec; simpl; by rewrite ?app_nil_r|]);
    unfold exec in *; cbn [forEach]; unfold bind at 1;
    destruct (ozRun c call σ) as [[] σ1] eqn:Hrun;
    assert (Hstep : shared σ1 = shared σ ∧
              trace σ1 = trace σ ++ ozCallbacks c [call] ∧
              (∀ l x, heap σ !! l = Some x → heap σ1 !! l = Some x)).
  1,3,5: (destruct call as [|zone|? ? ?|? ?|]; unfold ozRun in Hrun;
      [ unfold bind in Hrun; rewrite oz_GetZones_run in Hrun;
        injection Hrun as <-; sys_simpl; done
      | unfold bind in Hrun;
        destruct (oz_GetZoneState_run c zone σ)
          as (state & σ2 & Hrun2 & Hs & _ & Htr & Hh & _);
        rewrite Hrun2 in Hrun; injection Hrun as <-; done
      | injection Hrun as <-; simpl; by rewrite app_nil_r
      | injection Hrun as <-; simpl; by rewrite app_nil_r
      | injection Hrun as <-; simpl; by rewrite app_nil_r ]).
  - destruct Hstep as (Hs & _ & _). by rewrite IH, Hs.
  - destruct Hstep as (_ & Htr & _). rewrite IH, Htr, <- app_assoc.
    f_equal. unfold ozCallbacks. simpl. by destruct call.
  - destruct Hstep as (_ & _ & Hh). intros l x Hl. by apply IH, Hh.
Qed.

(** ** Repeated reports *)

(** X17. Reporting the same usage set twice is the same as reporting it
    once: the second [UpdateUsedZones] of a consumer with the same ids,
    empty or not, changes nothing. *)
Theorem UpdateUsedZones_idempotent cache zoneids σ :
  (UpdateUsedZones cache zoneids;;; UpdateUsedZones cache zoneids) σ =
  UpdateUsedZones cache zoneids σ.
Proof.
  unfold bind at 1.
  destruct (UpdateUsedZones cache zoneids σ) as [[] σ1] eqn:Hrun.
  destruct (UpdateUsedZones_usedBy _ _ _ _ Hrun) as [Hself _].
  destruct (UpdateUsedZones_run cache zoneids σ1)
    as (σ2 & Hrun2 & _ & _ & _ & _ & Hsame & _).
  rewrite Hrun2. by rewrite (Hsame Hself).
Qed.

Lemma StartIsZero_frame z σ σ' :
  proxies (shared σ') !! z = proxies (shared σ) !! z ∨
  proxies (shared σ') !! z = Some newProxy ∨
  proxies (shared σ') !! z = None →
  StartIsZero z σ → StartIsZero z σ'.
Proof.
  unfold StartIsZero, windowOf. by intros [->|[->| ->]].
Qed.

Lemma StartIsZero_ensureProxy z zoneID σ :
  StartIsZero z σ → StartIsZero z (ensureProxy zoneID σ).
Proof. unfold StartIsZero. by rewrite ensureProxy_window. Qed.

Lemma proxies_insert_cases (m : gmap ZoneID zoneStateProxy) zoneID z :
  <[zoneID := newProxy]> m !! z = m !! z ∨
  <[zoneID := newProxy]> m !! z = Some newProxy ∨
  <[zoneID := newProxy]> m !! z = None.
Proof.
  destruct (decide (zoneID = z)) as [->|Hne].
  - right. left. apply lookup_insert_eq.
  - left. by apply lookup_insert_ne.
Qed.

Lemma StartIsZero_clean z zoneID σ :
  StartIsZero z σ →
  StartIsZero z (cleanZoneState zoneID (Some zoneID) (ensureProxy zoneID σ)).2.
Proof.
  destruct (cleanZoneState_proxy_run zoneID σ) as (σ' & Hrun & _ & _ & Hp & _).
  rewrite Hrun. cbn [snd]. apply StartIsZero_frame. rewrite Hp.
  apply proxies_insert_cases.
Qed.

Lemma StartIsZero_GetZoneState z zone cache σ :
  (Id zone = z →
     (GetZoneState zone cache σ).1.1.2 = true ∨ (GetZoneState zone cache σ).1.2 ≠ None) →
  StartIsZero z σ → StartIsZero z (exec (GetZoneState zone cache) σ).
Proof.
  intros Hnot Hz. unfold exec.
  destruct (clockNow (world σ)) as [start w1] eqn:Hclock.
  destruct (After start (Add (lastUpdateEnd (windowOf (shared σ) (Id zone)))
                             (stateTTLGetter (shared σ) (Id zone)))) eqn:Hexp.
  - destruct (stateUpdater cache zone w1) as [[d|st err] w2] eqn:Hcb.
    + destruct (clockNow w2) as [tend w3] eqn:Hclock2.
      destruct (GetZoneState_refresh_ok zone cache σ start w1 d w2 tend w3)
        as (σ' & Hrun & _ & _ & Hp & _); try done.
      rewrite Hrun in *. cbn [fst snd] in *.
      apply (StartIsZero_frame z σ); [|done]. left. rewrite Hp.
      apply lookup_insert_ne. intros Heq. by destruct (Hnot Heq).
    + destruct (GetZoneState_refresh_err zone cache σ start w1 st err w2)
        as (state & σ' & Hrun & _ & _ & Hp & _); try done.
      rewrite Hrun. cbn [snd].
      apply (StartIsZero_frame z σ); [|done]. rewrite Hp.
      apply proxies_insert_cases.
  - destruct (GetZoneState_cached_branch zone cache σ start w1 Hclock Hexp)
      as (state & err & σ' & Hrun & Hs & _).
    rewrite Hrun. cbn [snd]. unfold StartIsZero. rewrite Hs.
    by apply StartIsZero_ensureProxy.
Qed.

Lemma StartIsZero_ReportZoneStateConflict z zoneID (err : option error) σ :
  StartIsZero z σ → StartIsZero z (exec (ReportZoneStateConflict zoneID err) σ).
Proof.
  intros Hz. unfold exec, ReportZoneStateConflict, bind. rewrite getProxy_run.
  unfold readProxy. sys_simpl.
  pose proof (StartIsZero_ensureProxy z zoneID σ Hz) as H1.
  pose proof (StartIsZero_clean z zoneID σ Hz) as H2.
  destruct (negb _); [|done].
  destruct (err ≫= asAlreadyBusyForOwner) as [conflict|]; [|done].
  destruct (After _ _); [|done].
  destruct (cleanZoneState zoneID (Some zoneID) (ensureProxy zoneID σ)). done.
Qed.

Lemma StartIsZero_CleanZoneState z zoneID σ :
  StartIsZero z σ → StartIsZero z (exec (CleanZoneState zoneID) σ).
Proof.
  intros Hz. unfold exec, CleanZoneState, bind. rewrite getProxy_run.
  by apply StartIsZero_clean.
Qed.

Lemma StartIsZero_ExecuteRequests z zoneID reqs σ :
  StartIsZero z σ → StartIsZero z (exec (ExecuteRequests zoneID reqs) σ).
Proof.
  intros Hz. unfold exec, ExecuteRequests, bind. rewrite getProxy_run.
  destruct (applyRequests_frame zoneID reqs (ensureProxy zoneID σ))
    as (e & σ1 & Hrun & Hs & _).
  rewrite Hrun.
  assert (Hz1 : StartIsZero z σ1).
  { unfold StartIsZero. rewrite Hs. by apply StartIsZero_ensureProxy. }
  destruct e as [e|]; [|done].
  unfold cleanZoneState, bind, writeProxy, DeleteZone. sys_simpl.
  apply (StartIsZero_frame z σ1); [|done]. sys_simpl.
  destruct (decide (zoneID = z)) as [<-|Hne].
  - right. left. rewrite !lookup_alter_eq, Hs, ensureProxy_lookup. reflexivity.
  - left. by rewrite !lookup_alter_ne.
Qed.

Lemma StartIsZero_UpdateUsedZones z cache zoneids σ :
  StartIsZero z σ → StartIsZero z (exec (UpdateUsedZones cache zoneids) σ).
Proof.
  intros Hz. unfold exec.
  destruct (UpdateUsedZones_run cache zoneids σ)
    as (σ' & Hrun & _ & _ & _ & _ & Hnoop & Hgc).
  rewrite Hrun. cbn [snd].
  destruct (decide (usedBy (shared σ) cache = zoneids)) as [Heq|Hne].
  { by rewrite (Hnoop Heq). }
  destruct (Hgc Hne) as [_ Hall]. apply (StartIsZero_frame z σ); [|done].
  destruct (decide (InUnion (shared σ') z)) as [Hin|Hout].
  - left. by destruct (proj1 (Hall z) Hin) as (_ & _ & Hp).
  - right. right. by destruct (proj2 (Hall z) Hout) as (_ & Hp & _).
Qed.

Lemma StartIsZero_GetZones z c σ :
  StartIsZero z σ → StartIsZero z (exec (GetZones c) σ).
Proof.
  intros Hz. unfold exec.
  destruct (clockNow (world σ)) as [t w1] eqn:Hclock.
  destruct (After t (zonesNext c)) eqn:Hexp.
  - destruct (zonesUpdater c w1) as [[zs e] w2] eqn:Hcb.
    destruct (clockNow w2) as [tu w3] eqn:Hclock2.
    destruct (GetZones_refresh c σ t w1 zs e w2 tu w3)
      as (c' & σ' & Hrun & _ & _ & _ & _ & _ & _ & Hupd & _); auto.
    rewrite Hrun. cbn [snd].
    match type of Hupd with UpdateUsedZones ?a ?b ?s = _ =>
      pose proof (StartIsZero_UpdateUsedZones z a b s) as Hz'
    end.
    unfold exec in Hz'. rewrite Hupd in Hz'. by apply Hz'.
  - rewrite (GetZones_hit c σ t w1) by done. done.
Qed.

Lemma StartIsZero_CacheGetZoneState z c zone σ :
  (Id zone = z →
     (GetZoneState zone c σ).1.1.2 = true ∨ (GetZoneState zone c σ).1.2 ≠ None) →
  StartIsZero z σ → StartIsZero z (exec (CacheGetZoneState c zone) σ).
Proof.
  intros Hnot Hz. apply (StartIsZero_GetZoneState z zone c) in Hz; [|done].
  unfold exec in *. unfold CacheGetZoneState, bind.
  destruct (GetZoneState zone c σ) as [[[state cached] err] σ1]. cbn [snd] in *.
  by destruct cached.
Qed.

Lemma StartIsZero_ApplyRequests z c (err : option error) zone reqs σ :
  StartIsZero z σ → StartIsZero z (exec (ApplyRequests c err zone reqs) σ).
Proof.
  intros Hz. destruct err as [e|]; [|by apply StartIsZero_ExecuteRequests].
  unfold exec, ApplyRequests. destruct (IsThrottlingError e); cbn [negb]; [done|].
  unfold bind, emit. sys_simpl.
  match goal with |- context [CleanZoneState _ ?s] =>
    pose proof (StartIsZero_CleanZoneState z (Id zone) s) as Hz'
  end.
  unfold exec in Hz'.
  destruct (CleanZoneState (Id zone) _) as [[] σ1]. cbn [snd] in *. by apply Hz'.
Qed.

Lemma RunWithoutRefresh_StartIsZero z σ0 σ :
  RunWithoutRefresh z σ0 σ → StartIsZero z σ0 → StartIsZero z σ.
Proof.
  intros Hrun Hz0. induction Hrun;
    auto using StartIsZero_GetZones, StartIsZero_CacheGetZoneState,
      StartIsZero_ApplyRequests, StartIsZero_UpdateUsedZones,
      StartIsZero_GetZoneState, StartIsZero_ReportZoneStateConflict,
      StartIsZero_ExecuteRequests, StartIsZero_CleanZoneState.
  - by apply (StartIsZero_UpdateUsedZones z (self c) []).
  - by apply (StartIsZero_ReportZoneStateConflict z (Id zone) err).
Qed.

(** X18. A conflict is acted on once per refresh: after a conflict report
    that returned true, and after any further calls of the caches and of
    the manager that do not refresh the zone (further reports among them),
    every report for the zone, with any error and by any consumer, returns
    false and changes no cached state. *)
Theorem conflict_reported_once zoneID (err err' : option error) σ σ1 σ2 :
  ReportZoneStateConflict zoneID err σ = (true, σ1) →
  RunWithoutRefresh zoneID σ1 σ2 →
  ∃ σ3, ReportZoneStateConflict zoneID err' σ2 = (false, σ3) ∧
    (∀ c zone, Id zone = zoneID →
       CacheReportZoneStateConflict c zone err' σ2 = (false, σ3)) ∧
    SameCache σ2 σ3 ∧ world σ3 = world σ2 ∧ trace σ3 = trace σ2.
Proof.
  intros Hrep Hrun.
  destruct (ReportZoneStateConflict_run zoneID err σ)
    as (b & σ' & Hrun' & Hinv & _).
  rewrite Hrep in Hrun'. injection Hrun' as <- <-.
  destruct (Hinv eq_refl) as (_ & _ & Hp).
  assert (Hz : StartIsZero zoneID σ2).
  { apply (RunWithoutRefresh_StartIsZero zoneID σ1); [done|].
    unfold StartIsZero, windowOf. by rewrite Hp. }
  assert (Hfalse : ReportZoneStateConflict zoneID err' σ2 =
                   (false, ensureProxy zoneID σ2)).
  { unfold ReportZoneStateConflict, bind. rewrite getProxy_run.
    unfold readProxy. sys_simpl. rewrite ensureProxy_lookup. sys_simpl.
    unfold StartIsZero in Hz. by rewrite Hz. }
  exists (ensureProxy zoneID σ2). split; [done|]. split.
  - intros c zone <-. exact Hfalse.
  - auto using ensureProxy_same, ensureProxy_world, ensureProxy_trace.
Qed.

(** X19. The first [GetZones] of a full-caching cache that the factory has
    just created, at any clock reading after the zero time, invokes the
    zones updater, returns its result and records the sorted ids of the
    listed zones as the usage set of the cache. *)
Theorem new_cache_first_GetZones_refreshes f self zonesUpdater stateUpdater c σ
    t w1 zs e w2 :
  CreateZoneCache f self CacheZoneState zonesUpdater stateUpdater
    = inl (DefaultCache c) →
  clockNow (world σ) = (t, w1) →
  Time.zero < t →
  zonesUpdater w1 = ((zs, e), w2) →
  ∃ c' σ', GetZones c σ = ((c', (zs, e)), σ') ∧
    trace σ' = trace σ ++ [EvZonesUpdater self] ∧
    usedBy (shared σ') self = toSortedZoneIDs zs.
Proof.
  intros Hnew Hclock Ht Hupd.
  unfold CreateZoneCache in Hnew. simpl in Hnew.
  destruct (disableZoneStateCache f); [done|]. injection Hnew as <-.
  destruct (clockNow w2) as [tu w3] eqn:Hclock2.
  destruct (GetZones_refresh (newDefaultZoneCache self (f_zonesTTL f) zonesUpdater
                                stateUpdater) σ t w1 zs e w2 tu w3)
    as (c' & σ' & Hrun & _ & _ & _ & _ & _ & _ & Hused & _ & _ & Htr); try done.
  { simpl. unfold After. by apply Z.ltb_lt. }
  exists c', σ'. split; [done|]. split; [done|].
  by destruct (UpdateUsedZones_usedBy _ _ _ _ Hused) as [Hself _].
Qed.

(** ** Eviction is followed by a refetch *)

(** X21. A zone evicted by a change of the usage sets is fetched anew:
    when [UpdateUsedZones] has changed the usage set of a consumer and a
    zone is in no usage set afterwards, the next [GetZoneState] for the
    zone, by any consumer and at any clock reading later than the state
    TTL after the zero time, invokes the state updater and is not answered
    from the cache. *)
Theorem evicted_zone_refetched cache zoneids σ σ1 zone c t w' :
  UpdateUsedZones cache zoneids σ = (tt, σ1) →
  usedBy (shared σ) cache ≠ zoneids →
  ¬ InUnion (shared σ1) (Id zone) →
  clockNow (world σ1) = (t, w') →
  After t (Add Time.zero (stateTTLGetter (shared σ1) (Id zone))) = true →
  inMemory (shared σ1) !! Id zone = None ∧
  ∃ r σ2, GetZoneState zone c σ1 = (r, σ2) ∧
    r.1.2 = false ∧
    trace σ2 = trace σ1 ++ [EvStateUpdater (self c) zone].
Proof.
  intros Hrun Hne Hnot Hclock Hafter.
  destruct (UpdateUsedZones_run cache zoneids σ)
    as (σ' & Hrun' & _ & _ & _ & _ & _ & Hdiff).
  rewrite Hrun in Hrun'. injection Hrun' as <-.
  destruct (Hdiff Hne) as [_ Hz]. destruct (Hz (Id zone)) as [_ Hgone].
  destruct (Hgone Hnot) as (Hm & Hp & _). split; [done|].
  apply GetZoneState_refetch with t w'; [|done|done].
  unfold windowOf. by rewrite Hp.
Qed.

(** ** The timeout of the generated client *)

Lemma wrap64_is_int64 (n : Z) : is_int64 (wrap64 n).
Proof.
  unfold is_int64, wrap64, minInt64, maxInt64.
  pose proof (Z.mod_pos_bound (n + 2 ^ 63) (2 ^ 64) ltac:(lia)). lia.
Qed.

(** X20. The timeout that [List], [Watch] and [DeleteCollection] pass to
    the REST client is zero when [TimeoutSeconds] is not set; when it is
    set, the timeout is that number of seconds exactly when the number is
    between -9223372036 and 9223372036, and wraps around otherwise. *)
Theorem timeout_exact_iff_in_range (seconds : Z) :
  dNSEntries.timeout None = 0 ∧
  (dNSEntries.timeout (Some seconds) = seconds * Second ↔
   -9223372036 <= seconds <= 9223372036).
Proof.
  split; [done|]. unfold dNSEntries.timeout, dmul. split.
  - intros Heq. pose proof (wrap64_is_int64 (seconds * Second)) as Hr.
    rewrite Heq in Hr. unfold is_int64, minInt64, maxInt64, Second in Hr. lia.
  - intros Hr. apply wrap64_small.
    unfold is_int64, minInt64, maxInt64, Second. lia.
Qed.

End Properties.

(** * The properties on the example runs *)

Import Example.

(** The example states are reachable. *)
Lemma sys0_reachable : Reachable sys0.
Proof. apply reach_new. Defined.

Lemma sys1_reachable : Reachable sys1.
Proof. apply reach_GetZoneState, sys0_reachable. Defined.

(** C1 on the example: the first call for zone A refreshes, the second one,
    29 seconds after the refresh, is served from the cache by a clone. *)
Lemma GetZoneState_cached_or_refreshed_witness :
  (∃ l σ', GetZoneState zoneA cache1 sys0 = ((Some l, false, None), σ') ∧
     heap sys0 !! l = None ∧
     heap σ' !! l = Some ["www"; "api"] ∧
     inMemory (shared σ') !! z1 =
       Some {| zd_domain := "a.example.com"; zd_key := "k1"; dnssets := l |} ∧
     proxies (shared σ') !! z1 =
       Some {| lastUpdateStart := 1000 * Second; lastUpdateEnd := 1001 * Second |} ∧
     trace σ' = trace sys0 ++ [EvStateUpdater 1 zoneA]) ∧
  (∃ data d l σ',
     inMemory (shared sys1) !! z1 = Some data ∧
     heap sys1 !! dnssets data = Some d ∧
     GetZoneState zoneA cache1 sys1 = ((Some l, true, None), σ') ∧
     heap sys1 !! l = None ∧ l ≠ dnssets data ∧
     heap σ' !! l = Some d ∧
     heap σ' !! dnssets data = Some d ∧
     inMemory (shared σ') = inMemory (shared sys1) ∧
     (∀ z, windowOf (shared σ') z = windowOf (shared sys1) z) ∧
     trace σ' = trace sys1).
Proof.
  split.
  - apply (proj2 (GetZoneState_cached_or_refreshed zoneA cache1 sys0
                    (1000 * Second) (tail clock0) eq_refl)
                 eq_refl ["www"; "api"] (tail clock0)
                 (1001 * Second) (tail (tail clock0)) eq_refl eq_refl).
  - apply (proj1 (GetZoneState_cached_or_refreshed zoneA cache1 sys1
                    (1030 * Second) (tail (tail (tail clock0))) eq_refl)
                 sys1_reachable eq_refl eq_refl).
Defined.

Lemma sysPrimed_clock :
  clockNow (world sysPrimed) = (1062 * Second, [1063 * Second]).
Proof. vm_compute. reflexivity. Qed.

Lemma sysPrimed_expired :
  After (1062 * Second)
    (Add (lastUpdateEnd (windowOf (shared sysPrimed) (Id zoneA)))
         (stateTTLGetter (shared sysPrimed) (Id zoneA))) = true.
Proof. vm_compute. reflexivity. Qed.

Lemma sysPrimed_cached :
  (dnssets <$> inMemory (shared sysPrimed) !! z1) = Some 1%positive ∧
  heap sysPrimed !! 1%positive = Some ["www"; "api"] ∧
  forwardedOf (shared sysPrimed) z1 = Some ["sub.a.example.com"] ∧
  proxies (shared sysPrimed) !! z1 =
    Some {| lastUpdateStart := 1000 * Second; lastUpdateEnd := 1001 * Second |}.
Proof. vm_compute. auto. Qed.

Lemma sysFailed_clock : clockNow (world sysFailed) = (1063 * Second, []).
Proof. vm_compute. reflexivity. Qed.

Lemma sysFailed_after :
  After (1063 * Second)
    (Add Time.zero (stateTTLGetter (shared sysFailed) (Id zoneA))) = true.
Proof. vm_compute. reflexivity. Qed.

(** C7 on the example: zone A has a snapshot, a forwarded domain and a
    refresh window from 1000s to 1001s; at 1062s, after the deadline, cache
    2 refreshes it and its state updater fails.  The zone is cleaned, the
    error comes back as it is, and the next call, by cache 1 at 1063s,
    invokes the state updater again. *)
Lemma GetZoneState_failed_refresh_cleans_witness :
  ((dnssets <$> inMemory (shared sysPrimed) !! z1) = Some 1%positive ∧
   heap sysPrimed !! 1%positive = Some ["www"; "api"] ∧
   forwardedOf (shared sysPrimed) z1 = Some ["sub.a.example.com"] ∧
   proxies (shared sysPrimed) !! z1 =
     Some {| lastUpdateStart := 1000 * Second; lastUpdateEnd := 1001 * Second |}) ∧
  ∃ state σ',
    GetZoneState zoneA cache2 sysPrimed = ((state, false, Some (Failed "fetch")), σ') ∧
    Invalidated (shared σ') z1 ∧
    ∃ r σ'', GetZoneState zoneA cache1 σ' = (r, σ'') ∧
      r.1.2 = false ∧
      trace σ'' = trace σ' ++ [EvStateUpdater 1 zoneA].
Proof.
  split; [exact sysPrimed_cached|].
  destruct (GetZoneState_failed_refresh_cleans zoneA cache2 sysPrimed
              (1062 * Second) [1063 * Second] None (Failed "fetch") [1063 * Second]
              sysPrimed_clock sysPrimed_expired eq_refl)
    as (state & σ' & Hrun & Hinv & Hnext).
  exists state, σ'. split; [exact Hrun|]. split; [exact Hinv|].
  assert (Hσ' : σ' = sysFailed) by (unfold sysFailed, exec; by rewrite Hrun).
  apply (Hnext cache1 (1063 * Second) []).
  - rewrite Hσ'. exact sysFailed_clock.
  - rewrite Hσ'. exact sysFailed_after.
Defined.

(** C3 on the example: zone A was refreshed from 1000s on; a conflict with
    an entry created later, reported by cache 1, invalidates the zone, one
    with an entry created at 1000s does not. *)
Lemma ReportZoneStateConflict_iff_newer_claim_witness :
  (∃ σ', CacheReportZoneStateConflict (env := env) cache1 zoneA
           (Some (Busy (1000 * Second + 1))) sys1 = (true, σ') ∧
     Invalidated (shared σ') z1) ∧
  (∃ σ', CacheReportZoneStateConflict (env := env) cache1 zoneA
           (Some (Busy (1000 * Second))) sys1 = (false, σ') ∧
     SameCache sys1 σ').
Proof.
  split.
  - destruct (ReportZoneStateConflict_iff_newer_claim (env := env) cache1 zoneA
                (Some (Busy (1000 * Second + 1))) sys1)
      as (b & σ' & Hrun & _ & Hiff & Hinv & _).
    exists σ'. split.
    + rewrite Hrun. f_equal. apply Hiff.
      split; [vm_compute; discriminate|].
      eexists. split; [reflexivity|]. vm_compute. reflexivity.
    + apply Hinv.
      split; [vm_compute; discriminate|].
      eexists. split; [reflexivity|]. vm_compute. reflexivity.
  - destruct (ReportZoneStateConflict_iff_newer_claim (env := env) cache1 zoneA
                (Some (Busy (1000 * Second))) sys1)
      as (b & σ' & Hrun & _ & Hiff & _ & Hsame).
    exists σ'. split.
    + rewrite Hrun. f_equal. destruct b; [|reflexivity].
      destruct (proj1 Hiff eq_refl) as (_ & conflict & Hc & Hlt).
      injection Hc as <-. vm_compute in Hlt. discriminate.
    + apply Hsame. intros (_ & conflict & Hc & Hlt).
      injection Hc as <-. vm_compute in Hlt. discriminate.
Defined.

(** C2 on the example: two requests are written through to the snapshot of
    zone A; a failing request in the list invalidates the zone. *)
Lemma ApplyRequests_write_through_witness :
  (∃ σ', ApplyRequests (env := env) cache1 None zoneA [Create "mail"; Remove "www"] sys1 = (tt, σ') ∧
     heap σ' = <[1%positive := ["mail"; "api"]]> (heap sys1) ∧
     inMemory (shared σ') = inMemory (shared sys1)) ∧
  (∃ σ', ApplyRequests (env := env) cache1 None zoneA [Create "mail"; Broken; Remove "www"] sys1 = (tt, σ') ∧
     Invalidated (shared σ') z1).
Proof.
  split.
  - destruct (ApplyRequests_write_through (env := env) cache1 zoneA [Create "mail"; Remove "www"] sys1)
      as (σ' & Hrun & Hstored & _).
    exists σ'. split; [exact Hrun|].
    specialize (Hstored {| zd_domain := "a.example.com"; zd_key := "k1"; dnssets := 1 |}
                  ["www"; "api"] eq_refl eq_refl).
    destruct Hstored as (_ & Hheap & Hmem & _). split; [exact Hheap|exact Hmem].
  - destruct (ApplyRequests_write_through (env := env) cache1 zoneA
                [Create "mail"; Broken; Remove "www"] sys1)
      as (σ' & Hrun & Hstored & _).
    exists σ'. split; [exact Hrun|].
    exact (proj2 (proj2 (Hstored
             {| zd_domain := "a.example.com"; zd_key := "k1"; dnssets := 1 |}
             ["www"; "api"] eq_refl eq_refl))).
Defined.

(** C8 on the example: a throttled write leaves the shared state as it is,
    another failure invalidates zone A and emits the discard signal. *)
Lemma ApplyRequests_after_failed_write_witness :
  (∃ σ', ApplyRequests (env := env) cache1 (Some Throttled) zoneA [Create "mail"] sys1 = (tt, σ') ∧
     shared σ' = shared sys1 ∧ heap σ' = heap sys1) ∧
  (∃ σ', ApplyRequests (env := env) cache1 (Some (Failed "write")) zoneA [Create "mail"] sys1 = (tt, σ') ∧
     Invalidated (shared σ') z1 ∧
     EvAddZoneCacheDiscarding z1 ∈ drop (length (trace sys1)) (trace σ')).
Proof.
  split.
  - destruct (ApplyRequests_after_failed_write (env := env) cache1 Throttled zoneA [Create "mail"] sys1)
      as (σ' & Hrun & Hthr & _).
    exists σ'. split; [exact Hrun|].
    destruct (Hthr eq_refl) as (Hs & Hh & _). split; [exact Hs|exact Hh].
  - destruct (ApplyRequests_after_failed_write (env := env) cache1 (Failed "write") zoneA
                [Create "mail"] sys1)
      as (σ' & Hrun & _ & Hother).
    exists σ'. split; [exact Hrun|].
    destruct (Hother eq_refl) as (Hinv & Htr). split; [exact Hinv|].
    rewrite Htr. apply list_elem_of_further, list_elem_of_here.
Defined.

(** C4 on the example of the specification: consumer 1 uses [z1; z2],
    consumer 2 uses [z2; z3]; when consumer 1 reports the empty set, zone
    [z1] loses its snapshot, proxy and forwarded domains, while [z2] and
    [z3] keep theirs. *)
Lemma UpdateUsedZones_collects_unused_witness :
  ∃ σ', UpdateUsedZones 1%positive [] sysGC = (tt, σ') ∧
    usedZones (shared σ') = delete 1%positive (usedZones (shared sysGC)) ∧
    (inMemory (shared σ') !! z1 = None ∧
     proxies (shared σ') !! z1 = None ∧
     forwardedOf (shared σ') z1 = None) ∧
    (inMemory (shared σ') !! z2 = inMemory (shared sysGC) !! z2 ∧
     forwardedOf (shared σ') z2 = forwardedOf (shared sysGC) z2 ∧
     proxies (shared σ') !! z2 = proxies (shared sysGC) !! z2) ∧
    (inMemory (shared σ') !! z3 = inMemory (shared sysGC) !! z3 ∧
     forwardedOf (shared σ') z3 = forwardedOf (shared sysGC) z3 ∧
     proxies (shared σ') !! z3 = proxies (shared sysGC) !! z3).
Proof.
  destruct (UpdateUsedZones_collects_unused 1%positive [] sysGC)
    as (σ' & Hrun & _ & _ & Hgc).
  destruct Hgc as [Hu Hz]; [vm_compute; discriminate|].
  exists σ'. split; [exact Hrun|]. split; [exact Hu|].
  assert (Hin : ∀ z, InUnion (shared σ') z ↔
                     z ∈ allUsedOf (delete 1%positive (usedZones (shared sysGC)))).
  { intros z. rewrite InUnion_allUsedOf, Hu. reflexivity. }
  split; [|split].
  - destruct (proj2 (Hz z1)) as (Hm & Hp & Hf & _).
    { rewrite Hin. vm_compute. discriminate. }
    split; [exact Hm|]. split; [exact Hp|]. apply Hf. vm_compute. eauto.
  - apply (proj1 (Hz z2)). rewrite Hin. vm_compute. reflexivity.
  - apply (proj1 (Hz z3)). rewrite Hin. vm_compute. reflexivity.
Defined.

(** C4 as worded fails: in the reachable state [sysLeak] zone [z2] has a
    proxy and a forwarded-domains entry but no snapshot.  When consumer 1
    reports [z1], the zone is outside the union and its proxy is removed,
    but its forwarded-domains entry stays. *)
Lemma UpdateUsedZones_forwarded_entry_kept :
  Reachable sysLeak ∧
  usedBy (shared sysLeak) 1%positive ≠ [z1] ∧
  ¬ CollectsAllUnused sysLeak (exec (UpdateUsedZones 1%positive [z1]) sysLeak).
Proof.
  split; [apply reach_ForwardedDomainsSet, reach_ReportZoneStateConflict, reach_new|].
  split; [vm_compute; discriminate|].
  intros Hclaim.
  destruct (Hclaim z2) as (_ & Hfd & _).
  - right. vm_compute. eauto.
  - rewrite InUnion_allUsedOf. vm_compute. discriminate.
  - vm_compute in Hfd. discriminate.
Qed.

(** C5 on the example: the first [GetZones] of cache 1 lists the zones; the
    second, 29 seconds later and before the deadline, is served from the
    cache and counted as a hit. *)
Lemma GetZones_respects_deadline_witness :
  (∃ c' σ', GetZones cache1 sys0 = ((c', ([zoneA; zoneB], None)), σ') ∧
     zones c' = [zoneA; zoneB] ∧ zonesErr c' = None ∧
     trace σ' = trace sys0 ++ [EvZonesUpdater 1]) ∧
  (∃ σ', GetZones cache1' sysZ = ((cache1', ([zoneA; zoneB], None)), σ') ∧
     shared σ' = shared sysZ ∧ heap σ' = heap sysZ ∧
     trace σ' = trace sysZ ++ [EvAddGenericRequests 1 "cached_getzones" 1]).
Proof.
  split.
  - apply (proj2 (GetZones_respects_deadline cache1 sys0 (1000 * Second) (tail clock0)
                    eq_refl) eq_refl [zoneA; zoneB] None (tail clock0) eq_refl).
  - apply (proj1 (GetZones_respects_deadline cache1' sysZ (1030 * Second)
                    (tail (tail (tail clock0))) eq_refl) eq_refl).
Defined.

(** C6 on the example: the zones updater of cache 2 fails; the first
    backoff is two seconds, and with a TTL of 120 seconds the backoffs grow
    up to 30 seconds. *)
Lemma GetZones_backoff_policy_witness :
  ∃ c' σ', GetZones cache2 sys0 = ((c', ([], Some (Failed "list"))), σ') ∧
    backoffOnError c' = 2 * Second ∧
    zonesNext c' = 1003 * Second ∧
    IncreasingThenCapped cache2.
Proof.
  destruct (GetZones_backoff_policy cache2 sys0 (1000 * Second) (tail clock0)
              [] (Some (Failed "list")) (tail clock0) (1001 * Second)
              (tail (tail clock0)) eq_refl eq_refl eq_refl eq_refl)
    as (c' & σ' & Hrun & Hfail & _ & Hseq).
  exists c', σ'. split; [exact Hrun|].
  destruct (Hfail (ex_intro _ _ eq_refl)) as (Hb & _ & Hn).
  split; [rewrite Hb; reflexivity|].
  split; [rewrite Hn, Hb; reflexivity|].
  apply Hseq; vm_compute; discriminate.
Defined.

(** C6 as worded fails for a negative TTL and for a TTL whose quarter
    overflows when multiplied by five.  With [zonesTTL = -400s] the first
    failure yields the cap [-100s] and the second one [-123s], below the
    cap.  With [zonesTTL = maxInt64] the 95th backoff is below the cap and
    the 96th is negative. *)
Lemma backoff_not_capped_out_of_range :
  ¬ IncreasingThenCapped (cacheTTL (- 400 * Second)) ∧
  ¬ IncreasingThenCapped (cacheTTL maxInt64).
Proof.
  split.
  - intros (N & HN & Hinc & Hcap).
    destruct (decide (N ≤ 1)%nat) as [Hle|Hgt].
    + specialize (Hcap 2%nat). vm_compute in Hcap.
      assert (Hle2 : (N ≤ 2)%nat) by lia.
      specialize (Hcap Hle2). discriminate.
    + assert (H1 : (1 ≤ 1)%nat) by lia. assert (H2 : (1 < N)%nat) by lia.
      specialize (Hinc 1%nat H1 H2). vm_compute in Hinc. discriminate.
  - intros (N & HN & Hinc & Hcap).
    destruct (decide (N ≤ 95)%nat) as [Hle|Hgt].
    + specialize (Hcap 95%nat Hle). vm_compute in Hcap. discriminate.
    + assert (H1 : (1 ≤ 95)%nat) by lia. assert (H2 : (95 < N)%nat) by lia.
      specialize (Hinc 95%nat H1 H2). vm_compute in Hinc. discriminate.
Qed.

(** C10 on the example: cache 2 never reported zones; its [Release] changes
    nothing; and releasing cache 1 twice is the same as once. *)
Lemma Release_idempotent_witness :
  UpdateUsedZones (self cache2) [] sysZ = (tt, sysZ) ∧
  (Release cache1;;; Release cache1) sysZ = Release cache1 sysZ.
Proof.
  split.
  - apply (proj1 (Release_idempotent cache2 sysZ)). reflexivity.
  - apply (proj2 (Release_idempotent cache1 sysZ)).
Defined.

(** The end-to-end scenario of the specification: with a TTL of 60 seconds
    the first call fetches the state, a call 29 seconds after the refresh is
    answered from the cache, and a call 61 seconds after it fetches again. *)
Example end_to_end_scenario :
  let r1 := GetZoneState zoneA cache1 sys0 in
  let r2 := GetZoneState zoneA cache1 r1.2 in
  let r3 := GetZoneState zoneA cache1 r2.2 in
  (r1.1, r2.1, r3.1) =
    ((Some 1%positive, false, None),
     (Some 2%positive, true, None),
     (Some 3%positive, false, None)) ∧
  trace r3.2 = [EvStateUpdater 1 zoneA; EvStateUpdater 1 zoneA] ∧
  (dnssets <$> inMemory (shared r3.2) !! z1) = Some 3%positive.
Proof. vm_compute. auto. Qed.

(** * More properties on the example runs *)

(** X3 on the example: the usage set of cache 1 after its first [GetZones]
    is sorted, whatever the order of the listing; a second listing in the
    other order leaves the manager as it is. *)
Lemma GetZones_refresh_records_usage_witness :
  ∃ c' σ', GetZones cacheBA sys0 = ((c', ([zoneB; zoneA], None)), σ') ∧
    usedBy (shared σ') 1%positive = [z1; z2] ∧
    (usedBy (shared sys0) 1%positive = [] → shared σ' = shared sys0 → False).
Proof.
  destruct (GetZones_refresh_records_usage cacheBA sys0 (1000 * Second) (tail clock0)
              [zoneB; zoneA] None (tail clock0) (1001 * Second) (tail (tail clock0))
              eq_refl eq_refl eq_refl eq_refl)
    as (c' & σ' & Hrun & Hself & _).
  exists c', σ'. split; [exact Hrun|]. split; [exact Hself|].
  intros _ Heq. rewrite Heq in Hself. vm_compute in Hself. discriminate.
Defined.

Lemma sysGC'_usedZones :
  usedZones (shared sysGC') = <[1%positive := [z1; z2]]> (<[2%positive := [z2; z3]]> ∅).
Proof. vm_compute. reflexivity. Qed.

Lemma sysGC'_z3_of_cache2_only other ids :
  other ≠ 2%positive → usedZones (shared sysGC') !! other = Some ids → z3 ∉ ids.
Proof.
  intros Ho. rewrite sysGC'_usedZones. intros Hlook Hin.
  apply lookup_insert_Some in Hlook as [[_ Hids]|[_ Hlook]].
  - subst ids. apply elem_of_cons in Hin as [Heq|Hin]; [discriminate Heq|].
    apply elem_of_cons in Hin as [Heq|Hin]; [discriminate Heq|].
    by apply elem_of_nil in Hin.
  - apply lookup_insert_Some in Hlook as [[Heq _]|[_ Hlook]].
    + by apply Ho.
    + by rewrite lookup_empty in Hlook.
Qed.

Lemma sysGC'_uses_z3 : z3 ∈ usedBy (shared sysGC') (self cache2).
Proof. vm_compute. repeat constructor. Qed.

(** X4 on the example: consumer 2 uses [z2; z3]; its listing fails, and
    zone [z3], which nobody else uses, loses its snapshot and its proxy. *)
Lemma GetZones_empty_listing_releases_witness :
  ∃ c' σ', GetZones cache2 sysGC' = ((c', ([], Some (Failed "list"))), σ') ∧
    usedBy (shared σ') 2%positive = [] ∧
    inMemory (shared σ') !! z3 = None ∧ proxies (shared σ') !! z3 = None.
Proof.
  destruct (GetZones_empty_listing_releases cache2 sysGC' (2000 * Second)
              [2001 * Second] (Some (Failed "list")) [2001 * Second]
              (2001 * Second) [] eq_refl eq_refl eq_refl eq_refl)
    as (c' & σ' & Hrun & Hself & Hz).
  exists c', σ'. split; [exact Hrun|]. split; [exact Hself|].
  apply Hz; [exact sysGC'_uses_z3|exact sysGC'_z3_of_cache2_only].
Defined.

(** X9 on the example: after the listing of cache 1 at 1000s, the calls at
    1030s and 1062s are answered from the cache. *)
Lemma GetZones_cached_until_deadline_witness :
  ∃ c' σ', getZonesTimes 3 cache1 sys0 =
      ((c', [([zoneA; zoneB], None); ([zoneA; zoneB], None); ([zoneA; zoneB], None)]), σ') ∧
    trace σ' = [EvZonesUpdater 1; EvAddGenericRequests 1 "cached_getzones" 1;
                EvAddGenericRequests 1 "cached_getzones" 1].
Proof.
  apply (GetZones_cached_until_deadline cache1 sys0 (1000 * Second) (tail clock0)
           [zoneA; zoneB] None (tail clock0) (1001 * Second) (tail (tail clock0)) 2
           eq_refl eq_refl eq_refl eq_refl (conj eq_refl (conj eq_refl I))).
Defined.

(** X6 on the example: the first call for zone A invokes the updater, the
    call at 1030s counts a cache hit. *)
Lemma CacheGetZoneState_hit_or_fetch_witness :
  (∃ r σ', CacheGetZoneState cache1 zoneA sys0 = (r, σ') ∧
     trace σ' = [EvStateUpdater 1 zoneA]) ∧
  (∃ r σ', CacheGetZoneState cache1 zoneA sys1 = (r, σ') ∧
     trace σ' = [EvStateUpdater 1 zoneA;
                 EvAddZoneRequests 1 "z1" "cached_getzonestate" 1]).
Proof.
  split.
  - apply (CacheGetZoneState_hit_or_fetch cache1 zoneA sys0 (1000 * Second)
             (tail clock0) eq_refl).
  - apply (CacheGetZoneState_hit_or_fetch cache1 zoneA sys1 (1030 * Second)
             (tail (tail (tail clock0))) eq_refl).
Defined.

(** X10 on the example: zone A was refreshed from 1000s on; after the
    conflict with a later entry the call at 1030s fetches again. *)
Lemma conflict_forces_refetch_witness :
  ∃ r σ2,
    GetZoneState zoneA cache2
      (exec (ReportZoneStateConflict (env := env) z1 (Some (Busy (1000 * Second + 1)))) sys1) = (r, σ2) ∧
    r.1.2 = false ∧
    trace σ2 = [EvStateUpdater 1 zoneA; EvStateUpdater 2 zoneA].
Proof.
  apply (conflict_forces_refetch (env := env) zoneA (Some (Busy (1000 * Second + 1))) sys1
           (exec (ReportZoneStateConflict (env := env) z1 (Some (Busy (1000 * Second + 1)))) sys1)
           cache2 (1030 * Second) (tail (tail (tail clock0)))
           eq_refl eq_refl eq_refl).
Defined.

(** X11 on the example: after a failed write on zone A the call at 1030s
    fetches again. *)
Lemma failed_write_forces_refetch_witness :
  ∃ r σ2,
    GetZoneState zoneA cache2
      (exec (ApplyRequests (env := env) cache1 (Some (Failed "write")) zoneA [Create "mail"]) sys1)
      = (r, σ2) ∧
    r.1.2 = false ∧
    trace σ2 =
      [EvStateUpdater 1 zoneA;
       EvInfof "zone cache discarded because of error during ExecuteRequests";
       EvAddZoneCacheDiscarding z1; EvStateUpdater 2 zoneA].
Proof.
  apply (failed_write_forces_refetch (env := env) cache1 (Failed "write") zoneA [Create "mail"] sys1
           cache2 (1030 * Second) (tail (tail (tail clock0)))
           eq_refl eq_refl eq_refl).
Defined.

Lemma sysZA_stores_z1 : is_Some (inMemory (shared sysZA) !! z1).
Proof. vm_compute. by eexists. Qed.

Lemma sysZA_used : usedBy (shared sysZA) (self cache1') ≠ [].
Proof. vm_compute. discriminate. Qed.

Lemma sysZA_one_consumer other :
  other ≠ self cache1' → usedBy (shared sysZA) other = [].
Proof.
  assert (Hused : usedZones (shared sysZA) = <[1%positive := [z1; z2]]> ∅)
    by (vm_compute; reflexivity).
  assert (Hself : self cache1' = 1%positive) by (vm_compute; reflexivity).
  rewrite Hself. intros Ho. unfold usedBy. rewrite Hused, lookup_insert_ne; [done|].
  intros Heq. by apply Ho.
Qed.

(** X14 on the example: cache 1 is the only consumer; its release empties
    the manager. *)
Lemma Release_last_consumer_witness :
  is_Some (inMemory (shared sysZA) !! z1) ∧
  ∃ σ', Release cache1' sysZA = (tt, σ') ∧
    inMemory (shared σ') = ∅ ∧ proxies (shared σ') = ∅.
Proof.
  split; [exact sysZA_stores_z1|].
  destruct (Release_last_consumer cache1' sysZA sysZA_used sysZA_one_consumer)
    as (σ' & Hrun & _ & Hm & Hp & _).
  exists σ'. split; [exact Hrun|]. split; [exact Hm|exact Hp].
Defined.

(** X7 on the example: the snapshot of zone A in [sys1] is an allocated
    object. *)
Lemma reachable_states_consistent_witness :
  ∃ d, heap sys1 !! 1%positive = Some d.
Proof.
  exact (proj1 (reachable_states_consistent sys1 sys1_reachable) z1
           {| zd_domain := "a.example.com"; zd_key := "k1"; dnssets := 1 |} eq_refl).
Defined.


Lemma sysConflict_run :
  ReportZoneStateConflict (env := env) z1 (Some (Busy (1000 * Second + 1))) sys1
    = (true, sysConflict).
Proof. vm_compute. reflexivity. Qed.

Lemma sysLater_run : RunWithoutRefresh z1 sysConflict sysLater.
Proof.
  apply run_GetZones, run_ApplyRequests, run_CacheReportZoneStateConflict, run_start.
Qed.

(** X18 on the example: zone A was refreshed from 1000s on; the conflict
    with a later entry is acted on; after the same report again, a
    throttled write and a listing, the report is still not acted on. *)
Lemma conflict_reported_once_witness :
  ∃ σ3,
    ReportZoneStateConflict (env := env) z1 (Some (Busy (1000 * Second + 1))) sysLater
      = (false, σ3) ∧
    CacheReportZoneStateConflict (env := env) cache2 zoneA
      (Some (Busy (1000 * Second + 1))) sysLater = (false, σ3).
Proof.
  destruct (conflict_reported_once (env := env) z1 (Some (Busy (1000 * Second + 1)))
              (Some (Busy (1000 * Second + 1))) sys1 sysConflict sysLater
              sysConflict_run sysLater_run)
    as (σ3 & Hrun & Hcache & _).
  exists σ3. split; [exact Hrun|]. exact (Hcache cache2 zoneA eq_refl).
Defined.

(** X19 on the example: a cache made by the test factory lists its zones
    on the first call. *)
Lemma new_cache_first_GetZones_refreshes_witness :
  ∃ c' σ',
    GetZones (newDefaultZoneCache 1%positive (120 * Second) (listOk [zoneB; zoneA]) stateOk)
      sys0 = ((c', ([zoneB; zoneA], None)), σ') ∧
    trace σ' = [EvZonesUpdater 1] ∧
    usedBy (shared σ') 1%positive = [z1; z2].
Proof.
  apply (new_cache_first_GetZones_refreshes (env := env)
           (NewTestZoneCacheFactory (120 * Second) (60 * Second)).1 1%positive
           (listOk [zoneB; zoneA]) stateOk _ sys0 (1000 * Second) (tail clock0)
           [zoneB; zoneA] None (tail clock0) eq_refl eq_refl eq_refl eq_refl).
Defined.

Lemma sysGC'_usage_changes : usedBy (shared sysGC') 2%positive ≠ [z2].
Proof. vm_compute. discriminate. Qed.

Lemma sysEvict_run : UpdateUsedZones 2%positive [z2] sysGC' = (tt, sysEvict).
Proof. vm_compute. reflexivity. Qed.

Lemma sysEvict_z3_unused : ¬ InUnion (shared sysEvict) (Id zoneC).
Proof.
  assert (Hused : usedZones (shared sysEvict) =
                  <[1%positive := [z1; z2]]> (<[2%positive := [z2]]> ∅))
    by (vm_compute; reflexivity).
  intros (other & ids & Hlook & Hin). rewrite Hused in Hlook. simpl in Hin.
  apply lookup_insert_Some in Hlook as [[_ Hids]|[_ Hlook]].
  - subst ids. apply elem_of_cons in Hin as [Heq|Hin]; [discriminate Heq|].
    apply elem_of_cons in Hin as [Heq|Hin]; [discriminate Heq|].
    by apply elem_of_nil in Hin.
  - apply lookup_insert_Some in Hlook as [[_ Hids]|[_ Hlook]].
    + subst ids. apply elem_of_cons in Hin as [Heq|Hin]; [discriminate Heq|].
      by apply elem_of_nil in Hin.
    + by rewrite lookup_empty in Hlook.
Qed.

Lemma sysEvict_clock : clockNow (world sysEvict) = (2000 * Second, [2001 * Second]).
Proof. vm_compute. reflexivity. Qed.

Lemma sysEvict_after :
  After (2000 * Second) (Add Time.zero (stateTTLGetter (shared sysEvict) (Id zoneC))) = true.
Proof. vm_compute. reflexivity. Qed.

(** X21 on the example: consumer 2 gives up zone [z3]; the zone is evicted
    and the next call for it fetches its state again. *)
Lemma evicted_zone_refetched_witness :
  inMemory (shared sysEvict) !! Id zoneC = None ∧
  ∃ r σ2, GetZoneState zoneC cache1 sysEvict = (r, σ2) ∧
    r.1.2 = false ∧
    trace σ2 = trace sysEvict ++ [EvStateUpdater (self cache1) zoneC].
Proof.
  exact (evicted_zone_refetched (env := env) 2%positive [z2] sysGC' sysEvict zoneC
           cache1 (2000 * Second) [2001 * Second] sysEvict_run sysGC'_usage_changes
           sysEvict_z3_unused sysEvict_clock sysEvict_after).
Defined.
